(** * Checkpoint manifest manager and retry supervisor

    A shallow embedding of [src/orchestrator/recovery.py],
    [src/orchestrator/nodes.py] and [src/engine/state.py], with the
    properties the specification states about them.

    Conventions of the embedding.
    - Python [str] is [string]: the bytes of its UTF-8 form, under which
      a file name is what the disk stores and an ASCII character is one
      byte. [str.lower] is embedded by what it does to the ASCII
      letters, which is all that a search for an ASCII text in the
      lowered string depends on; the decimal digits of the scan's
      pattern are those of Unicode, decoded from the bytes.
    - Python [int] is [Z].
    - Python [float] (delays, losses, clock readings) is [Q], the finite
      floats as the numbers they are. A product of a float and a power of
      two is exact as long as it stays in range; the conversion of an
      [int] past the range of floats raises, and is embedded as raising.
    - An exception is a record carrying its class name and its text; a
      statement that can raise returns a [result].
    - A path is the list of its components; the disk is a tree of files
      and directories, a directory keeping its entries in listing order.
    - A handler call is a function on the world it runs in (disk, clock
      readings taken, barriers passed); what it did before raising stays
      done.
    - The collaborators the handler imports from the [distributed]
      module ([barrier], [get_rank], [is_main_process]) and the library
      calls [torch.save], [torch.load] and [time.sleep] are taken by
      their interface: a counter, two values of the environment, a file
      that loads back as what was saved, and a call that returns or
      raises. *)

From Stdlib Require Import String Ascii List ZArith QArith Qminmax Qpower Qabs Lia Bool.
From Stdlib Require Import DecimalString DecimalN DecimalFacts Sorted.
From Equations Require Import Equations.
Import ListNotations.

Local Open Scope string_scope.
Local Open Scope Z_scope.

(* ===================================================================== *)
(** * Strings as Python uses them *)
(* ===================================================================== *)

Module PyStr.

(** [c.lower()] on one character: 'A'..'Z' move to 'a'..'z'. *)
Definition lower_ascii (c : ascii) : ascii :=
  let n := N_of_ascii c in
  if ((65 <=? n) && (n <=? 90))%N then ascii_of_N (n + 32) else c.

(** [s.lower()]. *)
Fixpoint lower (s : string) : string :=
  match s with
  | EmptyString => EmptyString
  | String c r => String (lower_ascii c) (lower r)
  end.

(** [t.startswith(s)]. *)
Fixpoint startswith (s t : string) : bool :=
  match s, t with
  | EmptyString, _ => true
  | String a s', String b t' => Ascii.eqb a b && startswith s' t'
  | String _ _, EmptyString => false
  end.

(** [s in t] for strings: [s] occurs in [t] at some offset. *)
Fixpoint str_in (s t : string) : bool :=
  startswith s t ||
  match t with
  | EmptyString => false
  | String _ t' => str_in s t'
  end.

(** The upper and the lower form of each of the 26 letters, paired in
    alphabetical order. *)
Definition letter_pairs : list (ascii * ascii) :=
  combine (list_ascii_of_string "ABCDEFGHIJKLMNOPQRSTUVWXYZ")
          (list_ascii_of_string "abcdefghijklmnopqrstuvwxyz").

(** Two characters that differ at most in letter case. *)
Definition same_letter (a b : ascii) : Prop :=
  a = b \/ In (a, b) letter_pairs \/ In (b, a) letter_pairs.

(** Two strings that differ at most in letter case, character by
    character. *)
Fixpoint same_text (s t : string) : Prop :=
  match s, t with
  | EmptyString, EmptyString => True
  | String a s', String b t' => same_letter a b /\ same_text s' t'
  | _, _ => False
  end.

(** What the specification calls a case-insensitive occurrence: some
    slice of [t] is [s] up to letter case. *)
Definition occurs_ci (s t : string) : Prop :=
  exists pre mid suf, t = pre ++ mid ++ suf /\ same_text mid s.

End PyStr.


(* ===================================================================== *)
(** * Python exceptions and results *)
(* ===================================================================== *)

Module Py.

(** A raised exception: its class and what [str(exc)] renders. *)
Record BaseException : Set := mkExc { exc_class : string; exc_str : string }.

(** What running a statement gives: a value, or an exception on its way
    up. *)
Inductive result (A : Type) : Type :=
| Ok (a : A)
| Raise (exc : BaseException).
Arguments Ok {A} _.
Arguments Raise {A} _.

Definition FileNotFoundError : BaseException := mkExc "FileNotFoundError" EmptyString.
Definition FileExistsError : BaseException := mkExc "FileExistsError" EmptyString.
Definition NotADirectoryError : BaseException := mkExc "NotADirectoryError" EmptyString.
Definition IsADirectoryError : BaseException := mkExc "IsADirectoryError" EmptyString.
Definition DirectoryNotEmpty : BaseException := mkExc "OSError" "Directory not empty".
Definition JSONDecodeError : BaseException := mkExc "JSONDecodeError" EmptyString.
Definition UnpicklingError : BaseException := mkExc "UnpicklingError" EmptyString.

(** What the product of a float and an [int] of 2^1024 or more raises. *)
Definition OverflowError : BaseException :=
  mkExc "OverflowError" "int too large to convert to float".

(** What [time.sleep] raises on a negative delay, and on one past the
    range of its clock. *)
Definition NegativeSleep : BaseException :=
  mkExc "ValueError" "sleep length must be non-negative".
Definition SleepTooLong : BaseException :=
  mkExc "OverflowError" "timestamp too large to convert to C _PyTime_t".

End Py.
(* ===================================================================== *)
(** * [orchestrator/recovery.py] *)
(* ===================================================================== *)

Module Recovery.
Import PyStr Py.

(** [class FaultType(str, Enum)]. *)
Inductive FaultType : Set := RETRIABLE | NON_RETRIABLE.

Definition RETRIABLE_SIGNATURES : list string :=
  [ "nccl";
    "connection reset";
    "timeout";
    "cuda error: out of memory";
    "runtimeerror: cuda error" ].

(** The [for sig in ...: if sig in text: return RETRIABLE] loop, and the
    [return NON_RETRIABLE] after it. *)
Fixpoint scan_signatures (sigs : list string) (text : string) : FaultType :=
  match sigs with
  | [] => NON_RETRIABLE
  | sig :: rest => if str_in sig text then RETRIABLE else scan_signatures rest text
  end.

Definition classify_fault (exc : BaseException) : FaultType :=
  let text := lower (exc_str exc) in
  scan_signatures RETRIABLE_SIGNATURES text.

(** [@dataclass class RetryPolicy]. *)
Record RetryPolicy : Set := mkPolicy {
  max_retries : Z;
  base_backoff : Q;
  max_backoff : Q
}.

(** The dataclass defaults. *)
Definition default_policy : RetryPolicy := mkPolicy 3 (10 # 1) (300 # 1).

(** Python's two-argument [min(a, b)]: [b] when [b < a], otherwise [a]. *)
Definition py_min (a b : Q) : Q :=
  if Qlt_le_dec b a then b else a.

(** [min(self.max_backoff, self.base_backoff * (2 ** attempt))].
    For an attempt that is not negative [2 ** attempt] is an [int], and
    its product with the float [base_backoff] converts it to a float
    first: from 2^1024 on that conversion raises. Below, the product is
    the exact one, or an infinity when it leaves the range of floats; a
    positive infinity loses against [max_backoff] as the exact product
    does. (A negative infinity, which takes a negative [base_backoff],
    and the float power [2 ** attempt] of a negative attempt, which the
    retry loop never asks for, are kept as the exact numbers.) *)
Definition backoff_for (self : RetryPolicy) (attempt : Z) : result Q :=
  if 1024 <=? attempt then Raise OverflowError
  else Ok (py_min (max_backoff self) (base_backoff self * Qpower (2 # 1) attempt)).

(** What the specification writes for the same delay. *)
Definition spec_backoff (p : RetryPolicy) (attempt : Z) : Q :=
  Qmin (max_backoff p) (base_backoff p * inject_Z (2 ^ attempt)).

(** [class GracefulTerminator]: the [threading.Event] is one flag. *)
Record GracefulTerminator : Set := mkTerminator { _terminate : bool }.

(** [__init__]: a fresh, clear event. *)
Definition new_terminator : GracefulTerminator := mkTerminator false.



(** What a run of the supervisor does that the outside can observe, in
    the order it happens. *)
Inductive event : Set :=
| EvCall                                    (* [fn()] *)
| EvLogRetry (exc : BaseException) (delay : Q) (next_attempt : Z)
                                            (* "Retriable failure detected ..." *)
| EvSleep (delay : Q)                       (* [time.sleep(delay)], once it has returned *)
| EvLogFatal (exc : BaseException).         (* "Non-retriable failure or retries exhausted ..." *)

(** How a call ends: it returns, or an exception leaves it. *)
Inductive outcome : Set :=
| Returned
| Raised (exc : BaseException).

Section Supervisor.

(** The state the unit of work reads and writes. *)
Variable W : Type.

(** The process the supervisor runs in: the work's state and the
    process-wide terminator latch. *)
Record proc : Type := mkProc { world : W; terminator : GracefulTerminator }.

(** [fn: Callable[[], None]]: one call moves the process and either
    returns ([None]) or raises. The work can read the latch, and a
    SIGTERM delivered while it runs sets it. *)
Variable fn : proc -> proc * option BaseException.

(** [time.sleep(delay)]: the call returns once the delay has passed, or
    raises. A SIGTERM delivered meanwhile runs the handler, which sets
    the latch, and the sleep goes on. *)
Variable time_sleep : Q -> proc -> proc * option BaseException.

Variable retry_policy : RetryPolicy.

(** The [while True] loop of [run_with_retries], entered with the local
    [attempt]; the result is the process afterwards, the events in order
    and the outcome. An exception raised inside the [except] block, by
    [backoff_for] or by [time.sleep], leaves the loop. A sleep is
    recorded when it has returned. *)
Equations? retry_loop (attempt : Z) (s : proc) : proc * list event * outcome
  by wf (Z.to_nat (max_retries retry_policy - attempt)) lt :=
retry_loop attempt s with fn s => {
  | (s1, None) => (s1, [EvCall], Returned);
  | (s1, Some exc) with classify_fault exc => {
    | RETRIABLE with Z_lt_dec attempt (max_retries retry_policy) => {
      | left _ with backoff_for retry_policy attempt => {
        | Raise e => (s1, [EvCall], Raised e);
        | Ok delay with time_sleep delay s1 => {
          | (s2, Some e) =>
              (s2, [EvCall; EvLogRetry exc delay (attempt + 1)], Raised e);
          | (s2, None) =>
              let '(s3, evs, out) := retry_loop (attempt + 1) s2 in
              (s3, EvCall :: EvLogRetry exc delay (attempt + 1) :: EvSleep delay :: evs,
               out) } };
      | right _ => (s1, [EvCall; EvLogFatal exc], Raised exc) };
    | NON_RETRIABLE => (s1, [EvCall; EvLogFatal exc], Raised exc) } }.
Proof. lia. Qed.

Definition run_with_retries (s : proc) : proc * list event * outcome :=
  retry_loop 0 s.

(** The process as call number [n] of the work finds it, counting from
    0, when every call before it failed and was retried. *)
Fixpoint before_call (n : nat) (s : proc) : proc :=
  match n with
  | O => s
  | S k =>
      let s1 := fst (fn (before_call k s)) in
      match backoff_for retry_policy (Z.of_nat k) with
      | Ok delay => fst (time_sleep delay s1)
      | Raise _ => s1
      end
  end.

End Supervisor.

Arguments mkProc {W} _ _.
Arguments world {W} _.
Arguments terminator {W} _.
Arguments retry_loop {W} _ _ _ _ _.
Arguments run_with_retries {W} _ _ _ _.
Arguments before_call {W} _ _ _ _ _.

Definition is_call (e : event) : bool :=
  match e with EvCall => true | _ => false end.

(** How often the work was called, and the sleeps in order. *)
Definition calls (evs : list event) : nat := length (filter is_call evs).

Definition sleeps (evs : list event) : list Q :=
  flat_map (fun e => match e with EvSleep d => [d] | _ => [] end) evs.

(** The time a run spends asleep. *)
Definition total_sleep (evs : list event) : Q :=
  fold_right Qplus 0%Q (sleeps evs).

(** ** Units of work to run the supervisor on *)

(** [time.sleep] with no signal on its way: a delay whose nanoseconds
    do not fit a signed 64-bit integer is refused, then a negative
    one. *)
Definition quiet_sleep {W : Type} (delay : Q) (s : proc W)
  : proc W * option BaseException :=
  let ns := (delay * inject_Z (10 ^ 9))%Q in
  if Qle_bool (inject_Z (- 2 ^ 63)) ns && negb (Qle_bool (inject_Z (2 ^ 63)) ns)
  then if Qle_bool 0 delay then (s, None) else (s, Some NegativeSleep)
  else (s, Some SleepTooLong).

Definition nccl_timeout : BaseException :=
  mkExc "RuntimeError" "NCCL timeout while waiting for rank 3".

(** Fails with a transient fault at every call. *)
Definition always_timeout (s : proc unit) : proc unit * option BaseException :=
  (s, Some nccl_timeout).

(** Counts its calls; the first one fails with a transient fault, the
    later ones return. *)
Definition flaky_once (s : proc nat) : proc nat * option BaseException :=
  (mkProc (S (world s)) (terminator s),
   if Nat.eqb (world s) 0 then Some nccl_timeout else None).

(** Retries past the range of floats, resting a millisecond at most. *)
Definition eager_policy : RetryPolicy := mkPolicy 1030 (1 # 1000) (1 # 1000).

End Recovery.

(* ===================================================================== *)
(** * The file system under the handler *)
(* ===================================================================== *)

Module Fs.
Import Recovery Py.
Local Open Scope list_scope.

(** A path is the list of its components, outermost first;
    [os.path.join(a, name)] with a plain name adds one component. *)
Definition path : Set := list string.

Definition path_join (a : path) (name : string) : path := a ++ [name].

(** [f"{p}{suffix}"]: the suffix lands on the last component. *)
Fixpoint add_suffix (p : path) (suffix : string) : path :=
  match p with
  | [] => [suffix]
  | [n] => [(n ++ suffix)%string]
  | n :: q => n :: add_suffix q suffix
  end.

Section Tree.

(** What a regular file holds. *)
Variable C : Type.

(** A file or a directory; a directory lists its entries in the order
    [os.listdir] reports them. *)
#[warnings="-register-all"]
Inductive node : Type :=
| File (c : C)
| Dir (entries : list (string * node)).

Fixpoint assoc (n : string) (es : list (string * node)) : option node :=
  match es with
  | [] => None
  | (m, v) :: r => if String.eqb n m then Some v else assoc n r
  end.

(** Put [v] under the name [n]: in place when the name is there, at the
    end otherwise. *)
Fixpoint set_entry (n : string) (v : node) (es : list (string * node))
  : list (string * node) :=
  match es with
  | [] => [(n, v)]
  | (m, w) :: r => if String.eqb n m then (m, v) :: r else (m, w) :: set_entry n v r
  end.

Fixpoint del_entry (n : string) (es : list (string * node)) : list (string * node) :=
  match es with
  | [] => []
  | (m, w) :: r => if String.eqb n m then del_entry n r else (m, w) :: del_entry n r
  end.

(** The node a path leads to, from the tree's top. *)
Fixpoint lookup (p : path) (t : node) : option node :=
  match p with
  | [] => Some t
  | n :: q =>
      match t with
      | Dir es => match assoc n es with
                  | Some c => lookup q c
                  | None => None
                  end
      | File _ => None
      end
  end.

(** [os.path.exists], [os.path.isfile], [os.path.isdir]. *)
Definition exists_ (t : node) (p : path) : bool :=
  match lookup p t with Some _ => true | None => false end.

Definition isfile (t : node) (p : path) : bool :=
  match lookup p t with Some (File _) => true | _ => false end.

Definition isdir (t : node) (p : path) : bool :=
  match lookup p t with Some (Dir _) => true | _ => false end.

(** [os.listdir]: the names in a directory; it raises on anything else. *)
Definition listdir (t : node) (p : path) : result (list string) :=
  match lookup p t with
  | Some (Dir es) => Ok (map fst es)
  | Some (File _) => Raise NotADirectoryError
  | None => Raise FileNotFoundError
  end.

(** Run [f] on the entries of the directory at [p]. *)
Fixpoint with_dir (p : path)
    (f : list (string * node) -> result (list (string * node))) (t : node)
  : result node :=
  match t with
  | File _ => Raise NotADirectoryError
  | Dir es =>
      match p with
      | [] => match f es with
              | Ok es' => Ok (Dir es')
              | Raise e => Raise e
              end
      | n :: q =>
          match assoc n es with
          | None => Raise FileNotFoundError
          | Some c =>
              match with_dir q f c with
              | Ok c' => Ok (Dir (set_entry n c' es))
              | Raise e => Raise e
              end
          end
      end
  end.

(** The directory part and the last component of a path. *)
Fixpoint split_last (p : path) : option (path * string) :=
  match p with
  | [] => None
  | [n] => Some ([], n)
  | n :: q => match split_last q with
              | Some (d, l) => Some (n :: d, l)
              | None => None
              end
  end.

(** [os.makedirs(p, exist_ok=True)]: every missing directory along [p]
    is made; a file on the way is an error. *)
Fixpoint makedirs (p : path) (t : node) : result node :=
  match t with
  | File _ => match p with
              | [] => Raise FileExistsError
              | _ :: _ => Raise NotADirectoryError
              end
  | Dir es =>
      match p with
      | [] => Ok t
      | n :: q =>
          let sub := match assoc n es with Some c => c | None => Dir [] end in
          match makedirs q sub with
          | Ok c' => Ok (Dir (set_entry n c' es))
          | Raise e => Raise e
          end
      end
  end.

(** [open(p, "w")] followed by the write: the file is made or
    overwritten; its directory must be there and [p] must not be one. *)
Definition write_file (p : path) (c : C) (t : node) : result node :=
  match split_last p with
  | None => Raise IsADirectoryError
  | Some (d, n) =>
      with_dir d (fun es =>
        match assoc n es with
        | Some (Dir _) => Raise IsADirectoryError
        | _ => Ok (set_entry n (File c) es)
        end) t
  end.

(** [shutil.rmtree(p, ignore_errors=True)]: a directory goes with all
    it holds; anything else is left alone, silently. *)
Definition rmtree (p : path) (t : node) : node :=
  match lookup p t, split_last p with
  | Some (Dir _), Some (d, n) =>
      match with_dir d (fun es => Ok (del_entry n es)) t with
      | Ok t' => t'
      | Raise _ => t
      end
  | _, _ => t
  end.

(** [os.replace(src, dst)], the rename of POSIX: a file may land on a
    file, a directory on an empty directory, either on a free name. *)
Definition replace (src dst : path) (t : node) : result node :=
  match lookup src t, split_last src, split_last dst with
  | None, _, _ => Raise FileNotFoundError
  | Some v, Some (sd, sn), Some (dd, dn) =>
      match lookup dd t with
      | Some (Dir des) =>
          if list_eq_dec string_dec src dst then Ok t
          else
            let clash :=
              match v, assoc dn des with
              | _, None => None
              | File _, Some (File _) => None
              | File _, Some (Dir _) => Some IsADirectoryError
              | Dir _, Some (File _) => Some NotADirectoryError
              | Dir _, Some (Dir []) => None
              | Dir _, Some (Dir (_ :: _)) => Some DirectoryNotEmpty
              end in
            match clash with
            | Some e => Raise e
            | None =>
                match with_dir sd (fun es => Ok (del_entry sn es)) t with
                | Ok t1 => with_dir dd (fun es => Ok (set_entry dn v es)) t1
                | Raise e => Raise e
                end
            end
      | Some (File _) => Raise NotADirectoryError
      | None => Raise FileNotFoundError
      end
  | Some _, _, _ => Raise (mkExc "OSError" "Invalid argument")
  end.

(** The tree [t] with the node at [p] replaced by [x]: what a call that
    changes one directory makes of the whole tree. *)
Fixpoint plug (p : path) (x : node) (t : node) : node :=
  match p with
  | [] => x
  | n :: q =>
      match t with
      | Dir es =>
          match assoc n es with
          | Some c => Dir (set_entry n (plug q x c) es)
          | None => t
          end
      | File _ => t
      end
  end.

End Tree.

Arguments File {C} _.
Arguments Dir {C} _.
Arguments assoc {C} _ _.
Arguments set_entry {C} _ _ _.
Arguments del_entry {C} _ _.
Arguments lookup {C} _ _.
Arguments exists_ {C} _ _.
Arguments isfile {C} _ _.
Arguments isdir {C} _ _.
Arguments listdir {C} _ _.
Arguments with_dir {C} _ _ _.
Arguments makedirs {C} _ _.
Arguments write_file {C} _ _ _.
Arguments rmtree {C} _ _.
Arguments replace {C} _ _ _.
Arguments plug {C} _ _ _.

End Fs.

(* ===================================================================== *)
(** * [engine/state.py] *)
(* ===================================================================== *)

Module State.
Import PyStr Recovery Py Fs.
Local Open Scope list_scope.

Definition MANIFEST : string := "manifest.json".
Definition STATE_FILE : string := "state.pt".
Definition META_FILE : string := "meta.json".

(** The application state a checkpoint carries ([Dict[str, Any]]); the
    handler never looks inside. *)
Definition state_dict : Set := list (string * Z).

(** [@dataclass class CheckpointInfo]. *)
Record CheckpointInfo : Set := mkInfo {
  step : Z;
  path : Fs.path;
  loss : option Q;
  timestamp : Q;
  ok : bool
}.

(** [CheckpointInfo(step=..., path=..., ok=True)]: the other fields take
    the dataclass defaults, [loss = None] and [timestamp = 0.0]. *)
Definition CheckpointInfo_at (step : Z) (path : Fs.path) : CheckpointInfo :=
  mkInfo step path None 0 true.

(** One element of the manifest's ["checkpoints"] list. *)
Record entry : Set := mkEntry {
  e_step : Z;
  e_path : Fs.path;
  e_loss : option Q;
  e_timestamp : Q;
  e_ok : bool
}.

(** The manifest object: [{"latest": ..., "checkpoints": [...]}]. *)
Record manifest : Set := mkManifest {
  latest : option Z;
  checkpoints : list entry
}.

(** The metadata object of one checkpoint directory. *)
Record meta : Set := mkMeta {
  m_step : Z;
  m_loss : option Q;
  m_timestamp : Q;
  m_rank : Z
}.

(** What a file of the checkpoint tree holds. *)
Inductive content : Set :=
| Torch (st : state_dict)       (* written by [torch.save]; [torch.load] gives [st] back *)
| ManifestJson (m : manifest)   (* JSON of a manifest *)
| MetaJson (m : meta)           (* JSON of a metadata object *)
| Bytes (b : string).           (* anything else: truncated, corrupt, foreign *)

Definition tree : Type := node content.

(** What the handler takes from its surroundings: the collaborators of
    the [distributed] module and the wall clock. *)
Record env : Type := mkEnv {
  is_main_process : bool;       (* [is_main_process()] *)
  get_rank : Z;                 (* [get_rank()] *)
  clock : nat -> Q              (* the successive readings of [time.time()] *)
}.

(** The world a handler call runs in. *)
Record sys : Type := mkSys {
  disk : tree;
  ticks : nat;                  (* readings of the clock taken so far *)
  barriers : nat                (* calls of [barrier()] made so far *)
}.

(** A statement: it moves the world and gives a value or raises; what it
    did before raising stays done. *)
Definition M (A : Type) : Type := sys -> result A * sys.

Definition ret {A : Type} (a : A) : M A := fun s => (Ok a, s).

Definition raise {A : Type} (e : BaseException) : M A := fun s => (Raise e, s).

Definition bind {A B : Type} (m : M A) (k : A -> M B) : M B :=
  fun s =>
    match m s with
    | (Ok a, s') => k a s'
    | (Raise e, s') => (Raise e, s')
    end.

Notation "x <- m ;; k" := (bind m (fun x => k))
  (at level 61, m at next level, right associativity).
Notation "m ;;; k" := (bind m (fun _ => k))
  (at level 61, right associativity).

(** Reading the disk, and one system call that changes it. *)
Definition fs_read {A : Type} (f : tree -> A) : M A :=
  fun s => (Ok (f (disk s)), s).

Definition fs_try {A : Type} (f : tree -> result A) : M A :=
  fun s => (f (disk s), s).

Definition fs_call (f : tree -> result tree) : M unit :=
  fun s =>
    match f (disk s) with
    | Ok t' => (Ok tt, mkSys t' (ticks s) (barriers s))
    | Raise e => (Raise e, s)
    end.

Definition time_time (e : env) : M Q :=
  fun s => (Ok (clock e (ticks s)), mkSys (disk s) (S (ticks s)) (barriers s)).

Definition barrier : M unit :=
  fun s => (Ok tt, mkSys (disk s) (ticks s) (S (barriers s))).

(** ** Names of checkpoint directories *)

(** [s.zfill(width)] for a string of digits. *)
Definition zfill (width : nat) (s : string) : string :=
  (string_of_list_ascii (repeat "0"%char (width - String.length s)) ++ s)%string.

(** [str(n)] for a natural number. *)
Definition digits (n : N) : string := NilEmpty.string_of_uint (N.to_uint n).

(** [f"{step:08d}"]: zero-padded to eight characters, the sign first. *)
Definition format_08d (step : Z) : string :=
  if step <? 0 then ("-" ++ zfill 7 (digits (Z.abs_N step)))%string
  else zfill 8 (digits (Z.abs_N step)).

Definition step_name (step : Z) : string := ("step_" ++ format_08d step)%string.

(** The decimal digits of Unicode, the characters [\d] matches in a
    [str] pattern and [int] reads (category Nd): they come in runs of
    ten consecutive code points, zero first. The first code point of
    each run, as of Unicode 14 (CPython 3.11); a later version of the
    standard adds runs at the end. *)
Definition decimal_zeros : list N :=
  [
    48; 1632; 1776; 1984; 2406; 2534; 2662; 2790; 2918; 3046; 3174;
    3302; 3430; 3558; 3664; 3792; 3872; 4160; 4240; 6112; 6160; 6470;
    6608; 6784; 6800; 6992; 7088; 7232; 7248; 42528; 43216; 43264;
    43472; 43504; 43600; 44016; 65296; 66720; 68912; 69734; 69872;
    69942; 70096; 70384; 70736; 70864; 71248; 71360; 71472; 71904;
    72016; 72784; 73040; 73120; 92768; 92864; 93008; 120782; 120792;
    120802; 120812; 120822; 123200; 123632; 125264; 130032 ]%N.

(** The value of a code point that is a decimal digit. *)
Definition decimal_value (cp : N) : option N :=
  match find (fun z => (z <=? cp) && (cp <? z + 10))%N decimal_zeros with
  | Some z => Some (cp - z)%N
  | None => None
  end.

(** The six bits a continuation byte of UTF-8 carries. *)
Definition continuation (c : ascii) : option N :=
  let b := N_of_ascii c in
  if ((128 <=? b) && (b <? 192))%N then Some (b - 128)%N else None.

(** The first character of a name as Python reads it ([os.listdir]
    decodes the bytes of a name as UTF-8): its code point and the bytes
    after it. Bytes that are no well-formed UTF-8 reach Python as lone
    surrogates, one per byte; they are no digits, and are [None] here. *)
Definition decode_char (s : string) : option (N * string) :=
  match s with
  | EmptyString => None
  | String c0 r0 =>
      let b0 := N_of_ascii c0 in
      if (b0 <? 128)%N then Some (b0, r0)
      else
        match r0 with
        | EmptyString => None
        | String c1 r1 =>
            match continuation c1 with
            | None => None
            | Some x1 =>
                if ((194 <=? b0) && (b0 <? 224))%N
                then Some (((b0 - 192) * 64 + x1)%N, r1)
                else
                  match r1 with
                  | EmptyString => None
                  | String c2 r2 =>
                      match continuation c2 with
                      | None => None
                      | Some x2 =>
                          if ((224 <=? b0) && (b0 <? 240))%N then
                            let cp := ((((b0 - 224) * 64 + x1) * 64) + x2)%N in
                            if ((2048 <=? cp) && negb ((55296 <=? cp) && (cp <? 57344)))%N
                            then Some (cp, r2) else None
                          else
                            match r2 with
                            | EmptyString => None
                            | String c3 r3 =>
                                match continuation c3 with
                                | None => None
                                | Some x3 =>
                                    if ((240 <=? b0) && (b0 <? 245))%N then
                                      let cp :=
                                        ((((((b0 - 240) * 64 + x1) * 64) + x2) * 64) + x3)%N in
                                      if ((65536 <=? cp) && (cp <? 1114112))%N
                                      then Some (cp, r3) else None
                                    else None
                                end
                            end
                      end
                  end
            end
        end
  end.

(** The values of the longest run of decimal digits a string starts
    with; every digit takes a byte at least, so the length of the string
    is fuel enough. *)
Fixpoint decimal_run (fuel : nat) (s : string) : list N :=
  match fuel with
  | O => []
  | S k =>
      match decode_char s with
      | Some (cp, rest) =>
          match decimal_value cp with
          | Some v => v :: decimal_run k rest
          | None => []
          end
      | None => []
      end
  end.

(** [int(s)] for a string of decimal digits, most significant first. *)
Definition int_of_decimals (ds : list N) : Z :=
  fold_left (fun acc d => 10 * acc + Z.of_N d) ds 0.

Fixpoint skip (n : nat) (s : string) : string :=
  match n, s with
  | O, _ => s
  | S k, String _ r => skip k r
  | S _, EmptyString => EmptyString
  end.

(** [re.compile(r"step_(\d+)").match(name)] and [int(match.group(1))]:
    the pattern is looked for at the start of the name and need not
    reach its end. (A file name is 255 bytes at most, far below the
    length at which [int] refuses a string of digits.) *)
Definition match_step (name : string) : option Z :=
  if startswith "step_" name then
    match decimal_run (String.length name) (skip 5 name) with
    | [] => None
    | ds => Some (int_of_decimals ds)
    end
  else None.

(** [candidates.sort(key=lambda x: x[0], reverse=True)]: by step, the
    largest first; equal steps keep the order they came in. *)
Fixpoint insert_desc (x : Z * Fs.path) (l : list (Z * Fs.path)) : list (Z * Fs.path) :=
  match l with
  | [] => [x]
  | y :: r => if fst y <=? fst x then x :: y :: r else y :: insert_desc x r
  end.

Definition sort_desc (l : list (Z * Fs.path)) : list (Z * Fs.path) :=
  fold_right insert_desc [] l.

(** [entries[-20:]]. *)
Definition last_20 {A : Type} (l : list A) : list A :=
  skipn (length l - 20) l.

(** ** The handler *)

(** [class NodeStateHandler]; [manifest_path] is fixed by [root_dir]. *)
Record NodeStateHandler : Set := mkHandler { root_dir : Fs.path }.

Definition manifest_path (self : NodeStateHandler) : Fs.path :=
  path_join (root_dir self) MANIFEST.

Definition _safe_makedirs (p : Fs.path) : M unit :=
  fs_call (makedirs p).

(** [__init__]. *)
Definition init (root : Fs.path) : M NodeStateHandler :=
  _safe_makedirs root ;;;
  ret (mkHandler root).

(** [_atomic_write(path, data)]: write the sibling [path.tmp], then
    rename it over [path]. *)
Definition _atomic_write (p : Fs.path) (data : content) : M unit :=
  let tmp := add_suffix p ".tmp" in
  fs_call (write_file tmp data) ;;;
  fs_call (replace tmp p).

Definition checkpoint_dir (self : NodeStateHandler) (step : Z) : Fs.path :=
  path_join (root_dir self) (step_name step).

(** [json.load] of the manifest file. *)
Definition read_manifest (p : Fs.path) (t : tree) : result manifest :=
  match lookup p t with
  | Some (File (ManifestJson m)) => Ok m
  | Some (File _) => Raise JSONDecodeError
  | Some (Dir _) => Raise IsADirectoryError
  | None => Raise FileNotFoundError
  end.

Definition _load_manifest (self : NodeStateHandler) : M manifest :=
  present <- fs_read (fun t => exists_ t (manifest_path self)) ;;
  if negb present then ret (mkManifest None [])
  else fs_try (read_manifest (manifest_path self)).

Definition _write_manifest (self : NodeStateHandler) (m : manifest) : M unit :=
  _atomic_write (manifest_path self) (ManifestJson m).

Definition entry_of (info : CheckpointInfo) : entry :=
  mkEntry (step info) (path info) (loss info) (timestamp info) (ok info).

(** What [_record_checkpoint] makes of the manifest it loaded. *)
Definition recorded (m : manifest) (info : CheckpointInfo) : manifest :=
  let entries := checkpoints m ++ [entry_of info] in
  mkManifest (if ok info then Some (step info) else latest m)
             (last_20 entries).

Definition _record_checkpoint (self : NodeStateHandler) (info : CheckpointInfo) : M unit :=
  m <- _load_manifest self ;;
  _write_manifest self (recorded m info).

(** [save], the writer's part up to and including the metadata file:
    everything lands in the temporary directory. *)
Definition save_write_tmp (e : env) (self : NodeStateHandler)
    (step : Z) (state : state_dict) (loss : option Q) : M unit :=
  let ckpt_dir := checkpoint_dir self step in
  let tmp_dir := add_suffix ckpt_dir ".tmp" in
  stale <- fs_read (fun t => exists_ t tmp_dir) ;;
  (if stale then fs_call (fun t => Ok (rmtree tmp_dir t)) else ret tt) ;;;
  _safe_makedirs tmp_dir ;;;
  let state_path := path_join tmp_dir STATE_FILE in
  let meta_path := path_join tmp_dir META_FILE in
  fs_call (write_file state_path (Torch state)) ;;;
  now <- time_time e ;;
  _atomic_write meta_path (MetaJson (mkMeta step loss now (get_rank e))).

(** [save], the writer's part from the rename on. *)
Definition save_commit (e : env) (self : NodeStateHandler)
    (step : Z) (loss : option Q) : M Fs.path :=
  let ckpt_dir := checkpoint_dir self step in
  let tmp_dir := add_suffix ckpt_dir ".tmp" in
  fs_call (replace tmp_dir ckpt_dir) ;;;
  now <- time_time e ;;
  _record_checkpoint self (mkInfo step ckpt_dir loss now true) ;;;
  barrier ;;;
  ret ckpt_dir.

(** [save]. The empty path stands for the empty string a process that
    does not write returns. *)
Definition save (e : env) (self : NodeStateHandler)
    (step : Z) (state : state_dict) (loss : option Q) (is_main : option bool)
  : M Fs.path :=
  let should_write :=
    match is_main with Some b => b | None => is_main_process e end in
  if negb should_write then
    barrier ;;;
    ret []
  else
    save_write_tmp e self step state loss ;;;
    save_commit e self step loss.

Definition list_checkpoints (self : NodeStateHandler) : M (list CheckpointInfo) :=
  m <- _load_manifest self ;;
  ret (map (fun c => mkInfo (e_step c) (e_path c) (e_loss c) (e_timestamp c) (e_ok c))
           (checkpoints m)).

(** [_is_valid_checkpoint]; [and] and [or] stop at the first operand
    that decides, so the directory is only listed when the operands
    before it ask for that. *)
Definition _is_valid_checkpoint (t : tree) (p : Fs.path) : result bool :=
  let has_state := isfile t (path_join p STATE_FILE) in
  let has_meta := isfile t (path_join p META_FILE) in
  if negb (exists_ t p) then Ok false
  else if negb has_meta then Ok false
  else if has_state then Ok true
  else match listdir t p with
       | Ok names => Ok (0 <? length names)%nat
       | Raise e => Raise e
       end.

(** [_scan_checkpoint_dirs]. *)
Definition _scan_checkpoint_dirs (self : NodeStateHandler) (t : tree)
  : result (list (Z * Fs.path)) :=
  match listdir t (root_dir self) with
  | Raise e => Raise e
  | Ok names =>
      let candidates :=
        flat_map (fun name =>
                    match match_step name with
                    | Some step => [(step, path_join (root_dir self) name)]
                    | None => []
                    end) names in
      Ok (sort_desc candidates)
  end.

(** The [for step, path in candidates] loop of [latest_checkpoint]. *)
Fixpoint first_valid (t : tree) (candidates : list (Z * Fs.path))
  : result (option CheckpointInfo) :=
  match candidates with
  | [] => Ok None
  | (step, p) :: rest =>
      match _is_valid_checkpoint t p with
      | Raise e => Raise e
      | Ok true => Ok (Some (CheckpointInfo_at step p))
      | Ok false => first_valid t rest
      end
  end.

(** [latest_checkpoint], first half: the manifest's pointer, checked
    against the disk. [None] means: go on to the scan. *)
Definition latest_from_manifest (self : NodeStateHandler) (m : manifest) (t : tree)
  : result (option CheckpointInfo) :=
  match latest m with
  | Some l =>
      let p := checkpoint_dir self l in
      match _is_valid_checkpoint t p with
      | Raise e => Raise e
      | Ok true => Ok (Some (CheckpointInfo_at l p))
      | Ok false => Ok None
      end
  | None => Ok None
  end.

(** [latest_checkpoint], second half: the scan of the root directory. *)
Definition latest_from_scan (self : NodeStateHandler) (t : tree)
  : result (option CheckpointInfo) :=
  match _scan_checkpoint_dirs self t with
  | Raise e => Raise e
  | Ok candidates => first_valid t candidates
  end.

Definition latest_checkpoint (self : NodeStateHandler) : M (option CheckpointInfo) :=
  m <- _load_manifest self ;;
  fast <- fs_try (latest_from_manifest self m) ;;
  match fast with
  | Some info => ret (Some info)
  | None => fs_try (latest_from_scan self)
  end.

(** [load]: [torch.load] of the state file under [p]. *)
Definition load (p : Fs.path) : M state_dict :=
  fs_try (fun t =>
    match lookup (path_join p STATE_FILE) t with
    | Some (File (Torch st)) => Ok st
    | Some (File _) => Raise UnpicklingError
    | Some (Dir _) => Raise IsADirectoryError
    | None => Raise FileNotFoundError
    end).

(** The loop body of [validate_all]. *)
Fixpoint validate_each (t : tree) (candidates : list (Z * Fs.path))
  : result (list (Fs.path * bool * option string)) :=
  match candidates with
  | [] => Ok []
  | (_, p) :: rest =>
      match _is_valid_checkpoint t p with
      | Raise e => Raise e
      | Ok good =>
          match validate_each t rest with
          | Raise e => Raise e
          | Ok results =>
              Ok ((p, good, if good then None else Some "missing files") :: results)
          end
      end
  end.

Definition validate_all (self : NodeStateHandler)
  : M (list (Fs.path * bool * option string)) :=
  fs_try (fun t =>
    match _scan_checkpoint_dirs self t with
    | Raise e => Raise e
    | Ok candidates => validate_each t candidates
    end).

Definition record_external (e : env) (self : NodeStateHandler)
    (step : Z) (p : Fs.path) (loss : option Q) : M unit :=
  _safe_makedirs p ;;;
  let meta_path := path_join p META_FILE in
  now <- time_time e ;;
  _atomic_write meta_path (MetaJson (mkMeta step loss now (get_rank e))) ;;;
  now' <- time_time e ;;
  _record_checkpoint self (mkInfo step p loss now' true).

(** [{**c, "ok": False} if int(c.get("step", -1)) == latest.step else c]. *)
Definition mark_bad (bad_step : Z) (c : entry) : entry :=
  if e_step c =? bad_step
  then mkEntry (e_step c) (e_path c) (e_loss c) (e_timestamp c) false
  else c.

(** [load_latest_checkpoint(manager)]: every failure of [load] is an
    [Exception] and is caught. *)
Definition load_latest_checkpoint (manager : NodeStateHandler)
  : M (option (CheckpointInfo * state_dict)) :=
  found <- latest_checkpoint manager ;;
  match found with
  | None => ret None
  | Some info =>
      fun s =>
        match load (path info) s with
        | (Ok state, s') => (Ok (Some (info, state)), s')
        | (Raise _, s') =>
            (m <- _load_manifest manager ;;
             _write_manifest manager
               (mkManifest (latest m) (map (mark_bad (step info)) (checkpoints m))) ;;;
             ret None) s'
        end
  end.

(** ** Vocabulary of the proofs about names and directories *)

(** A digit of ASCII. *)
Definition is_digit (c : ascii) : bool :=
  let n := N_of_ascii c in ((48 <=? n) && (n <=? 57))%N.

(** The number a string of ASCII digits writes, read after [acc]. *)
Fixpoint int_of_digits (acc : Z) (s : string) : Z :=
  match s with
  | EmptyString => acc
  | String c r => int_of_digits (10 * acc + (Z.of_N (N_of_ascii c) - 48)) r
  end.

(** Every character of [s] passes [P]. *)
Fixpoint all_chars (P : ascii -> bool) (s : string) : bool :=
  match s with
  | EmptyString => true
  | String c r => P c && all_chars P r
  end.

(** Reading a string of digits back, for the proofs below. *)
Definition parse_digits (s : string) : option N :=
  option_map N.of_uint (NilEmpty.uint_of_string s).

Definition sign_or_digit (c : ascii) : bool := Ascii.eqb c "-" || is_digit c.

(** The manifest a root directory with entries [es] stands for: the
    empty one when no manifest file is there. *)
Definition manifest_at (es : list (string * tree)) (m : manifest) : Prop :=
  (assoc MANIFEST es = None /\ m = mkManifest None []) \/
  assoc MANIFEST es = Some (File (ManifestJson m)).

(** The directory [save] leaves for one step. *)
Definition step_dir (e : env) (st : Z) (state : state_dict) (loss : option Q) (now : Q)
  : tree :=
  Dir [ (STATE_FILE, File (Torch state));
        (META_FILE, File (MetaJson (mkMeta st loss now (get_rank e)))) ].

(** ** A sequence of saves *)

Definition step_of (a : Z * state_dict * option Q) : Z := fst (fst a).

(** One [save] after the other, by the same process. *)
Fixpoint save_all (e : env) (self : NodeStateHandler) (is_main : option bool)
    (saves : list (Z * state_dict * option Q)) : M unit :=
  match saves with
  | [] => ret tt
  | (st, state, loss) :: rest =>
      save e self st state loss is_main ;;;
      save_all e self is_main rest
  end.

(** What a manifest record says apart from its time. *)
Definition entry_key (c : entry) : Z * Fs.path * option Q * bool :=
  (e_step c, e_path c, e_loss c, e_ok c).

(** What the record of a successful [save] says. *)
Definition saved_key (self : NodeStateHandler) (a : Z * state_dict * option Q)
  : Z * Fs.path * option Q * bool :=
  (step_of a, checkpoint_dir self (step_of a), snd a, true).

(** The root directory after the saves [done]: it holds the manifest and
    one directory per saved step, nothing else; the manifest lists the
    last twenty saves and points at the last one. *)
Definition root_holds (e : env) (self : NodeStateHandler)
    (done : list (Z * state_dict * option Q))
    (es : list (string * tree)) (m : manifest) : Prop :=
  (forall k v, assoc k es = Some v ->
     k = MANIFEST \/ exists a, In a done /\ k = step_name (step_of a)) /\
  (forall st state loss, In (st, state, loss) done ->
     exists now, assoc (step_name st) es = Some (step_dir e st state loss now)) /\
  manifest_at es m /\
  map entry_key (checkpoints m) = last_20 (map (saved_key self) done) /\
  latest m = match rev done with a :: _ => Some (step_of a) | [] => None end.

Definition world_holds (e : env) (self : NodeStateHandler)
    (done : list (Z * state_dict * option Q)) (s : sys) : Prop :=
  exists es m,
    lookup (root_dir self) (disk s) = Some (Dir es) /\ root_holds e self done es m.

(** ** Worlds to run the handler in *)

(** The writer's surroundings: rank 0, a clock that counts seconds. *)
Definition leader_env : env := mkEnv true 0 (fun n => inject_Z (Z.of_nat n)).

Definition ckpt_handler : NodeStateHandler := mkHandler ["ckpt"].

(** The disk right after [NodeStateHandler("ckpt")] on an empty tree. *)
Definition fresh_sys : sys := mkSys (Dir [("ckpt", Dir [])]) 0 0.

Definition weights : state_dict := [("w", 1)].

(** The disk a writer leaves when it dies in [save(step=7, ...)] after
    the metadata file is written and before the directory is renamed. *)
Definition crashed_sys : sys :=
  snd (save_write_tmp leader_env ckpt_handler 7 weights None fresh_sys).

(** A tree whose one checkpoint directory holds a metadata file and
    nothing else. *)
Definition meta_only_tree : tree :=
  Dir [("ckpt",
        Dir [("step_00000005",
              Dir [("meta.json", File (MetaJson (mkMeta 5 None 0 0)))])])].

(** The world after [record_external(5, "ckpt/step_00000005")] on the
    fresh root: the directory holds the metadata file only. *)
Definition external_sys : sys :=
  snd (record_external leader_env ckpt_handler 5
         (checkpoint_dir ckpt_handler 5) None fresh_sys).

(** The world after [save(5, ...)] followed by
    [record_external(5, "ext/ds_5", 0.5)]. *)
Definition saved_then_external_sys : sys :=
  snd (record_external leader_env ckpt_handler 5 ["ext"; "ds_5"] (Some (1 # 2))
         (snd (save leader_env ckpt_handler 5 weights (Some (42 # 100)) None fresh_sys))).

(** The pointer of a manifest names a record marked good. *)
Definition latest_is_valid (m : manifest) : Prop :=
  match latest m with
  | Some l => exists c, In c (checkpoints m) /\ e_step c = l /\ e_ok c = true
  | None => True
  end.

(** Twenty-five saves, steps 1 to 25. *)
Definition twenty_five_saves : list (Z * state_dict * option Q) :=
  map (fun i => (Z.of_nat i, weights, None)) (seq 1 25).


End State.

(* ===================================================================== *)
(** * [orchestrator/nodes.py] *)
(* ===================================================================== *)

Module Nodes.
Import PyStr Py Recovery State.
Local Open Scope list_scope.

(** [@dataclass class LaunchConfig]; the three retry fields carry a
    prefix to keep them apart from those of [RetryPolicy]. *)
Record LaunchConfig : Set := mkLaunch {
  num_nodes : Z;
  gpus_per_node : Z;
  node_rank : Z;
  master_addr : string;
  master_port : Z;
  cfg_max_retries : Z;
  cfg_base_backoff : Q;
  cfg_max_backoff : Q;
  backend : option string
}.

(** The dataclass defaults. *)
Definition default_launch : LaunchConfig :=
  mkLaunch 1 1 0 "127.0.0.1" 29500 3 (10 # 1) (300 # 1) None.

(** The [world_size] property. *)
Definition world_size (self : LaunchConfig) : Z :=
  num_nodes self * gpus_per_node self.

(** [str(n)] for an [int]. *)
Definition str_int (n : Z) : string :=
  if n <? 0 then ("-" ++ digits (Z.abs_N n))%string else digits (Z.abs_N n).

(** [int(s)] on a string of digits, with or without a minus sign: what a
    worker does to read a number back from its environment. *)
Definition int_digits (s : string) : option Z :=
  match s with
  | EmptyString => None
  | _ => if all_chars is_digit s then option_map Z.of_N (parse_digits s) else None
  end.

Definition int_str (s : string) : option Z :=
  match s with
  | String "-" r => option_map Z.opp (int_digits r)
  | _ => int_digits s
  end.

(** [os.environ]: the variables that are set, with their values. *)
Definition environ : Type := string -> option string.

(** [os.environ[k] = v]. *)
Definition setenv (k v : string) (env : environ) : environ :=
  fun k' => if String.eqb k' k then Some v else env k'.

(** [worker_kwargs]. *)
Definition kwargs : Set := list (string * Z).

Section Workers.

(** What the job's entry point acts on besides the environment. *)
Variable W : Type.

(** A process of the job: its environment, the device it is bound to,
    the job's own state. *)
Record wproc : Type := mkWproc {
  os_environ : environ;
  cuda_device : option Z;
  job : W
}.

(** [torch.cuda.is_available()]. *)
Variable cuda_is_available : bool.

(** [global_rank] of [_wrap_worker]. *)
Definition global_rank (config : LaunchConfig) (local_rank : Z) : Z :=
  node_rank config * gpus_per_node config + local_rank.

(** [_wrap_worker], up to the call of the entry point. *)
Definition export_topology (local_rank : Z) (config : LaunchConfig) (s : wproc) : wproc :=
  let env := os_environ s in
  let env := setenv "RANK" (str_int (global_rank config local_rank)) env in
  let env := setenv "WORLD_SIZE" (str_int (world_size config)) env in
  let env := setenv "LOCAL_RANK" (str_int local_rank) env in
  let env := setenv "LOCAL_WORLD_SIZE" (str_int (gpus_per_node config)) env in
  let env := setenv "MASTER_ADDR" (master_addr config) env in
  let env := setenv "MASTER_PORT" (str_int (master_port config)) env in
  let env :=
    match backend config with
    | Some (String c r) => setenv "TORCH_BACKEND" (String c r) env
    | Some EmptyString | None => env
    end in
  mkWproc env
          (if cuda_is_available then Some local_rank else cuda_device s)
          (job s).

(** [_wrap_worker]. *)
Definition _wrap_worker (local_rank : Z)
    (entrypoint : Z -> kwargs -> wproc -> wproc * option BaseException)
    (config : LaunchConfig) (worker_kwargs : kwargs)
    (s : wproc) : wproc * option BaseException :=
  entrypoint local_rank worker_kwargs (export_topology local_rank config s).

End Workers.

Arguments mkWproc {W} _ _ _.
Arguments os_environ {W} _.
Arguments cuda_device {W} _.
Arguments job {W} _.
Arguments export_topology {W} _ _ _ _.
Arguments _wrap_worker {W} _ _ _ _ _ _.

(** A node of a two-node job with four units each. *)
Definition two_by_four : LaunchConfig :=
  mkLaunch 2 4 1 "10.0.0.1" 29500 3 (10 # 1) (300 # 1) (Some "nccl").

(** A process with nothing set. *)
Definition bare_wproc : wproc unit := mkWproc (fun _ => None) None tt.

End Nodes.

(* ===================================================================== *)
(** * Properties: strings *)
(* ===================================================================== *)

Import PyStr.

Lemma lower_ascii_idem c : lower_ascii (lower_ascii c) = lower_ascii c.
Proof.
  destruct c as [[] [] [] [] [] [] [] []]; reflexivity.
Qed.

Lemma lower_app s t : lower (s ++ t) = lower s ++ lower t.
Proof.
  induction s as [|c s IH]; simpl; [reflexivity | now rewrite IH].
Qed.

Lemma lower_length s : String.length (lower s) = String.length s.
Proof.
  induction s as [|c s IH]; simpl; [reflexivity | now rewrite IH].
Qed.

Lemma startswith_iff s t : startswith s t = true <-> exists r, t = s ++ r.
Proof.
  revert t; induction s as [|a s IH]; intros t; simpl.
  - split; [intros _; now exists t | reflexivity].
  - destruct t as [|b t].
    + split; [discriminate | intros [r Hr]; discriminate].
    + rewrite andb_true_iff, Ascii.eqb_eq, IH. split.
      * intros [-> [r ->]]. now exists r.
      * intros [r Hr]. injection Hr as -> ->. split; [reflexivity | now exists r].
Qed.

Lemma str_in_iff s t : str_in s t = true <-> exists pre suf, t = pre ++ s ++ suf.
Proof.
  induction t as [|b t IH]; simpl; rewrite orb_true_iff, startswith_iff.
  - split.
    + intros [[r Hr] | Hf]; [now exists EmptyString, r | discriminate].
    + intros [pre [suf H]]. left. destruct pre; simpl in H.
      * now exists suf.
      * discriminate.
  - rewrite IH. split.
    + intros [[r Hr] | [pre [suf H]]].
      * now exists EmptyString, r.
      * exists (String b pre), suf. simpl. now rewrite H.
    + intros [pre [suf H]]. destruct pre as [|c pre]; simpl in H.
      * left. now exists suf.
      * right. injection H as _ ->. now exists pre, suf.
Qed.

(** Splitting a lowered string splits the original at the same offsets. *)
Lemma lower_eq_app t a b :
  lower t = a ++ b ->
  exists ta tb, t = ta ++ tb /\ lower ta = a /\ lower tb = b.
Proof.
  revert t; induction a as [|c a IH]; intros t H; simpl in H.
  - exists EmptyString, t. auto.
  - destruct t as [|d t]; simpl in H; [discriminate|].
    injection H as Hc Ht. destruct (IH _ Ht) as [ta [tb [-> [Ha Hb]]]].
    exists (String d ta), tb. simpl. now rewrite Hc, Ha.
Qed.

(** [lower_ascii] leaves a character alone or takes a letter to its
    lower form. *)
Lemma lower_ascii_cases c :
  lower_ascii c = c \/ In (c, lower_ascii c) letter_pairs.
Proof.
  destruct c as [[] [] [] [] [] [] [] []];
    first [left; reflexivity | right; vm_compute; tauto].
Qed.

(** The two forms of a letter have the same lower form: the second. *)
Lemma letter_pairs_lower a b :
  In (a, b) letter_pairs -> lower_ascii a = b /\ lower_ascii b = b.
Proof.
  unfold letter_pairs. simpl.
  intros H; repeat (destruct H as [H | H]; [injection H as <- <-; split; reflexivity|]).
  destruct H.
Qed.

(** Differing at most in letter case is having the same lower form. *)
Lemma same_letter_lower a b : same_letter a b <-> lower_ascii a = lower_ascii b.
Proof.
  split.
  - intros [-> | [H | H]]; [reflexivity | |];
      destruct (letter_pairs_lower _ _ H) as [H1 H2]; congruence.
  - intros E. unfold same_letter.
    destruct (lower_ascii_cases a) as [Ha | Ha], (lower_ascii_cases b) as [Hb | Hb].
    + left. congruence.
    + right. right. rewrite <- E, Ha in Hb. exact Hb.
    + right. left. rewrite E, Hb in Ha. exact Ha.
    + left. rewrite E in Ha. revert Ha Hb. generalize (lower_ascii b) as l.
      intros l Ha Hb. unfold letter_pairs in Ha, Hb. simpl in Ha, Hb.
      repeat (destruct Ha as [Ha | Ha];
              [injection Ha as <- <-;
               repeat (destruct Hb as [Hb | Hb];
                       [first [discriminate Hb | now injection Hb as <-]|]);
               destruct Hb|]).
      destruct Ha.
Qed.

Lemma same_text_lower s t : same_text s t <-> lower s = lower t.
Proof.
  revert t; induction s as [|a s IH]; intros [|b t]; simpl;
    try (split; [intros [] | discriminate]); [tauto|].
  rewrite same_letter_lower, IH. split.
  - intros [-> ->]. reflexivity.
  - intros H. injection H as H1 H2. auto.
Qed.

(** For a pattern that is already lower case, Python's test
    [s in t.lower()] is the case-insensitive occurrence of [s] in [t]. *)
Lemma str_in_lower_iff s t :
  lower s = s -> (str_in s (lower t) = true <-> occurs_ci s t).
Proof.
  intros Hs. rewrite str_in_iff. split.
  - intros [pre [suf H]].
    destruct (lower_eq_app _ _ _ H) as [ta [tb [-> [Ha Hb]]]].
    destruct (lower_eq_app _ _ _ Hb) as [tm [ts [-> [Hm Hsuf]]]].
    exists ta, tm, ts. split; [reflexivity|].
    apply same_text_lower. now rewrite Hs.
  - intros [pre [mid [suf [-> Hm]]]].
    apply same_text_lower in Hm.
    exists (lower pre), (lower suf).
    now rewrite !lower_app, Hm, Hs.
Qed.

(* ===================================================================== *)
(** * Properties: fault classifier and retry policy *)
(* ===================================================================== *)

Import Py Recovery.

Lemma scan_signatures_retriable sigs text :
  scan_signatures sigs text = RETRIABLE <->
  exists sig, In sig sigs /\ str_in sig text = true.
Proof.
  induction sigs as [|sig rest IH]; simpl.
  - split; [discriminate | intros [sig [[] _]]].
  - destruct (str_in sig text) eqn:E.
    + split; [intros _; exists sig; auto | reflexivity].
    + rewrite IH. split.
      * intros [s [Hin Hs]]. exists s; auto.
      * intros [s [[<- | Hin] Hs]]; [congruence | exists s; auto].
Qed.

Lemma scan_signatures_cases sigs text :
  scan_signatures sigs text = RETRIABLE \/ scan_signatures sigs text = NON_RETRIABLE.
Proof. destruct (scan_signatures sigs text); auto. Qed.

(** Every signature of the fixed list is written in lower case. *)
Lemma signatures_lower sig : In sig RETRIABLE_SIGNATURES -> lower sig = sig.
Proof.
  unfold RETRIABLE_SIGNATURES; simpl.
  intros H; repeat (destruct H as [<- | H]; [reflexivity|]); destruct H.
Qed.

(** C6. [classify_fault] is a function of the failure's text alone: the
    fault is Retriable exactly when some signature of the fixed list
    occurs in the text up to letter case, NonRetriable exactly when none
    does, and two failures with the same text get the same class. *)
Theorem classify_fault_spec (exc : BaseException) :
  (classify_fault exc = RETRIABLE <->
     exists sig, In sig RETRIABLE_SIGNATURES /\ occurs_ci sig (exc_str exc)) /\
  (classify_fault exc = NON_RETRIABLE <->
     forall sig, In sig RETRIABLE_SIGNATURES -> ~ occurs_ci sig (exc_str exc)) /\
  (forall exc', exc_str exc' = exc_str exc -> classify_fault exc' = classify_fault exc).
Proof.
  assert (R : classify_fault exc = RETRIABLE <->
     exists sig, In sig RETRIABLE_SIGNATURES /\ occurs_ci sig (exc_str exc)).
  { unfold classify_fault. rewrite scan_signatures_retriable.
    split; intros [sig [Hin H]]; exists sig; split; auto;
      apply (str_in_lower_iff _ _ (signatures_lower _ Hin)); exact H. }
  split; [exact R|]. split.
  - split.
    + intros HN sig Hin Hocc.
      assert (classify_fault exc = RETRIABLE) by (apply R; eauto). congruence.
    + intros Hnone.
      destruct (scan_signatures_cases RETRIABLE_SIGNATURES (lower (exc_str exc)))
        as [E | E]; [|exact E].
      apply R in E. destruct E as [sig [Hin Hocc]]. now destruct (Hnone sig Hin).
  - intros exc' Heq. unfold classify_fault. now rewrite Heq.
Qed.

(** The signature ["timeout"] occurs in ["TimeOut on rank 3"] up to
    letter case. *)
Example timeout_occurs_ci : occurs_ci "timeout" "TimeOut on rank 3".
Proof.
  exists EmptyString, "TimeOut", " on rank 3". split; [reflexivity|].
  simpl; repeat split;
    first [left; reflexivity
          | right; left; simpl; repeat (first [left; reflexivity | right])].
Qed.

Example classify_timeout :
  classify_fault (mkExc "RuntimeError" "Timeout while waiting") = RETRIABLE.
Proof. reflexivity. Qed.

Example classify_connection_reset :
  classify_fault (mkExc "OSError" "CONNECTION RESET by peer") = RETRIABLE.
Proof. reflexivity. Qed.

Example classify_value_error :
  classify_fault (mkExc "ValueError" "shape mismatch") = NON_RETRIABLE.
Proof. reflexivity. Qed.

Local Open Scope Q_scope.

(** Python's [min] on two numbers is the smaller one. *)
Lemma py_min_Qmin a b : py_min a b == Qmin a b.
Proof.
  unfold py_min. destruct (Qlt_le_dec b a) as [H | H].
  - symmetry. apply Q.min_r. now apply Qlt_le_weak.
  - symmetry. now apply Q.min_l.
Qed.

Lemma py_min_le_l a b : py_min a b <= a.
Proof. rewrite py_min_Qmin. apply Q.le_min_l. Qed.

Lemma py_min_nonneg a b : 0 <= a -> 0 <= b -> 0 <= py_min a b.
Proof. intros Ha Hb. unfold py_min. now destruct (Qlt_le_dec b a). Qed.

Lemma Qpower_two (n : Z) : (0 <= n)%Z -> Qpower (2 # 1) n == inject_Z (2 ^ n).
Proof.
  intros Hn. rewrite (Zpower_Qpower 2 n Hn). reflexivity.
Qed.

(** Below attempt 1024 the delay is computed. *)
Lemma backoff_for_below p (attempt : Z) :
  (attempt < 1024)%Z ->
  backoff_for p attempt
  = Ok (py_min (max_backoff p) (base_backoff p * Qpower (2 # 1) attempt)).
Proof.
  intros H. unfold backoff_for.
  destruct (Z.leb_spec 1024 attempt); [lia | reflexivity].
Qed.

(** From attempt 1024 on the power of two does not convert. *)
Lemma backoff_for_overflow p (attempt : Z) :
  (1024 <= attempt)%Z -> backoff_for p attempt = Raise OverflowError.
Proof.
  intros H. unfold backoff_for.
  destruct (Z.leb_spec 1024 attempt); [reflexivity | lia].
Qed.

(** What [backoff_for] raises is that overflow. *)
Lemma backoff_for_raises p (attempt : Z) e :
  backoff_for p attempt = Raise e -> e = OverflowError /\ (1024 <= attempt)%Z.
Proof.
  unfold backoff_for. destruct (Z.leb_spec 1024 attempt); [|discriminate].
  intros E; injection E as <-. auto.
Qed.

Lemma backoff_for_eq p (attempt : Z) d :
  (0 <= attempt)%Z -> backoff_for p attempt = Ok d -> d == spec_backoff p attempt.
Proof.
  intros Ha. unfold backoff_for, spec_backoff.
  destruct (1024 <=? attempt)%Z; [discriminate|].
  intros E; injection E as <-.
  rewrite py_min_Qmin, (Qpower_two _ Ha). reflexivity.
Qed.

(** A delay that is computed is no more than the cap, and not negative
    when neither the base nor the cap is. *)
Lemma backoff_for_range p (attempt : Z) d :
  backoff_for p attempt = Ok d ->
  d <= max_backoff p /\
  (0 <= base_backoff p -> 0 <= max_backoff p -> 0 <= d).
Proof.
  unfold backoff_for. destruct (1024 <=? attempt)%Z; [discriminate|].
  intros E; injection E as <-. split; [apply py_min_le_l|].
  intros Hb Hm. apply py_min_nonneg; [exact Hm|].
  apply Qmult_le_0_compat; [exact Hb|].
  apply Qpower_pos. discriminate.
Qed.

Lemma spec_backoff_mono p (a b : Z) :
  0 < base_backoff p -> (0 <= a <= b)%Z -> spec_backoff p a <= spec_backoff p b.
Proof.
  intros Hb Hab. unfold spec_backoff.
  apply Q.min_le_compat_l.
  apply Qmult_le_l; [exact Hb|].
  rewrite <- Zle_Qle. apply Z.pow_le_mono_r; lia.
Qed.

(** C7, where the code departs from it. Under the policy's stated
    constraints the delay of an attempt from 0 to 1023 is
    [min(max_backoff, base_backoff * 2^attempt)], no more than
    [max_backoff] and no more than any later delay that is computed; from
    attempt 1024 on no delay is computed: the call raises
    [OverflowError]. *)
Theorem backoff_for_spec (p : RetryPolicy) (attempt : Z) :
  (0 <= max_retries p)%Z ->
  0 < base_backoff p ->
  base_backoff p <= max_backoff p ->
  (0 <= attempt)%Z ->
  ((attempt < 1024)%Z ->
     exists d, backoff_for p attempt = Ok d /\
               d == spec_backoff p attempt /\
               d <= max_backoff p /\
               (forall (later : Z) d', (attempt <= later)%Z ->
                  backoff_for p later = Ok d' -> d <= d')) /\
  ((1024 <= attempt)%Z -> backoff_for p attempt = Raise OverflowError).
Proof.
  intros _ Hbase Hcap Ha. split.
  - intros Hlt. eexists. split; [apply (backoff_for_below _ _ Hlt)|].
    pose proof (backoff_for_eq p attempt _ Ha (backoff_for_below _ _ Hlt)) as E.
    split; [exact E|]. split; [apply py_min_le_l|].
    intros later d' Hl E'.
    rewrite E, (backoff_for_eq p later d' ltac:(lia) E').
    apply spec_backoff_mono; [exact Hbase | lia].
  - apply backoff_for_overflow.
Qed.

Lemma backoff_for_spec_witness :
  backoff_for default_policy 1024%Z = Raise OverflowError.
Proof.
  apply (backoff_for_spec default_policy 1024%Z); try lia;
    unfold Qlt, Qle; simpl; lia.
Defined.

(** What the specification has for the same attempt: the cap. *)
Example spec_backoff_1024 : spec_backoff default_policy 1024%Z == 300 # 1.
Proof. vm_compute. reflexivity. Qed.

Example backoff_schedule :
  map (backoff_for default_policy) [0; 1; 2; 3; 4; 5; 6; 1023; 1024]%Z
  = [Ok (10 # 1); Ok (20 # 1); Ok (40 # 1); Ok (80 # 1); Ok (160 # 1);
     Ok (300 # 1); Ok (300 # 1); Ok (300 # 1); Raise OverflowError].
Proof. vm_compute. reflexivity. Qed.

Local Open Scope Z_scope.

(* ===================================================================== *)
(** * Properties: retry supervisor *)
(* ===================================================================== *)

Section SupervisorFacts.

Variable W : Type.
Variable fn : proc W -> proc W * option BaseException.
Variable time_sleep : Q -> proc W -> proc W * option BaseException.
Variable p : RetryPolicy.

(** One turn of the loop, as the source reads. *)
Lemma retry_loop_unfold (attempt : Z) (s : proc W) :
  retry_loop fn time_sleep p attempt s =
  match fn s with
  | (s1, None) => (s1, [EvCall], Returned)
  | (s1, Some exc) =>
      match classify_fault exc with
      | RETRIABLE =>
          if Z_lt_dec attempt (max_retries p) then
            match backoff_for p attempt with
            | Raise e => (s1, [EvCall], Raised e)
            | Ok delay =>
                match time_sleep delay s1 with
                | (s2, Some e) =>
                    (s2, [EvCall; EvLogRetry exc delay (attempt + 1)], Raised e)
                | (s2, None) =>
                    let '(s3, evs, out) :=
                      retry_loop fn time_sleep p (attempt + 1) s2 in
                    (s3,
                     EvCall :: EvLogRetry exc delay (attempt + 1) :: EvSleep delay :: evs,
                     out)
                end
            end
          else (s1, [EvCall; EvLogFatal exc], Raised exc)
      | NON_RETRIABLE => (s1, [EvCall; EvLogFatal exc], Raised exc)
      end
  end.
Proof.
  simp retry_loop.
  destruct (fn s) as [s1 [exc|]]; simp retry_loop; [|reflexivity].
  destruct (classify_fault exc); simp retry_loop; [|reflexivity].
  destruct (Z_lt_dec attempt (max_retries p)); simp retry_loop; [|reflexivity].
  destruct (backoff_for p attempt) as [delay|e]; simp retry_loop; [|reflexivity].
  destruct (time_sleep delay s1) as [s2 [e|]]; simp retry_loop; reflexivity.
Qed.

(** Case analysis along one turn: what the call did, how the failure is
    classified, whether a retry is left, whether the delay is computed,
    whether the sleep returns. *)
Ltac turn_cases :=
  repeat match goal with
  | |- context [fn ?s] => destruct (fn s) as [? [?|]] eqn:?
  | |- context [classify_fault ?e] => destruct (classify_fault e) eqn:?
  | |- context [Z_lt_dec ?a ?b] => destruct (Z_lt_dec a b)
  | |- context [backoff_for p ?a] => destruct (backoff_for p a) as [?|?] eqn:?
  | |- context [time_sleep ?d ?s] => destruct (time_sleep d s) as [? [?|]] eqn:?
  end.


(** Every sleep lasts the whole delay of its attempt, and there is one
    sleep between two consecutive calls. *)
Lemma retry_loop_sleeps (attempt : Z) (s : proc W) :
  let '(_, evs, _) := retry_loop fn time_sleep p attempt s in
  (1 <= calls evs)%nat /\
  map Ok (sleeps evs) =
    map (fun i => backoff_for p (attempt + Z.of_nat i)) (seq 0 (calls evs - 1)).
Proof.
  remember (Z.to_nat (max_retries p - attempt)) as n eqn:Hn.
  revert attempt s Hn. induction n as [|n IH]; intros attempt s Hn;
    rewrite (retry_loop_unfold attempt s);
    turn_cases; try (split; [unfold calls; simpl; lia | reflexivity]); try lia.
  match goal with
  | |- context [retry_loop fn time_sleep p ?a ?s1] =>
      specialize (IH a s1); destruct (retry_loop fn time_sleep p a s1) as [[s'' evs] out]
  end.
  destruct IH as [Hc Hs]; [lia|].
  unfold calls in *; simpl. split; [lia|].
  rewrite Hs. rewrite Nat.sub_0_r.
  destruct (length (filter is_call evs)) as [|k]; [lia|].
  simpl. rewrite Z.add_0_r, Nat.sub_0_r. f_equal; [congruence|].
  rewrite <- seq_shift, map_map.
  apply map_ext. intros i. f_equal. lia.
Qed.

(** The work is called once more than the retries allow at most, and
    not once more after the attempt whose delay does not compute. *)
Lemma retry_loop_call_bound (attempt : Z) (s : proc W) :
  let '(_, evs, _) := retry_loop fn time_sleep p attempt s in
  Z.of_nat (calls evs) <= Z.max 0 (max_retries p - attempt) + 1 /\
  (attempt <= 1024 -> Z.of_nat (calls evs) <= 1025 - attempt).
Proof.
  remember (Z.to_nat (max_retries p - attempt)) as n eqn:Hn.
  revert attempt s Hn. induction n as [|n IH]; intros attempt s Hn;
    rewrite (retry_loop_unfold attempt s);
    turn_cases; try (unfold calls; cbn [filter is_call length]; lia); try lia.
  match goal with
  | |- context [retry_loop fn time_sleep p ?a ?s1] =>
      specialize (IH a s1); destruct (retry_loop fn time_sleep p a s1) as [[s'' evs] out]
  end.
  match goal with
  | E : backoff_for p attempt = Ok _ |- _ =>
      assert (Hlt : attempt < 1024)
        by (unfold backoff_for in E; destruct (Z.leb_spec 1024 attempt);
            [discriminate | lia])
  end.
  destruct IH as [Hc Hs]; [lia|].
  unfold calls in *; cbn [filter is_call length]. lia.
Qed.

(** Where a raised outcome comes from: the work, with no retry left for
    it; or the delay that does not compute; or the sleep. *)
Lemma retry_loop_raised (attempt : Z) (s s' : proc W) evs exc :
  retry_loop fn time_sleep p attempt s = (s', evs, Raised exc) ->
  (exists s0 s1, fn s0 = (s1, Some exc) /\
     (classify_fault exc = NON_RETRIABLE \/
      (classify_fault exc = RETRIABLE /\
       max_retries p <= attempt + Z.of_nat (calls evs) - 1))) \/
  (exc = OverflowError /\ attempt + Z.of_nat (calls evs) - 1 = Z.max attempt 1024) \/
  (exists d s0 s1, time_sleep d s0 = (s1, Some exc)).
Proof.
  remember (Z.to_nat (max_retries p - attempt)) as n eqn:Hn.
  revert attempt s s' evs Hn.
  induction n as [|n IH]; intros attempt s s' evs Hn;
    rewrite (retry_loop_unfold attempt s);
    match goal with |- _ -> ?C => set (G := C) end;
    turn_cases; try discriminate; try lia;
    try (intros H; subst G; injection H as _ <- <-;
         unfold calls; cbn [filter is_call length];
         first [ left; do 2 eexists; split; [eassumption|];
                 first [left; assumption | right; split; [assumption | lia]]
               | right; right; do 3 eexists; eassumption
               | right; left;
                 match goal with
                 | E : backoff_for p _ = Raise _ |- _ =>
                     destruct (backoff_for_raises _ _ _ E) as [-> ?]
                 end; split; [reflexivity | lia] ]).
  match goal with
  | |- context [retry_loop fn time_sleep p ?a ?s1] =>
      specialize (IH a s1); destruct (retry_loop fn time_sleep p a s1) as [[s'' evs'] out]
  end.
  match goal with
  | E : backoff_for p attempt = Ok _ |- _ =>
      assert (Hlt : attempt < 1024)
        by (unfold backoff_for in E; destruct (Z.leb_spec 1024 attempt);
            [discriminate | lia])
  end.
  intros H. subst G. injection H as _ <- ->.
  specialize (IH s'' evs' ltac:(lia) eq_refl).
  match goal with
  | |- context [calls (EvCall :: ?l :: ?m :: evs')] =>
      assert (Hc : Z.of_nat (calls (EvCall :: l :: m :: evs')) = Z.of_nat (calls evs') + 1)
        by (unfold calls; cbn [filter is_call length]; lia);
      rewrite Hc
  end.
  destruct IH as [[s0 [s1 [E [C | [C Hm]]]]] | [[-> Ho] | Hsl]].
  - left. exists s0, s1. auto.
  - left. exists s0, s1. split; [exact E|]. right. split; [exact C | lia].
  - right. left. split; [reflexivity | lia].
  - right. right. exact Hsl.
Qed.

(** A turn that retries: the failure is transient, a retry is left, the
    delay is computed and the sleep returns. *)
Lemma retry_loop_retry (attempt : Z) (s s1 s2 : proc W) exc delay :
  fn s = (s1, Some exc) ->
  classify_fault exc = RETRIABLE ->
  attempt < max_retries p ->
  backoff_for p attempt = Ok delay ->
  time_sleep delay s1 = (s2, None) ->
  retry_loop fn time_sleep p attempt s =
  let '(s3, evs, out) := retry_loop fn time_sleep p (attempt + 1) s2 in
  (s3, EvCall :: EvLogRetry exc delay (attempt + 1) :: EvSleep delay :: evs, out).
Proof.
  intros E C Hlt Hd Hs. rewrite (retry_loop_unfold attempt s), E, C, Hd, Hs.
  destruct (Z_lt_dec attempt (max_retries p)); [reflexivity | lia].
Qed.

Lemma before_call_succ (k : nat) (s0 s1 s2 : proc W) exc delay :
  fn (before_call fn time_sleep p k s0) = (s1, Some exc) ->
  backoff_for p (Z.of_nat k) = Ok delay ->
  time_sleep delay s1 = (s2, None) ->
  before_call fn time_sleep p (S k) s0 = s2.
Proof. intros E Hd Hs. simpl. now rewrite E, Hd; simpl; rewrite Hs. Qed.

(** A work that fails with a transient fault at every call, under a
    sleep that returns: it is called until the retries run out or the
    delay no longer computes. *)
Lemma retry_loop_always_retriable (k : nat) (s0 : proc W) :
  (forall s, exists s1 e, fn s = (s1, Some e) /\ classify_fault e = RETRIABLE) ->
  (forall d s, (0 <= d)%Q -> (d <= max_backoff p)%Q -> snd (time_sleep d s) = None) ->
  (0 <= base_backoff p)%Q -> (0 <= max_backoff p)%Q ->
  Z.of_nat k <= Z.min (max_retries p) 1024 ->
  exists s' evs e,
    retry_loop fn time_sleep p (Z.of_nat k) (before_call fn time_sleep p k s0)
      = (s', evs, Raised e) /\
    calls evs = S (Z.to_nat (Z.min (max_retries p) 1024) - k) /\
    (max_retries p <= 1024 ->
       snd (fn (before_call fn time_sleep p (Z.to_nat (max_retries p)) s0)) = Some e) /\
    (1024 < max_retries p -> e = OverflowError).
Proof.
  intros Hfail Hsleep Hbase Hmax.
  remember (Z.to_nat (Z.min (max_retries p) 1024) - k)%nat as n eqn:Hn.
  revert k Hn. induction n as [|n IH]; intros k Hn Hk;
    destruct (Hfail (before_call fn time_sleep p k s0)) as [s1 [e [E C]]].
  - rewrite (retry_loop_unfold (Z.of_nat k)), E, C.
    destruct (Z_lt_dec (Z.of_nat k) (max_retries p)) as [Hlt | Hge].
    + rewrite backoff_for_overflow by lia.
      eexists _, _, _. split; [reflexivity|]. split; [reflexivity|].
      split; [lia | reflexivity].
    + eexists _, _, _. split; [reflexivity|]. split; [reflexivity|].
      split; [|lia]. intros _.
      replace (Z.to_nat (max_retries p)) with k by lia. now rewrite E.
  - assert (Hlt : Z.of_nat k < 1024) by lia.
    pose proof (backoff_for_below p _ Hlt) as Hd.
    destruct (backoff_for_range p _ _ Hd) as [Hle Hpos].
    specialize (Hpos Hbase Hmax).
    set (d := py_min (max_backoff p) (base_backoff p * Qpower (2 # 1) (Z.of_nat k))) in *.
    pose proof (Hsleep d s1 Hpos Hle) as Hs.
    destruct (time_sleep d s1) as [s2 o] eqn:Es. simpl in Hs. subst o.
    assert (Hlt' : Z.of_nat k < max_retries p) by lia.
    rewrite (retry_loop_retry _ _ _ _ _ _ E C Hlt' Hd Es).
    rewrite <- (before_call_succ _ _ _ _ _ _ E Hd Es).
    replace (Z.of_nat k + 1) with (Z.of_nat (S k)) by lia.
    destruct (IH (S k) ltac:(lia) ltac:(lia)) as [s' [evs [e' [R [Hc [H1 H2]]]]]].
    rewrite R. eexists _, _, _. split; [reflexivity|].
    split; [|split; assumption].
    unfold calls in *. cbn [filter is_call length]. rewrite Hc. lia.
Qed.

End SupervisorFacts.

(** On the delays of the examples [quiet_sleep] returns. *)
Lemma quiet_sleep_returns (W : Type) (d : Q) (s : proc W) :
  (0 <= d)%Q -> (d <= 300 # 1)%Q -> quiet_sleep d s = (s, None).
Proof.
  intros H0 H1. unfold quiet_sleep.
  assert (Hlo : Qle_bool (inject_Z (- 2 ^ 63)) (d * inject_Z (10 ^ 9)) = true).
  { apply Qle_bool_iff. apply Qle_trans with 0%Q; [discriminate|].
    apply Qmult_le_0_compat; [exact H0 | discriminate]. }
  assert (Hhi : Qle_bool (inject_Z (2 ^ 63)) (d * inject_Z (10 ^ 9)) = false).
  { destruct (Qle_bool (inject_Z (2 ^ 63)) (d * inject_Z (10 ^ 9))) eqn:E;
      [|reflexivity].
    apply Qle_bool_iff in E. exfalso.
    apply (Qle_not_lt _ _ E).
    apply Qle_lt_trans with ((300 # 1) * inject_Z (10 ^ 9))%Q.
    - apply Qmult_le_compat_r; [exact H1 | discriminate].
    - reflexivity. }
  rewrite Hlo, Hhi. simpl.
  assert (Hp : Qle_bool 0 d = true) by now apply Qle_bool_iff.
  now rewrite Hp.
Qed.

(** C4, where the code departs from it. A work that fails with a
    transient fault at every call, under a policy with [max_retries = r]
    and delays that are not negative, and a sleep that returns: up to
    [r = 1024] the work is called [r + 1] times and the failure of the
    last call reaches the caller; beyond, it is called 1025 times and an
    [OverflowError] reaches the caller in place of the failure. A work
    whose failure is not transient is called once, nothing sleeps, and
    that failure reaches the caller. *)
Theorem run_with_retries_failures
    (W : Type) (fn : proc W -> proc W * option BaseException)
    (time_sleep : Q -> proc W -> proc W * option BaseException)
    (p : RetryPolicy) (s : proc W) :
  0 <= max_retries p ->
  (0 <= base_backoff p)%Q -> (0 <= max_backoff p)%Q ->
  (forall d s0, (0 <= d)%Q -> (d <= max_backoff p)%Q -> snd (time_sleep d s0) = None) ->
  ((forall s0, exists s1 e, fn s0 = (s1, Some e) /\ classify_fault e = RETRIABLE) ->
     exists s' evs e,
       run_with_retries fn time_sleep p s = (s', evs, Raised e) /\
       (max_retries p <= 1024 ->
          calls evs = S (Z.to_nat (max_retries p)) /\
          snd (fn (before_call fn time_sleep p (Z.to_nat (max_retries p)) s)) = Some e) /\
       (1024 < max_retries p ->
          calls evs = 1025%nat /\ e = OverflowError)) /\
  (forall s1 e,
     fn s = (s1, Some e) -> classify_fault e = NON_RETRIABLE ->
     exists evs,
       run_with_retries fn time_sleep p s = (s1, evs, Raised e) /\
       calls evs = 1%nat /\ sleeps evs = []).
Proof.
  intros Hr Hbase Hmax Hsleep. split.
  - intros Hfail.
    destruct (retry_loop_always_retriable W fn time_sleep p 0 s Hfail Hsleep Hbase Hmax
                ltac:(lia)) as [s' [evs [e [R [Hc [H1 H2]]]]]].
    exists s', evs, e. split; [exact R|]. split.
    + intros Hle. split; [|now apply H1].
      rewrite Hc. rewrite Z.min_l by lia. lia.
    + intros Hgt. split; [|now apply H2].
      rewrite Hc. rewrite Z.min_r by lia. reflexivity.
  - intros s1 e E C. unfold run_with_retries.
    rewrite retry_loop_unfold, E, C. eexists. repeat split.
Qed.

Lemma run_with_retries_failures_witness :
  exists s' evs,
    run_with_retries always_timeout quiet_sleep eager_policy (mkProc tt new_terminator)
      = (s', evs, Raised OverflowError) /\
    calls evs = 1025%nat.
Proof.
  destruct (run_with_retries_failures unit always_timeout quiet_sleep eager_policy
              (mkProc tt new_terminator)) as [H _].
  - simpl; lia.
  - unfold Qle; simpl; lia.
  - unfold Qle; simpl; lia.
  - intros d s0 H0 H1. rewrite quiet_sleep_returns; [reflexivity | exact H0 |].
    apply (Qle_trans _ _ _ H1). unfold Qle; simpl; lia.
  - destruct H as [s' [evs [e [R [_ H]]]]].
    + intros s0. exists s0, nccl_timeout. split; reflexivity.
    + destruct H as [Hc ->]; [simpl; lia|].
      exists s', evs. split; [exact R | exact Hc].
Defined.

Example run_with_retries_exhausted :
  run_with_retries always_timeout quiet_sleep default_policy (mkProc tt new_terminator) =
  (mkProc tt new_terminator,
   [ EvCall; EvLogRetry nccl_timeout (10 # 1) 1; EvSleep (10 # 1);
     EvCall; EvLogRetry nccl_timeout (20 # 1) 2; EvSleep (20 # 1);
     EvCall; EvLogRetry nccl_timeout (40 # 1) 3; EvSleep (40 # 1);
     EvCall; EvLogFatal nccl_timeout ],
   Raised nccl_timeout).
Proof. reflexivity. Qed.

(** A negative delay: the sleep refuses it, and its [ValueError]
    reaches the caller after one call of the work. *)
Example run_with_retries_negative_delay :
  run_with_retries always_timeout quiet_sleep (mkPolicy 3 (-1 # 1) (300 # 1))
    (mkProc tt new_terminator) =
  (mkProc tt new_terminator,
   [ EvCall; EvLogRetry nccl_timeout (-1 # 1) 1 ],
   Raised NegativeSleep).
Proof. reflexivity. Qed.




(* ===================================================================== *)
(** * Properties: file system *)
(* ===================================================================== *)

Import Py Fs State.
Local Open Scope list_scope.

Section TreeFacts.

Variable C : Type.
Implicit Types (t c : node C) (es : list (string * node C)) (p q : Fs.path).

Lemma lookup_app p q t :
  lookup (p ++ q) t =
  match lookup p t with
  | Some c => lookup q c
  | None => None
  end.
Proof.
  revert t; induction p as [|n p IH]; intros t; simpl; [reflexivity|].
  destruct t as [c | es]; [reflexivity|].
  destruct (assoc n es); [apply IH | reflexivity].
Qed.

Lemma assoc_some_in n es v : assoc n es = Some v -> In n (map fst es).
Proof.
  induction es as [|[m w] r IH]; simpl; [discriminate|].
  destruct (String.eqb n m) eqn:E; [|auto].
  apply String.eqb_eq in E. auto.
Qed.

(** A file under [p] makes [p] a directory that lists it. *)
Lemma isfile_child p n t :
  isfile t (path_join p n) = true ->
  exists es, lookup p t = Some (Dir es) /\ In n (map fst es).
Proof.
  unfold isfile, path_join. rewrite lookup_app.
  destruct (lookup p t) as [[c | es]|]; simpl; try discriminate.
  destruct (assoc n es) as [v|] eqn:E; [|discriminate].
  intros _. exists es. split; [reflexivity|]. eapply assoc_some_in; eauto.
Qed.

Lemma assoc_set_entry n m v es :
  assoc n (set_entry m v es) = if String.eqb n m then Some v else assoc n es.
Proof.
  induction es as [|[k w] r IH]; simpl.
  - reflexivity.
  - destruct (String.eqb m k) eqn:Emk; simpl.
    + apply String.eqb_eq in Emk; subst k.
      destruct (String.eqb n m); reflexivity.
    + rewrite IH. destruct (String.eqb n k) eqn:Enk; [|reflexivity].
      apply String.eqb_eq in Enk; subst k.
      destruct (String.eqb n m) eqn:Enm; [|reflexivity].
      apply String.eqb_eq in Enm; subst m.
      rewrite String.eqb_refl in Emk. discriminate.
Qed.

Lemma assoc_del_entry n m es :
  assoc n (del_entry m es) = if String.eqb n m then None else assoc n es.
Proof.
  induction es as [|[k w] r IH]; simpl.
  - destruct (String.eqb n m); reflexivity.
  - destruct (String.eqb m k) eqn:Emk; simpl.
    + apply String.eqb_eq in Emk; subst k. rewrite IH.
      destruct (String.eqb n m); reflexivity.
    + rewrite IH. destruct (String.eqb n k) eqn:Enk; [|reflexivity].
      apply String.eqb_eq in Enk; subst k.
      destruct (String.eqb n m) eqn:Enm; [|reflexivity].
      apply String.eqb_eq in Enm; subst m.
      rewrite String.eqb_refl in Emk. discriminate.
Qed.

Lemma set_entry_twice n v w es :
  set_entry n v (set_entry n w es) = set_entry n v es.
Proof.
  induction es as [|[k u] r IH]; simpl.
  - now rewrite String.eqb_refl.
  - destruct (String.eqb n k) eqn:E; simpl; rewrite E; [reflexivity | now rewrite IH].
Qed.

(** A name put into a directory that did not have it and taken out
    again leaves the directory as it was. *)
Lemma del_set_entry n v es :
  assoc n es = None -> del_entry n (set_entry n v es) = es.
Proof.
  induction es as [|[k u] r IH]; simpl.
  - now rewrite String.eqb_refl.
  - destruct (String.eqb n k) eqn:E; [discriminate|].
    intros H. simpl. rewrite E. now rewrite IH.
Qed.

Lemma split_last_app p n : split_last (p ++ [n]) = Some (p, n).
Proof.
  induction p as [|m p IH]; simpl; [reflexivity|].
  rewrite IH. destruct (p ++ [n]) eqn:E; [|reflexivity].
  destruct p; discriminate.
Qed.

Lemma add_suffix_app p n suffix :
  add_suffix (p ++ [n]) suffix = p ++ [(n ++ suffix)%string].
Proof.
  induction p as [|m p IH]; simpl; [reflexivity|].
  rewrite IH. destruct (p ++ [n]) eqn:E; [|reflexivity].
  destruct p; discriminate.
Qed.

Lemma lookup_plug p x y t :
  lookup p t = Some y -> lookup p (plug p x t) = Some x.
Proof.
  revert t; induction p as [|n p IH]; intros t; simpl; [reflexivity|].
  destruct t as [c | es]; [discriminate|].
  destruct (assoc n es) as [c|] eqn:E; [|discriminate].
  intros H. simpl. rewrite assoc_set_entry, String.eqb_refl. now apply IH.
Qed.

Lemma plug_plug p x y t : plug p x (plug p y t) = plug p x t.
Proof.
  revert t; induction p as [|n p IH]; intros t; simpl; [reflexivity|].
  destruct t as [c | es]; [reflexivity|].
  destruct (assoc n es) as [c|] eqn:E; simpl.
  - rewrite assoc_set_entry, String.eqb_refl, IH, set_entry_twice. reflexivity.
  - now rewrite E.
Qed.

Lemma plug_app p q x c t :
  lookup p t = Some c -> plug (p ++ q) x t = plug p (plug q x c) t.
Proof.
  revert t; induction p as [|n p IH]; intros t; simpl.
  - intros H; now injection H as ->.
  - destruct t as [c0 | es]; [discriminate|].
    destruct (assoc n es) as [c0|]; [|discriminate].
    intros H. now rewrite (IH _ H).
Qed.

Lemma with_dir_plug p f t es :
  lookup p t = Some (Dir es) ->
  with_dir p f t =
  match f es with
  | Ok es' => Ok (plug p (Dir es') t)
  | Raise e => Raise e
  end.
Proof.
  revert t; induction p as [|n p IH]; intros t; simpl.
  - intros H; injection H as ->. reflexivity.
  - destruct t as [c | es0]; [discriminate|].
    destruct (assoc n es0) as [c|]; [|discriminate].
    intros H. rewrite (IH _ H). destruct (f es); reflexivity.
Qed.

Lemma makedirs_fresh p n t es :
  lookup p t = Some (Dir es) -> assoc n es = None ->
  makedirs (p ++ [n]) t = Ok (plug p (Dir (set_entry n (Dir []) es)) t).
Proof.
  revert t; induction p as [|m p IH]; intros t; simpl.
  - intros H; injection H as ->. intros ->. reflexivity.
  - destruct t as [c | es0]; [discriminate|].
    destruct (assoc m es0) as [c|]; [|discriminate].
    intros H Hn. now rewrite (IH _ H Hn).
Qed.

(** ** System calls on a name right under [p], and one level below *)

Section UnderRoot.

Variables (p : Fs.path) (t : node C) (es : list (string * node C)).
Hypothesis Hroot : lookup p t = Some (Dir es).

Lemma lookup_child n : lookup (p ++ [n]) t = assoc n es.
Proof.
  rewrite lookup_app, Hroot. simpl. destruct (assoc n es); reflexivity.
Qed.

Lemma lookup_grandchild d n :
  lookup (p ++ [d; n]) t =
  match assoc d es with
  | Some c => lookup [n] c
  | None => None
  end.
Proof. rewrite lookup_app, Hroot. reflexivity. Qed.

Lemma exists_child n :
  exists_ t (p ++ [n]) = match assoc n es with Some _ => true | None => false end.
Proof. unfold exists_. now rewrite lookup_child. Qed.

Lemma write_file_child n (x : C) :
  match assoc n es with Some (Dir _) => False | _ => True end ->
  write_file (p ++ [n]) x t = Ok (plug p (Dir (set_entry n (File x) es)) t).
Proof.
  intros H. unfold write_file. rewrite split_last_app, (with_dir_plug _ _ _ _ Hroot).
  destruct (assoc n es) as [[|]|]; try reflexivity. destruct H.
Qed.

Lemma replace_child a b v :
  a <> b ->
  assoc a es = Some v ->
  match v, assoc b es with
  | _, None => True
  | File _, Some (File _) => True
  | Dir _, Some (Dir []) => True
  | _, _ => False
  end ->
  replace (p ++ [a]) (p ++ [b]) t = Ok (plug p (Dir (set_entry b v (del_entry a es))) t).
Proof.
  intros Hab Ha Hclash. unfold replace.
  rewrite lookup_child, Ha, !split_last_app, Hroot.
  destruct (list_eq_dec string_dec (p ++ [a]) (p ++ [b])) as [E | _].
  { apply app_inv_head in E. congruence. }
  assert (Hnc : match v, assoc b es with
                | _, None => None
                | File _, Some (File _) => None
                | File _, Some (Dir _) => Some IsADirectoryError
                | Dir _, Some (File _) => Some NotADirectoryError
                | Dir _, Some (Dir []) => None
                | Dir _, Some (Dir (_ :: _)) => Some DirectoryNotEmpty
                end = None).
  { destruct v, (assoc b es) as [[|[|]]|]; try reflexivity; destruct Hclash. }
  rewrite Hnc, (with_dir_plug _ _ _ _ Hroot).
  rewrite (with_dir_plug p _ _ (del_entry a es)) by (eapply lookup_plug; eauto).
  now rewrite plug_plug.
Qed.

Lemma plug_child d x c :
  assoc d es = Some c ->
  plug (p ++ [d]) x t = plug p (Dir (set_entry d x es)) t.
Proof.
  intros Hd. rewrite (plug_app _ _ _ _ _ Hroot). simpl. now rewrite Hd.
Qed.

Lemma write_file_grandchild d n (x : C) es_d :
  assoc d es = Some (Dir es_d) ->
  match assoc n es_d with Some (Dir _) => False | _ => True end ->
  write_file (p ++ [d; n]) x t =
  Ok (plug p (Dir (set_entry d (Dir (set_entry n (File x) es_d)) es)) t).
Proof.
  intros Hd Hn.
  assert (Hsub : lookup (p ++ [d]) t = Some (Dir es_d)) by now rewrite lookup_child.
  change (p ++ [d; n]) with (p ++ [d] ++ [n]). rewrite app_assoc.
  unfold write_file. rewrite split_last_app, (with_dir_plug _ _ _ _ Hsub).
  destruct (assoc n es_d) as [[|]|]; try (now destruct Hn);
    now rewrite (plug_child _ _ _ Hd).
Qed.

End UnderRoot.

Lemma replace_grandchild p t es d a b v es_d :
  lookup p t = Some (Dir es) ->
  assoc d es = Some (Dir es_d) ->
  a <> b ->
  assoc a es_d = Some v ->
  match v, assoc b es_d with
  | _, None => True
  | File _, Some (File _) => True
  | Dir _, Some (Dir []) => True
  | _, _ => False
  end ->
  replace (p ++ [d; a]) (p ++ [d; b]) t =
  Ok (plug p (Dir (set_entry d (Dir (set_entry b v (del_entry a es_d))) es)) t).
Proof.
  intros Hroot Hd Hab Ha Hclash.
  assert (Hsub : lookup (p ++ [d]) t = Some (Dir es_d))
    by now rewrite (lookup_child _ _ _ Hroot).
  change (p ++ [d; a]) with (p ++ [d] ++ [a]).
  change (p ++ [d; b]) with (p ++ [d] ++ [b]). rewrite !app_assoc.
  rewrite (replace_child _ _ _ Hsub _ _ _ Hab Ha Hclash).
  now rewrite (plug_child _ _ _ Hroot _ _ _ Hd).
Qed.

End TreeFacts.

(* ===================================================================== *)
(** * Properties: checkpoint handler *)
(* ===================================================================== *)

(** [NodeStateHandler("ckpt")] on an empty disk gives the fresh root. *)
Example init_fresh :
  init ["ckpt"] (mkSys (Dir []) 0 0) = (Ok ckpt_handler, fresh_sys).
Proof. reflexivity. Qed.

(** The validity check never raises: the directory is listed only once
    a file was found in it. *)
Lemma is_valid_checkpoint_total (t : tree) (p : Fs.path) :
  _is_valid_checkpoint t p = Ok (isfile t (path_join p META_FILE)).
Proof.
  unfold _is_valid_checkpoint.
  destruct (isfile t (path_join p META_FILE)) eqn:Hm.
  - destruct (isfile_child _ _ _ _ Hm) as [es [Hl Hin]].
    unfold exists_, listdir. rewrite Hl. simpl.
    destruct (isfile t (path_join p STATE_FILE)); [reflexivity|].
    destruct es; [destruct Hin | reflexivity].
  - simpl. destruct (exists_ t p); reflexivity.
Qed.

(** C5, where the code departs from it. A directory that lists the
    metadata file and nothing else holds no state file and no other
    file, and passes the check: the listing the check counts includes
    the metadata file itself. *)
Theorem meta_only_checkpoint_accepted (t : tree) (p : Fs.path) :
  listdir t p = Ok [META_FILE] ->
  isfile t (path_join p META_FILE) = true ->
  isfile t (path_join p STATE_FILE) = false /\
  (forall name, name <> META_FILE -> exists_ t (path_join p name) = false) /\
  _is_valid_checkpoint t p = Ok true.
Proof.
  intros Hls Hmeta.
  assert (Hother : forall name, name <> META_FILE -> exists_ t (path_join p name) = false).
  { intros name Hne. revert Hls. unfold listdir, exists_, path_join.
    rewrite lookup_app.
    destruct (lookup p t) as [[x | es]|]; try discriminate.
    intros H. injection H as H.
    destruct es as [|[k v] [|? ?]]; try discriminate.
    simpl in H. injection H as ->. simpl.
    destruct (String.eqb_spec name META_FILE); [contradiction | reflexivity]. }
  split; [|split; [exact Hother|]].
  - specialize (Hother STATE_FILE ltac:(discriminate)).
    unfold exists_ in Hother. unfold isfile.
    now destruct (lookup (path_join p STATE_FILE) t).
  - now rewrite is_valid_checkpoint_total, Hmeta.
Qed.

Lemma meta_only_checkpoint_accepted_witness :
  isfile (disk external_sys) (path_join ["ckpt"; "step_00000005"] STATE_FILE) = false /\
  (forall name, name <> META_FILE ->
     exists_ (disk external_sys) (path_join ["ckpt"; "step_00000005"] name) = false) /\
  _is_valid_checkpoint (disk external_sys) ["ckpt"; "step_00000005"] = Ok true.
Proof.
  apply (meta_only_checkpoint_accepted (disk external_sys) ["ckpt"; "step_00000005"]);
    vm_compute; reflexivity.
Defined.

(** The same on a tree written out. *)
Example meta_only_directory_passes :
  listdir meta_only_tree ["ckpt"; "step_00000005"] = Ok ["meta.json"] /\
  isfile meta_only_tree ["ckpt"; "step_00000005"; "state.pt"] = false /\
  _is_valid_checkpoint meta_only_tree ["ckpt"; "step_00000005"] = Ok true.
Proof. vm_compute. repeat split. Qed.

(** C8. A call of [save] by a process that does not write leaves the
    disk as it is, passes the barrier once and returns the empty path. *)
Theorem save_non_leader
    (e : env) (self : NodeStateHandler) (step : Z) (state : state_dict)
    (loss : option Q) (is_main : option bool) (s : sys) :
  match is_main with Some b => b | None => is_main_process e end = false ->
  save e self step state loss is_main s
    = (Ok [], mkSys (disk s) (ticks s) (S (barriers s))).
Proof.
  intros H. unfold save. rewrite H. reflexivity.
Qed.

Lemma save_non_leader_witness :
  save leader_env ckpt_handler 7 weights None (Some false) fresh_sys
    = (Ok [], mkSys (disk fresh_sys) (ticks fresh_sys) (S (barriers fresh_sys))).
Proof.
  apply (save_non_leader leader_env ckpt_handler 7 weights None (Some false) fresh_sys).
  reflexivity.
Defined.

(** C10. What [latest_checkpoint] returns on the manifest's pointer is
    made from the step alone: the path is the root joined with the
    zero-padded step name, [ok] is true, [loss] and [timestamp] have
    their defaults, whatever the manifest's record of that step holds;
    so a recorded path other than the derived one is never returned. *)
Theorem latest_checkpoint_fast_path
    (self : NodeStateHandler) (s : sys) (m : manifest) (info : CheckpointInfo) :
  _load_manifest self s = (Ok m, s) ->
  latest_from_manifest self m (disk s) = Ok (Some info) ->
  latest_checkpoint self s = (Ok (Some info), s) /\
  exists l,
    latest m = Some l /\
    info = mkInfo l (path_join (root_dir self) ("step_" ++ format_08d l)) None 0 true /\
    forall c, In c (checkpoints m) ->
              e_path c <> checkpoint_dir self l -> path info <> e_path c.
Proof.
  intros Hm Hf. split.
  - unfold latest_checkpoint, bind, fs_try. rewrite Hm, Hf. reflexivity.
  - unfold latest_from_manifest in Hf.
    destruct (latest m) as [l|]; [|discriminate].
    exists l. split; [reflexivity|].
    destruct (_is_valid_checkpoint (disk s) (checkpoint_dir self l)) as [[|]|];
      try discriminate.
    injection Hf as <-. split; [reflexivity|].
    intros c _ Hne. simpl. congruence.
Qed.

Lemma latest_checkpoint_fast_path_witness :
  latest_checkpoint ckpt_handler saved_then_external_sys
    = (Ok (Some (CheckpointInfo_at 5 ["ckpt"; "step_00000005"])), saved_then_external_sys) /\
  exists l,
    latest (mkManifest (Some 5)
              [ mkEntry 5 ["ckpt"; "step_00000005"] (Some (42 # 100)) 1 true;
                mkEntry 5 ["ext"; "ds_5"] (Some (1 # 2)) 3 true ]) = Some l /\
    CheckpointInfo_at 5 ["ckpt"; "step_00000005"]
      = mkInfo l (path_join (root_dir ckpt_handler) ("step_" ++ format_08d l)) None 0 true /\
    forall c,
      In c (checkpoints (mkManifest (Some 5)
              [ mkEntry 5 ["ckpt"; "step_00000005"] (Some (42 # 100)) 1 true;
                mkEntry 5 ["ext"; "ds_5"] (Some (1 # 2)) 3 true ])) ->
      e_path c <> checkpoint_dir ckpt_handler l ->
      path (CheckpointInfo_at 5 ["ckpt"; "step_00000005"]) <> e_path c.
Proof.
  apply (latest_checkpoint_fast_path ckpt_handler saved_then_external_sys
           (mkManifest (Some 5)
              [ mkEntry 5 ["ckpt"; "step_00000005"] (Some (42 # 100)) 1 true;
                mkEntry 5 ["ext"; "ds_5"] (Some (1 # 2)) 3 true ])
           (CheckpointInfo_at 5 ["ckpt"; "step_00000005"])); vm_compute; reflexivity.
Defined.

(** An external checkpoint recorded away from the derived name is not
    found although its directory passes the check. *)
Example external_elsewhere_not_returned :
  let s := snd (record_external leader_env ckpt_handler 5 ["ext"; "ds_5"] None fresh_sys) in
  _is_valid_checkpoint (disk s) ["ext"; "ds_5"] = Ok true /\
  fst (latest_checkpoint ckpt_handler s) = Ok None.
Proof. vm_compute. split; reflexivity. Qed.

(** ** The manifest's pointer *)

Lemma last_20_app_last (A : Type) (l : list A) (x : A) : In x (last_20 (l ++ [x])).
Proof.
  unfold last_20. rewrite length_app. simpl.
  rewrite skipn_app.
  apply in_or_app. right.
  replace (length l + 1 - 20 - length l)%nat with 0%nat by lia.
  simpl. auto.
Qed.

(** Recording a good checkpoint points [latest] at a record marked good. *)
Lemma recorded_ok_valid (m : manifest) (info : CheckpointInfo) :
  ok info = true -> latest_is_valid (recorded m info).
Proof.
  intros Hok. unfold latest_is_valid, recorded. simpl. rewrite Hok.
  exists (entry_of info). split; [apply last_20_app_last | auto].
Qed.

(** Recording a failed checkpoint does not move [latest]. *)
Lemma recorded_failed_latest (m : manifest) (info : CheckpointInfo) :
  ok info = false -> latest (recorded m info) = latest m.
Proof. intros Hok. unfold recorded. simpl. now rewrite Hok. Qed.

(** C1, where the code departs from it. After
    [record_external(5, "ckpt/step_00000005")] the directory passes the
    validity check and holds no state file; [load_latest_checkpoint]
    finds it through the manifest, fails to load it, marks its record bad
    and leaves [latest] on it. *)
Theorem load_failure_leaves_latest_on_bad_record :
  fst (_load_manifest ckpt_handler external_sys)
    = Ok (mkManifest (Some 5) [mkEntry 5 ["ckpt"; "step_00000005"] None 1 true]) /\
  fst (load_latest_checkpoint ckpt_handler external_sys) = Ok None /\
  fst (_load_manifest ckpt_handler
         (snd (load_latest_checkpoint ckpt_handler external_sys)))
    = Ok (mkManifest (Some 5) [mkEntry 5 ["ckpt"; "step_00000005"] None 1 false]) /\
  ~ latest_is_valid
      (mkManifest (Some 5) [mkEntry 5 ["ckpt"; "step_00000005"] None 1 false]).
Proof.
  split; [vm_compute; reflexivity|].
  split; [vm_compute; reflexivity|].
  split; [vm_compute; reflexivity|].
  intros [c [[<- | []] [_ Hok]]]. discriminate.
Qed.

(** C2, where the code departs from it. On a fresh root nothing is
    found; after a writer died between the metadata write and the rename
    of step 7, the leftover [step_00000007.tmp] matches the scan's
    pattern, passes the validity check and is returned. A later save of
    the same step clears the leftover and goes through. *)
Theorem crashed_save_temp_dir_returned :
  exists_ (disk crashed_sys) ["ckpt"; "step_00000007.tmp"] = true /\
  exists_ (disk crashed_sys) ["ckpt"; "step_00000007"] = false /\
  fst (latest_checkpoint ckpt_handler fresh_sys) = Ok None /\
  fst (latest_checkpoint ckpt_handler crashed_sys)
    = Ok (Some (CheckpointInfo_at 7 ["ckpt"; "step_00000007.tmp"])) /\
  (let '(r, s) := save leader_env ckpt_handler 7 weights None None crashed_sys in
   r = Ok ["ckpt"; "step_00000007"] /\
   exists_ (disk s) ["ckpt"; "step_00000007.tmp"] = false /\
   fst (latest_checkpoint ckpt_handler s)
     = Ok (Some (CheckpointInfo_at 7 ["ckpt"; "step_00000007"]))).
Proof. vm_compute. repeat split. Qed.

(* ===================================================================== *)
(** * Properties: names of checkpoint directories *)
(* ===================================================================== *)

Local Open Scope string_scope.

Lemma all_chars_app P s t : all_chars P (s ++ t) = all_chars P s && all_chars P t.
Proof.
  induction s as [|c s IH]; simpl; [reflexivity|].
  now rewrite IH, andb_assoc.
Qed.

Lemma digits_all_digit n : all_chars is_digit (digits n) = true.
Proof.
  unfold digits. generalize (N.to_uint n) as d.
  induction d; simpl; auto.
Qed.

Lemma zfill_all_digit w n : all_chars is_digit (zfill w (digits n)) = true.
Proof.
  unfold zfill. rewrite all_chars_app, digits_all_digit, andb_true_r.
  generalize (w - String.length (digits n))%nat as k.
  induction k as [|k IH]; simpl; auto.
Qed.

Lemma parse_zfill w n : parse_digits (zfill w (digits n)) = Some n.
Proof.
  unfold zfill. generalize (w - String.length (digits n))%nat as k.
  induction k as [|k IH]; simpl.
  - unfold parse_digits, digits. rewrite NilEmpty.usu. simpl.
    now rewrite DecimalN.Unsigned.of_to.
  - unfold parse_digits in *. simpl.
    destruct (NilEmpty.uint_of_string
                (string_of_list_ascii (repeat "0"%char k) ++ digits n)) as [d|];
      simpl in *; [exact IH | discriminate].
Qed.

Lemma zfill_inj w a b : zfill w (digits a) = zfill w (digits b) -> a = b.
Proof.
  intros H. pose proof (parse_zfill w a) as Ha.
  rewrite H, parse_zfill in Ha. now injection Ha.
Qed.

Lemma format_08d_inj a b : format_08d a = format_08d b -> a = b.
Proof.
  unfold format_08d.
  destruct (Z.ltb_spec a 0) as [Ha | Ha], (Z.ltb_spec b 0) as [Hb | Hb]; intros H.
  - injection H as H. apply zfill_inj, (f_equal Z.of_N) in H.
    rewrite !N2Z.inj_abs_N in H. lia.
  - apply (f_equal (all_chars is_digit)) in H.
    rewrite zfill_all_digit in H. discriminate.
  - apply (f_equal (all_chars is_digit)) in H.
    rewrite zfill_all_digit in H. discriminate.
  - apply zfill_inj, (f_equal Z.of_N) in H.
    rewrite !N2Z.inj_abs_N in H. lia.
Qed.

(** Two steps never share a directory name. *)
Lemma step_name_inj a b : step_name a = step_name b -> a = b.
Proof.
  unfold step_name. intros H. injection H as H. now apply format_08d_inj.
Qed.

Lemma format_08d_chars a : all_chars sign_or_digit (format_08d a) = true.
Proof.
  assert (D : forall s, all_chars is_digit s = true -> all_chars sign_or_digit s = true).
  { induction s as [|c s IH]; simpl; [reflexivity|].
    rewrite !andb_true_iff. intros [Hc Hs]. split; [|auto].
    unfold sign_or_digit. now rewrite Hc, orb_true_r. }
  unfold format_08d. destruct (a <? 0)%Z; simpl; apply D, zfill_all_digit.
Qed.

(** The temporary directory of one step is never the directory of
    another. *)
Lemma step_name_tmp_neq a b : step_name a ++ ".tmp" <> step_name b.
Proof.
  unfold step_name. simpl. intros H. injection H as H.
  apply (f_equal (all_chars sign_or_digit)) in H.
  rewrite all_chars_app, !format_08d_chars in H. discriminate.
Qed.

Lemma step_name_not_manifest a :
  step_name a <> MANIFEST /\ step_name a <> MANIFEST ++ ".tmp" /\
  step_name a ++ ".tmp" <> MANIFEST /\ step_name a ++ ".tmp" <> MANIFEST ++ ".tmp".
Proof. unfold step_name, MANIFEST. simpl. repeat split; discriminate. Qed.

Local Open Scope list_scope.

(* ===================================================================== *)
(** * Properties: a sequence of saves *)
(* ===================================================================== *)

Lemma load_manifest_at (self : NodeStateHandler) (s : sys) es m :
  lookup (root_dir self) (disk s) = Some (Dir es) ->
  manifest_at es m ->
  _load_manifest self s = (Ok m, s).
Proof.
  intros Hroot Hm.
  unfold _load_manifest, bind, fs_read, manifest_path, path_join. cbv beta.
  rewrite (exists_child _ _ _ _ Hroot).
  destruct Hm as [[Hn ->] | Hs]; [rewrite Hn | rewrite Hs]; cbn [negb]; [reflexivity|].
  unfold fs_try, read_manifest. now rewrite (lookup_child _ _ _ _ Hroot), Hs.
Qed.

Lemma bind_ok (A B : Type) (m : M A) (k : A -> M B) s a s' :
  m s = (Ok a, s') -> bind m k s = k a s'.
Proof. intros H. unfold bind. now rewrite H. Qed.

Lemma fs_call_ok (f : tree -> result tree) s t' :
  f (disk s) = Ok t' -> fs_call f s = (Ok tt, mkSys t' (ticks s) (barriers s)).
Proof. intros H. unfold fs_call. now rewrite H. Qed.

(** [_atomic_write] of a file right under a directory that has no
    leftover of an earlier write. *)
Lemma atomic_write_child (p : Fs.path) (n : string) (c : content) (s : sys) es :
  lookup p (disk s) = Some (Dir es) ->
  assoc (n ++ ".tmp")%string es = None ->
  match assoc n es with Some (Dir _) => False | _ => True end ->
  (n ++ ".tmp")%string <> n ->
  _atomic_write (p ++ [n]) c s =
  (Ok tt, mkSys (plug p (Dir (set_entry n (File c) es)) (disk s)) (ticks s) (barriers s)).
Proof.
  intros Hroot Htmp Hn Hne.
  unfold _atomic_write. rewrite add_suffix_app.
  erewrite bind_ok; cycle 1.
  { apply fs_call_ok. apply (write_file_child _ _ _ _ Hroot). now rewrite Htmp. }
  erewrite fs_call_ok; cycle 1.
  { cbn [disk].
    eapply replace_child with (v := File c).
    - eapply lookup_plug; eauto.
    - exact Hne.
    - now rewrite assoc_set_entry, String.eqb_refl.
    - rewrite assoc_set_entry.
      destruct (String.eqb_spec n (n ++ ".tmp")); [congruence|].
      destruct (assoc n es) as [[|]|]; auto. }
  cbn [ticks barriers]. now rewrite plug_plug, del_set_entry.
Qed.

Lemma save_write_tmp_fresh
    (e : env) (self : NodeStateHandler) (st : Z) (state : state_dict)
    (loss : option Q) (s : sys) es :
  lookup (root_dir self) (disk s) = Some (Dir es) ->
  assoc (step_name st ++ ".tmp")%string es = None ->
  save_write_tmp e self st state loss s =
  (Ok tt,
   mkSys (plug (root_dir self)
            (Dir (set_entry (step_name st ++ ".tmp")%string
                    (step_dir e st state loss (clock e (ticks s))) es))
            (disk s))
         (S (ticks s)) (barriers s)).
Proof.
  intros Hroot Htmp.
  unfold save_write_tmp, checkpoint_dir, path_join.
  rewrite add_suffix_app.
  set (root := root_dir self) in *.
  set (T_ := (step_name st ++ ".tmp")%string) in *.
  erewrite bind_ok; cycle 1.
  { unfold fs_read. rewrite (exists_child _ _ _ _ Hroot), Htmp. reflexivity. }
  cbv iota.
  erewrite bind_ok; [|reflexivity].
  erewrite bind_ok; cycle 1.
  { apply fs_call_ok. apply (makedirs_fresh _ _ _ _ _ Hroot Htmp). }
  set (es1 := set_entry T_ (Dir []) es).
  set (t1 := plug root (Dir es1) (disk s)).
  assert (H1 : lookup root t1 = Some (Dir es1)) by (eapply lookup_plug; eauto).
  assert (Hsub1 : lookup (root ++ [T_]) t1 = Some (Dir [])).
  { rewrite (lookup_child _ _ _ _ H1). unfold es1.
    now rewrite assoc_set_entry, String.eqb_refl. }
  erewrite bind_ok; cycle 1.
  { apply fs_call_ok. cbn [disk].
    apply (write_file_child _ _ _ _ Hsub1). exact I. }
  erewrite bind_ok; [|reflexivity].
  cbn [disk ticks barriers].
  erewrite atomic_write_child; cycle 1.
  { cbn [disk]. eapply lookup_plug; eauto. }
  { reflexivity. }
  { exact I. }
  { discriminate. }
  cbn [disk ticks barriers]. f_equal. f_equal.
  rewrite plug_plug.
  rewrite (plug_child _ _ _ _ H1 T_ _ (Dir [])); cycle 1.
  { unfold es1. now rewrite assoc_set_entry, String.eqb_refl. }
  unfold t1, es1. now rewrite plug_plug, set_entry_twice.
Qed.

(** [_record_checkpoint] on a root directory with a readable manifest
    and no leftover of an earlier write. *)
Lemma record_checkpoint_at (self : NodeStateHandler) (info : CheckpointInfo) (s : sys) es m :
  lookup (root_dir self) (disk s) = Some (Dir es) ->
  manifest_at es m ->
  assoc (MANIFEST ++ ".tmp")%string es = None ->
  _record_checkpoint self info s =
  (Ok tt,
   mkSys (plug (root_dir self)
            (Dir (set_entry MANIFEST (File (ManifestJson (recorded m info))) es))
            (disk s))
         (ticks s) (barriers s)).
Proof.
  intros Hroot Hm Htmp. unfold _record_checkpoint.
  rewrite (bind_ok _ _ _ _ _ _ _ (load_manifest_at _ _ _ _ Hroot Hm)).
  unfold _write_manifest, manifest_path, path_join.
  apply (atomic_write_child _ _ _ _ _ Hroot Htmp).
  - destruct Hm as [[-> _] | ->]; exact I.
  - discriminate.
Qed.

(** What a writer's [save] of a step does to a root directory that has
    neither that step nor leftovers of it. *)
Lemma save_fresh_step
    (e : env) (self : NodeStateHandler) (st : Z) (state : state_dict)
    (loss : option Q) (is_main : option bool) (s : sys) es m :
  match is_main with Some b => b | None => is_main_process e end = true ->
  lookup (root_dir self) (disk s) = Some (Dir es) ->
  assoc (step_name st) es = None ->
  assoc (step_name st ++ ".tmp")%string es = None ->
  assoc (MANIFEST ++ ".tmp")%string es = None ->
  manifest_at es m ->
  save e self st state loss is_main s =
  (Ok (checkpoint_dir self st),
   mkSys (plug (root_dir self)
            (Dir (set_entry MANIFEST
                    (File (ManifestJson
                             (recorded m (mkInfo st (checkpoint_dir self st) loss
                                            (clock e (S (ticks s))) true))))
                    (set_entry (step_name st)
                       (step_dir e st state loss (clock e (ticks s))) es)))
            (disk s))
         (S (S (ticks s))) (S (barriers s))).
Proof.
  intros Hmain Hroot Hstep Htmp Hmtmp Hm.
  unfold save. rewrite Hmain. cbn [negb].
  erewrite bind_ok; cycle 1.
  { apply (save_write_tmp_fresh e self st state loss s es Hroot Htmp). }
  unfold save_commit, checkpoint_dir, path_join. rewrite add_suffix_app.
  set (root := root_dir self) in *.
  set (S_ := step_name st) in *.
  set (T_ := (S_ ++ ".tmp")%string) in *.
  set (es1 := set_entry T_ (step_dir e st state loss (clock e (ticks s))) es).
  set (t1 := plug root (Dir es1) (disk s)).
  assert (H1 : lookup root t1 = Some (Dir es1)) by (eapply lookup_plug; eauto).
  assert (HTS : T_ <> S_) by apply step_name_tmp_neq.
  destruct (step_name_not_manifest st) as [HSM [HSMT [HTM HTMT]]].
  fold S_ T_ in HSM, HSMT, HTM, HTMT.
  erewrite bind_ok; cycle 1.
  { apply fs_call_ok. cbn [disk].
    eapply (replace_child _ _ _ _ H1) with (v := step_dir e st state loss (clock e (ticks s))).
    - exact HTS.
    - unfold es1. now rewrite assoc_set_entry, String.eqb_refl.
    - unfold es1. rewrite assoc_set_entry.
      destruct (String.eqb_spec S_ T_); [congruence|].
      now rewrite Hstep. }
  erewrite bind_ok; [|reflexivity].
  cbn [disk ticks barriers].
  unfold es1, t1. rewrite plug_plug, del_set_entry by exact Htmp.
  set (es2 := set_entry S_ (step_dir e st state loss (clock e (ticks s))) es).
  set (t2 := plug root (Dir es2) (disk s)).
  assert (H2 : lookup root t2 = Some (Dir es2)) by (eapply lookup_plug; eauto).
  erewrite bind_ok; cycle 1.
  { eapply (record_checkpoint_at self _ _ es2 m).
    - exact H2.
    - unfold manifest_at, es2. rewrite assoc_set_entry.
      destruct (String.eqb_spec MANIFEST S_); [congruence|]. exact Hm.
    - unfold es2. rewrite assoc_set_entry.
      destruct (String.eqb_spec (MANIFEST ++ ".tmp")%string S_); [congruence|].
      exact Hmtmp. }
  cbn [disk ticks barriers]. unfold t2. rewrite plug_plug.
  reflexivity.
Qed.

Lemma map_last_20 (A B : Type) (f : A -> B) (l : list A) :
  map f (last_20 l) = last_20 (map f l).
Proof. unfold last_20. now rewrite skipn_map, length_map. Qed.

Lemma last_20_app_one (A : Type) (l : list A) (x : A) :
  last_20 (last_20 l ++ [x]) = last_20 (l ++ [x]).
Proof.
  unfold last_20. rewrite !length_app, length_skipn. simpl.
  destruct (Nat.le_gt_cases (length l) 20) as [H | H].
  - replace (length l - 20)%nat with 0%nat by lia. simpl.
    now rewrite Nat.sub_0_r.
  - replace (length l - (length l - 20) + 1 - 20)%nat with 1%nat by lia.
    replace (length l + 1 - 20)%nat with (1 + (length l - 20))%nat by lia.
    rewrite <- (skipn_skipn 1 (length l - 20) (l ++ [x])).
    f_equal. rewrite skipn_app.
    replace (length l - 20 - length l)%nat with 0%nat by lia. reflexivity.
Qed.

Lemma length_last_20 (A : Type) (l : list A) :
  (length (last_20 l) <= 20)%nat /\
  ((20 <= length l)%nat -> length (last_20 l) = 20%nat).
Proof. unfold last_20. rewrite length_skipn. lia. Qed.

(** The root right after [NodeStateHandler(root)] on a free name. *)
Lemma world_holds_fresh (e : env) (self : NodeStateHandler) (s : sys) :
  lookup (root_dir self) (disk s) = Some (Dir []) -> world_holds e self [] s.
Proof.
  intros H. exists [], (mkManifest None []). split; [exact H|].
  repeat split; try (intros; discriminate); try (intros ? ? ? []).
  left. split; reflexivity.
Qed.

(** One more save of a larger step keeps the picture. *)
Lemma save_keeps_world
    (e : env) (self : NodeStateHandler) (is_main : option bool)
    (done : list (Z * state_dict * option Q))
    (st : Z) (state : state_dict) (loss : option Q) (s : sys) :
  match is_main with Some b => b | None => is_main_process e end = true ->
  world_holds e self done s ->
  (forall a, In a done -> step_of a < st) ->
  exists s',
    save e self st state loss is_main s = (Ok (checkpoint_dir self st), s') /\
    world_holds e self (done ++ [(st, state, loss)]) s'.
Proof.
  intros Hmain [es [m [Hroot [Hclosed [Hart [Hm [Hkeys Hlatest]]]]]]] Hlt.
  destruct (step_name_not_manifest st) as [HSM [HSMT [HTM HTMT]]].
  assert (Hstep : assoc (step_name st) es = None).
  { destruct (assoc (step_name st) es) as [v|] eqn:E; [|reflexivity].
    destruct (Hclosed _ _ E) as [? | [a [Ha Hk]]]; [congruence|].
    apply step_name_inj in Hk. specialize (Hlt a Ha). lia. }
  assert (Htmp : assoc (step_name st ++ ".tmp")%string es = None).
  { destruct (assoc (step_name st ++ ".tmp")%string es) as [v|] eqn:E; [|reflexivity].
    destruct (Hclosed _ _ E) as [? | [a [Ha Hk]]]; [congruence|].
    now apply step_name_tmp_neq in Hk. }
  assert (Hmtmp : assoc (MANIFEST ++ ".tmp")%string es = None).
  { destruct (assoc (MANIFEST ++ ".tmp")%string es) as [v|] eqn:E; [|reflexivity].
    destruct (Hclosed _ _ E) as [? | [a [Ha Hk]]]; [discriminate|].
    destruct (step_name_not_manifest (step_of a)) as [_ [H _]]. congruence. }
  rewrite (save_fresh_step e self st state loss is_main s es m
             Hmain Hroot Hstep Htmp Hmtmp Hm).
  eexists. split; [reflexivity|].
  eexists _, _. split; [cbn [disk]; eapply lookup_plug; eauto|].
  split; [|split; [|split; [|split]]].
  - intros k v. rewrite !assoc_set_entry.
    destruct (String.eqb_spec k MANIFEST); [now left|].
    destruct (String.eqb_spec k (step_name st)) as [-> | _].
    + intros _. right. exists (st, state, loss). split; [|reflexivity].
      apply in_or_app. right. now left.
    + intros H. destruct (Hclosed _ _ H) as [? | [a [Ha Hk]]]; [now left|].
      right. exists a. split; [apply in_or_app; now left | exact Hk].
  - intros st' state' loss' Hin. rewrite !assoc_set_entry.
    destruct (String.eqb_spec (step_name st') MANIFEST) as [E | _].
    { destruct (step_name_not_manifest st') as [H _]. congruence. }
    apply in_app_or in Hin. destruct Hin as [Hin | [Heq | []]].
    + destruct (String.eqb_spec (step_name st') (step_name st)) as [E | _].
      * apply step_name_inj in E. specialize (Hlt _ Hin). unfold step_of in Hlt.
        simpl in Hlt. lia.
      * eapply Hart; eauto.
    + injection Heq as <- <- <-. rewrite String.eqb_refl. eexists. reflexivity.
  - right. now rewrite assoc_set_entry, String.eqb_refl.
  - unfold recorded. cbn [checkpoints ok].
    rewrite map_last_20, !map_app, Hkeys. cbn [map].
    now rewrite last_20_app_one.
  - unfold recorded. cbn [latest ok step]. now rewrite rev_app_distr.
Qed.

Lemma save_all_keeps_world
    (e : env) (self : NodeStateHandler) (is_main : option bool)
    (saves done : list (Z * state_dict * option Q)) (s : sys) :
  match is_main with Some b => b | None => is_main_process e end = true ->
  world_holds e self done s ->
  (forall a b, In a done -> In b saves -> step_of a < step_of b) ->
  StronglySorted Z.lt (map step_of saves) ->
  exists s',
    save_all e self is_main saves s = (Ok tt, s') /\
    world_holds e self (done ++ saves) s'.
Proof.
  intros Hmain. revert done s.
  induction saves as [|[[st state] loss] rest IH]; intros done s Hw Hlt Hsorted.
  - exists s. rewrite List.app_nil_r. now split.
  - destruct (save_keeps_world e self is_main done st state loss s Hmain Hw)
      as [s1 [Hsave Hw1]].
    { intros a Ha. apply (Hlt a (st, state, loss) Ha). now left. }
    inversion Hsorted as [|? ? Hrest Hall]; subst.
    destruct (IH (done ++ [(st, state, loss)]) s1 Hw1) as [s2 [Hrun Hw2]].
    + intros a b Ha Hb. apply in_app_or in Ha. destruct Ha as [Ha | [<- | []]].
      * apply Hlt; [exact Ha | now right].
      * rewrite Forall_forall in Hall. apply Hall. now apply in_map.
    + exact Hrest.
    + exists s2. cbn [save_all].
      rewrite (bind_ok _ _ _ _ _ _ _ Hsave).
      split; [exact Hrun|]. now rewrite <- app_assoc in Hw2.
Qed.

(** C9. From a fresh root, after a writer's saves of strictly increasing
    steps, all of which go through, the manifest lists the last twenty
    saves in order: at most twenty records, exactly twenty once more than
    twenty saves were made; and every step saved, listed or not, still
    has its directory on disk, valid and loadable. *)
Theorem manifest_history_capped
    (e : env) (self : NodeStateHandler) (is_main : option bool)
    (saves : list (Z * state_dict * option Q)) (s0 : sys) :
  match is_main with Some b => b | None => is_main_process e end = true ->
  lookup (root_dir self) (disk s0) = Some (Dir []) ->
  Sorted Z.lt (map step_of saves) ->
  exists s m,
    save_all e self is_main saves s0 = (Ok tt, s) /\
    _load_manifest self s = (Ok m, s) /\
    map entry_key (checkpoints m) = last_20 (map (saved_key self) saves) /\
    map e_step (checkpoints m) = last_20 (map step_of saves) /\
    (length (checkpoints m) <= 20)%nat /\
    ((20 < length saves)%nat -> length (checkpoints m) = 20%nat) /\
    forall st state loss, In (st, state, loss) saves ->
      _is_valid_checkpoint (disk s) (checkpoint_dir self st) = Ok true /\
      load (checkpoint_dir self st) s = (Ok state, s).
Proof.
  intros Hmain Hfresh Hsorted.
  apply Sorted_StronglySorted in Hsorted;
    [|intros x y z; apply Z.lt_trans].
  destruct (save_all_keeps_world e self is_main saves [] s0 Hmain
              (world_holds_fresh e self s0 Hfresh))
    as [s [Hrun [es [m [Hroot [Hclosed [Hart [Hm [Hkeys Hlatest]]]]]]]]];
    [intros a b [] | exact Hsorted |].
  simpl in Hkeys, Hart.
  exists s, m. split; [exact Hrun|].
  split; [exact (load_manifest_at self s es m Hroot Hm)|].
  split; [exact Hkeys|].
  assert (Hlen : length (checkpoints m) = length (last_20 saves)).
  { rewrite <- (length_map entry_key), Hkeys, <- map_last_20. apply length_map. }
  split; [|split; [|split]].
  - replace (map e_step (checkpoints m))
      with (map (fun k => fst (fst (fst k))) (map entry_key (checkpoints m)))
      by (rewrite map_map; reflexivity).
    rewrite Hkeys, map_last_20, map_map. reflexivity.
  - rewrite Hlen. apply length_last_20.
  - intros H. rewrite Hlen. apply length_last_20. lia.
  - intros st state loss Hin.
    destruct (Hart st state loss Hin) as [now Hdir].
    split.
    + rewrite is_valid_checkpoint_total.
      unfold isfile, checkpoint_dir, path_join.
      rewrite lookup_app, (lookup_child _ _ _ _ Hroot), Hdir. reflexivity.
    + unfold load, fs_try, checkpoint_dir, path_join.
      rewrite lookup_app, (lookup_child _ _ _ _ Hroot), Hdir. reflexivity.
Qed.

Lemma manifest_history_capped_witness :
  exists s m,
    save_all leader_env ckpt_handler None twenty_five_saves fresh_sys = (Ok tt, s) /\
    _load_manifest ckpt_handler s = (Ok m, s) /\
    length (checkpoints m) = 20%nat /\
    map e_step (checkpoints m) = map Z.of_nat (seq 6 20) /\
    _is_valid_checkpoint (disk s) (checkpoint_dir ckpt_handler 1) = Ok true.
Proof.
  destruct (manifest_history_capped leader_env ckpt_handler None
              twenty_five_saves fresh_sys)
    as [s [m [Hrun [Hload [_ [Hsteps [_ [Hlen Hart]]]]]]]].
  - reflexivity.
  - reflexivity.
  - vm_compute. repeat constructor.
  - exists s, m. split; [exact Hrun|]. split; [exact Hload|].
    split; [apply Hlen; vm_compute; lia|].
    split; [rewrite Hsteps; vm_compute; reflexivity|].
    apply (Hart 1 weights None). vm_compute. tauto.
Defined.

Example twenty_five_saves_keep_twenty :
  let s := snd (save_all leader_env ckpt_handler None twenty_five_saves fresh_sys) in
  option_map (fun m => map e_step (checkpoints m))
    (match fst (_load_manifest ckpt_handler s) with Ok m => Some m | Raise _ => None end)
    = Some (map Z.of_nat (seq 6 20)) /\
  fst (latest_checkpoint ckpt_handler s)
    = Ok (Some (CheckpointInfo_at 25 ["ckpt"; "step_00000025"])) /\
  _is_valid_checkpoint (disk s) ["ckpt"; "step_00000001"] = Ok true.
Proof. vm_compute. repeat split. Qed.

(* ===================================================================== *)
(** * More on the retry supervisor *)
(* ===================================================================== *)

Section SupervisorRuns.

Variable W : Type.
Variable fn : proc W -> proc W * option BaseException.
Variable time_sleep : Q -> proc W -> proc W * option BaseException.
Variable p : RetryPolicy.

(** A work that fails with transient faults up to call [k] and returns
    there, entered at call [j] with enough retries left. *)
Lemma retry_loop_recovers (k j : nat) (s0 : proc W) :
  Z.of_nat k <= max_retries p -> (k <= 1024)%nat ->
  (0 <= base_backoff p)%Q -> (0 <= max_backoff p)%Q ->
  (forall d s, (0 <= d)%Q -> (d <= max_backoff p)%Q -> snd (time_sleep d s) = None) ->
  (forall i, (i < k)%nat ->
     exists e, snd (fn (before_call fn time_sleep p i s0)) = Some e /\
               classify_fault e = RETRIABLE) ->
  snd (fn (before_call fn time_sleep p k s0)) = None ->
  (j <= k)%nat ->
  exists evs,
    retry_loop fn time_sleep p (Z.of_nat j) (before_call fn time_sleep p j s0)
      = (fst (fn (before_call fn time_sleep p k s0)), evs, Returned) /\
    calls evs = S (k - j).
Proof.
  intros Hk Hk' Hbase Hmax Hsleep Hfail Hret.
  remember (k - j)%nat as n eqn:Hn.
  revert j Hn. induction n as [|n IH]; intros j Hn Hj.
  - assert (j = k) by lia. subst j.
    rewrite (retry_loop_unfold W fn time_sleep p).
    destruct (fn (before_call fn time_sleep p k s0)) as [s1 o]. simpl in Hret. subst o.
    eexists. split; reflexivity.
  - destruct (Hfail j ltac:(lia)) as [e [E C]].
    destruct (fn (before_call fn time_sleep p j s0)) as [s1 o] eqn:Efn.
    simpl in E. subst o.
    assert (Hlt : Z.of_nat j < 1024) by lia.
    pose proof (backoff_for_below p _ Hlt) as Hd.
    destruct (backoff_for_range p _ _ Hd) as [Hle Hpos].
    specialize (Hpos Hbase Hmax).
    set (d := py_min (max_backoff p) (base_backoff p * Qpower (2 # 1) (Z.of_nat j))) in *.
    pose proof (Hsleep d s1 Hpos Hle) as Hs.
    destruct (time_sleep d s1) as [s2 o] eqn:Es. simpl in Hs. subst o.
    assert (Hlt' : Z.of_nat j < max_retries p) by lia.
    rewrite (retry_loop_retry W fn time_sleep p _ _ _ _ _ _ Efn C Hlt' Hd Es).
    rewrite <- (before_call_succ W fn time_sleep p _ _ _ _ _ _ Efn Hd Es).
    replace (Z.of_nat j + 1) with (Z.of_nat (S j)) by lia.
    destruct (IH (S j) ltac:(lia) ltac:(lia)) as [evs [R Hc]].
    rewrite R. eexists. split; [reflexivity|].
    unfold calls in *. cbn [filter is_call length]. rewrite Hc. lia.
Qed.

End SupervisorRuns.

(** X1. A work that fails with transient faults [k] times and then
    returns, [k] within the policy's retries and below the attempt whose
    delay does not compute, under delays that are not negative and a
    sleep that returns: the run returns after [k + 1] calls and [k]
    sleeps, the delays of attempts 0 to [k - 1]. *)
Theorem run_with_retries_recovers
    (W : Type) (fn : proc W -> proc W * option BaseException)
    (time_sleep : Q -> proc W -> proc W * option BaseException)
    (p : RetryPolicy) (k : nat) (s : proc W) :
  Z.of_nat k <= max_retries p -> (k <= 1024)%nat ->
  (0 <= base_backoff p)%Q -> (0 <= max_backoff p)%Q ->
  (forall d s0, (0 <= d)%Q -> (d <= max_backoff p)%Q -> snd (time_sleep d s0) = None) ->
  (forall i, (i < k)%nat ->
     exists e, snd (fn (before_call fn time_sleep p i s)) = Some e /\
               classify_fault e = RETRIABLE) ->
  snd (fn (before_call fn time_sleep p k s)) = None ->
  exists evs,
    run_with_retries fn time_sleep p s
      = (fst (fn (before_call fn time_sleep p k s)), evs, Returned) /\
    calls evs = S k /\
    map Ok (sleeps evs) = map (fun i => backoff_for p (Z.of_nat i)) (seq 0 k).
Proof.
  intros Hk Hk' Hbase Hmax Hsleep Hfail Hret.
  destruct (retry_loop_recovers W fn time_sleep p k 0 s Hk Hk' Hbase Hmax Hsleep Hfail Hret
              ltac:(lia)) as [evs [R Hc]].
  exists evs. split; [exact R|]. rewrite Nat.sub_0_r in Hc. split; [exact Hc|].
  pose proof (retry_loop_sleeps W fn time_sleep p 0 s) as Hs.
  simpl in R. rewrite R in Hs. destruct Hs as [_ Hs].
  rewrite Hs, Hc. simpl. rewrite Nat.sub_0_r. reflexivity.
Qed.

Lemma run_with_retries_recovers_witness :
  exists evs,
    run_with_retries flaky_once quiet_sleep default_policy (mkProc 0%nat new_terminator)
      = (fst (flaky_once (before_call flaky_once quiet_sleep default_policy 1
                            (mkProc 0%nat new_terminator))), evs, Returned) /\
    calls evs = 2%nat /\
    map Ok (sleeps evs) = map (fun i => backoff_for default_policy (Z.of_nat i)) (seq 0 1).
Proof.
  apply (run_with_retries_recovers nat flaky_once quiet_sleep default_policy 1
           (mkProc 0%nat new_terminator)).
  - simpl; lia.
  - lia.
  - unfold Qle; simpl; lia.
  - unfold Qle; simpl; lia.
  - intros d s0 H0 H1. now rewrite quiet_sleep_returns.
  - intros i Hi. assert (i = 0)%nat by lia. subst i.
    exists nccl_timeout. split; reflexivity.
  - reflexivity.
Defined.

Lemma map_ok_forall (A B : Type) (f : B -> result A) (P : A -> Prop)
    (l : list A) (l' : list B) :
  map Ok l = map f l' -> (forall b a, f b = Ok a -> P a) -> Forall P l.
Proof.
  revert l'; induction l as [|a l IH]; intros [|b l'] H HP; try discriminate;
    constructor.
  - simpl in H. injection H as H _. symmetry in H. exact (HP b a H).
  - simpl in H. injection H as _ H. exact (IH l' H HP).
Qed.

Lemma total_sleep_bound (bound : Q) (ds : list Q) :
  Forall (fun d => d <= bound)%Q ds ->
  (fold_right Qplus 0 ds <= inject_Z (Z.of_nat (length ds)) * bound)%Q.
Proof.
  induction 1 as [|d ds Hd _ IH]; simpl fold_right; simpl length.
  - rewrite Qmult_0_l. apply Qle_refl.
  - rewrite Nat2Z.inj_succ, <- Z.add_1_l, inject_Z_plus, Qmult_plus_distr_l, Qmult_1_l.
    now apply Qplus_le_compat.
Qed.

(** X2. Whatever the work and the sleep do, under a policy whose base
    delay is not negative, a run calls the work at least once, at most
    [max(0, max_retries) + 1] times and at most 1025 times; one sleep
    returns between two calls, none longer than [max_backoff], so the
    run sleeps no longer than [(calls - 1) * max_backoff] in all. *)
Theorem run_with_retries_bounds
    (W : Type) (fn : proc W -> proc W * option BaseException)
    (time_sleep : Q -> proc W -> proc W * option BaseException)
    (p : RetryPolicy) (s : proc W) :
  (0 <= base_backoff p)%Q ->
  let '(_, evs, _) := run_with_retries fn time_sleep p s in
  (1 <= calls evs)%nat /\
  Z.of_nat (calls evs) <= Z.max 0 (max_retries p) + 1 /\
  (calls evs <= 1025)%nat /\
  length (sleeps evs) = (calls evs - 1)%nat /\
  Forall (fun d => d <= max_backoff p)%Q (sleeps evs) /\
  (total_sleep evs <= inject_Z (Z.of_nat (calls evs - 1)) * max_backoff p)%Q.
Proof.
  intros _. unfold run_with_retries.
  pose proof (retry_loop_sleeps W fn time_sleep p 0 s) as Hs.
  pose proof (retry_loop_call_bound W fn time_sleep p 0 s) as Hb.
  destruct (retry_loop fn time_sleep p 0 s) as [[s' evs] out].
  destruct Hs as [Hc Hm]. destruct Hb as [Hb1 Hb2].
  assert (Hlen : length (sleeps evs) = (calls evs - 1)%nat).
  { apply (f_equal (@length _)) in Hm. now rewrite !length_map, length_seq in Hm. }
  assert (Hall : Forall (fun d => d <= max_backoff p)%Q (sleeps evs)).
  { apply (map_ok_forall _ _ _ _ _ _ Hm). intros i d Hd.
    apply (backoff_for_range p _ _ Hd). }
  split; [exact Hc|]. split; [rewrite Z.sub_0_r in Hb1; exact Hb1|].
  split; [lia|]. split; [exact Hlen|]. split; [exact Hall|].
  unfold total_sleep. rewrite <- Hlen. now apply total_sleep_bound.
Qed.

Lemma run_with_retries_bounds_witness :
  let '(_, evs, _) :=
    run_with_retries always_timeout quiet_sleep default_policy (mkProc tt new_terminator) in
  (1 <= calls evs)%nat /\
  Z.of_nat (calls evs) <= Z.max 0 (max_retries default_policy) + 1 /\
  (calls evs <= 1025)%nat /\
  length (sleeps evs) = (calls evs - 1)%nat /\
  Forall (fun d => d <= max_backoff default_policy)%Q (sleeps evs) /\
  (total_sleep evs <= inject_Z (Z.of_nat (calls evs - 1)) * max_backoff default_policy)%Q.
Proof.
  apply (run_with_retries_bounds unit always_timeout quiet_sleep default_policy
           (mkProc tt new_terminator)).
  unfold Qle; simpl; lia.
Defined.

(** X3. Under a policy whose base delay is not negative: when a run
    ends with a failure, it is a failure the work
    raised, which is not transient or came when the work had already
    been called more than [max_retries] times; or it is the
    [OverflowError] of the delay of attempt 1024, after 1025 calls; or it
    is a failure [time.sleep] raised. *)
Theorem run_with_retries_failure_cause
    (W : Type) (fn : proc W -> proc W * option BaseException)
    (time_sleep : Q -> proc W -> proc W * option BaseException)
    (p : RetryPolicy) (s s' : proc W) (evs : list event) (e : BaseException) :
  (0 <= base_backoff p)%Q ->
  run_with_retries fn time_sleep p s = (s', evs, Raised e) ->
  (exists s0 s1, fn s0 = (s1, Some e) /\
     (classify_fault e = NON_RETRIABLE \/
      (classify_fault e = RETRIABLE /\ max_retries p < Z.of_nat (calls evs)))) \/
  (e = OverflowError /\ calls evs = 1025%nat) \/
  (exists d s0 s1, time_sleep d s0 = (s1, Some e)).
Proof.
  intros _ H. unfold run_with_retries in H.
  destruct (retry_loop_raised W fn time_sleep p 0 s s' evs e H)
    as [[s0 [s1 [E [C | [C Hm]]]]] | [[-> Ho] | Hsl]].
  - left. exists s0, s1. auto.
  - left. exists s0, s1. split; [exact E|]. right. split; [exact C | lia].
  - right. left. split; [reflexivity | lia].
  - right. right. exact Hsl.
Qed.

Lemma run_with_retries_failure_cause_witness :
  (exists s0 s1, always_timeout s0 = (s1, Some nccl_timeout) /\
     (classify_fault nccl_timeout = NON_RETRIABLE \/
      (classify_fault nccl_timeout = RETRIABLE /\
       max_retries default_policy
       < Z.of_nat (calls [ EvCall; EvLogRetry nccl_timeout (10 # 1) 1; EvSleep (10 # 1);
                           EvCall; EvLogRetry nccl_timeout (20 # 1) 2; EvSleep (20 # 1);
                           EvCall; EvLogRetry nccl_timeout (40 # 1) 3; EvSleep (40 # 1);
                           EvCall; EvLogFatal nccl_timeout ])))) \/
  (nccl_timeout = OverflowError /\
   calls [ EvCall; EvLogRetry nccl_timeout (10 # 1) 1; EvSleep (10 # 1);
           EvCall; EvLogRetry nccl_timeout (20 # 1) 2; EvSleep (20 # 1);
           EvCall; EvLogRetry nccl_timeout (40 # 1) 3; EvSleep (40 # 1);
           EvCall; EvLogFatal nccl_timeout ] = 1025%nat) \/
  (exists d (s0 s1 : proc unit), quiet_sleep d s0 = (s1, Some nccl_timeout)).
Proof.
  apply (run_with_retries_failure_cause unit always_timeout quiet_sleep default_policy
           (mkProc tt new_terminator) (mkProc tt new_terminator)).
  - unfold Qle; simpl; lia.
  - reflexivity.
Defined.




Lemma str_app_assoc (a b c : string) : ((a ++ b) ++ c = a ++ (b ++ c))%string.
Proof. induction a as [|x a IH]; simpl; [reflexivity | now rewrite IH]. Qed.

(** X5. The class of a failure depends on its text up to letter case
    only, not on the exception's class; and a transient text stays
    transient with any text before and after it. *)
Theorem classify_fault_stable (exc : BaseException) :
  (forall exc', lower (exc_str exc') = lower (exc_str exc) ->
     classify_fault exc' = classify_fault exc) /\
  (classify_fault exc = RETRIABLE ->
     forall cls pre suf,
       classify_fault (mkExc cls (pre ++ exc_str exc ++ suf)%string) = RETRIABLE).
Proof.
  split.
  - intros exc' H. unfold classify_fault. now rewrite H.
  - unfold classify_fault. cbn [exc_str]. intros H cls pre suf.
    apply scan_signatures_retriable in H. destruct H as [sig [Hin Hs]].
    apply scan_signatures_retriable. exists sig. split; [exact Hin|].
    apply str_in_iff in Hs. destruct Hs as [a [b Hs]].
    apply str_in_iff. rewrite !lower_app, Hs.
    exists (lower pre ++ a)%string, (b ++ lower suf)%string.
    now rewrite !str_app_assoc.
Qed.

Lemma classify_fault_stable_witness :
  classify_fault
    (mkExc "OSError"
       ("rank 3: " ++ exc_str (mkExc "RuntimeError" "NCCL timeout") ++ " after 30s")%string)
  = RETRIABLE.
Proof.
  apply (proj2 (classify_fault_stable (mkExc "RuntimeError" "NCCL timeout"))).
  vm_compute. reflexivity.
Defined.

(* ===================================================================== *)
(** * Properties: launch coordinator *)
(* ===================================================================== *)

Import Nodes.
Local Open Scope string_scope.

Lemma digits_nonempty (n : N) : digits n <> EmptyString.
Proof.
  unfold digits. destruct n as [|q]; [discriminate|].
  simpl. pose proof (DecimalPos.Unsigned.to_uint_nonnil q) as H.
  destruct (Pos.to_uint q); simpl; try discriminate. now destruct H.
Qed.

Lemma int_digits_digits (n : N) : int_digits (digits n) = Some (Z.of_N n).
Proof.
  unfold int_digits. pose proof (digits_nonempty n) as Hne.
  pose proof (parse_zfill 0 n) as Hp. unfold zfill in Hp. simpl in Hp.
  rewrite digits_all_digit, Hp.
  destruct (digits n); [now destruct Hne | reflexivity].
Qed.

(** Reading back what [str] wrote gives the number. *)
Lemma int_str_str_int (n : Z) : int_str (str_int n) = Some n.
Proof.
  unfold str_int. destruct (Z.ltb_spec n 0) as [H | H].
  - simpl. rewrite int_digits_digits. simpl. f_equal.
    rewrite N2Z.inj_abs_N. lia.
  - pose proof (int_digits_digits (Z.abs_N n)) as Hd.
    pose proof (digits_all_digit (Z.abs_N n)) as Ha.
    unfold int_str. destruct (digits (Z.abs_N n)) as [|c r] eqn:E.
    + now destruct (digits_nonempty (Z.abs_N n)).
    + rewrite Hd, N2Z.inj_abs_N, Z.abs_eq by lia.
      simpl in Ha. apply andb_true_iff in Ha. destruct Ha as [Hc _].
      destruct c as [[] [] [] [] [] [] [] []]; try reflexivity; discriminate.
Qed.

(** X6. With node ranks below [num_nodes] and local ranks below
    [gpus_per_node], every worker's global rank lies in
    [0 .. world_size - 1], and two workers of the job (same
    [gpus_per_node]) have the same global rank only if they are the same
    worker of the same node. *)
Theorem global_rank_in_range_and_unique
    (config config' : LaunchConfig) (local_rank local_rank' : Z) :
  gpus_per_node config' = gpus_per_node config ->
  0 <= node_rank config < num_nodes config ->
  0 <= node_rank config' ->
  0 <= local_rank < gpus_per_node config ->
  0 <= local_rank' < gpus_per_node config ->
  0 <= global_rank config local_rank < world_size config /\
  (global_rank config local_rank = global_rank config' local_rank' ->
     node_rank config = node_rank config' /\ local_rank = local_rank').
Proof.
  unfold global_rank, world_size. intros -> Hn Hn' Hl Hl'. split; [nia|].
  intros H. assert (node_rank config = node_rank config') by nia. split; [auto | nia].
Qed.

Lemma global_rank_in_range_and_unique_witness :
  0 <= global_rank two_by_four 3 < world_size two_by_four /\
  (global_rank two_by_four 3 = global_rank two_by_four 2 ->
     node_rank two_by_four = node_rank two_by_four /\ 3 = 2).
Proof.
  apply (global_rank_in_range_and_unique two_by_four two_by_four 3 2);
    simpl; try reflexivity; lia.
Defined.

(** X7. When the entry point starts, the rank and topology variables
    read back as numbers give the worker's global rank, the world size,
    the local rank and the local world size; the address and port are
    those of the configuration; [TORCH_BACKEND] is set only for a
    non-empty backend; every other variable and the job's state are as
    before; the device is the local rank when CUDA is there. *)
Theorem wrap_worker_exports
    (W : Type) (cuda : bool) (local_rank : Z)
    (entrypoint : Z -> kwargs -> wproc W -> wproc W * option BaseException)
    (config : LaunchConfig) (worker_kwargs : kwargs) (s : wproc W) :
  exists s1,
    _wrap_worker cuda local_rank entrypoint config worker_kwargs s
      = entrypoint local_rank worker_kwargs s1 /\
    option_map int_str (os_environ s1 "RANK") = Some (Some (global_rank config local_rank)) /\
    option_map int_str (os_environ s1 "WORLD_SIZE") = Some (Some (world_size config)) /\
    option_map int_str (os_environ s1 "LOCAL_RANK") = Some (Some local_rank) /\
    option_map int_str (os_environ s1 "LOCAL_WORLD_SIZE") = Some (Some (gpus_per_node config)) /\
    os_environ s1 "MASTER_ADDR" = Some (master_addr config) /\
    option_map int_str (os_environ s1 "MASTER_PORT") = Some (Some (master_port config)) /\
    os_environ s1 "TORCH_BACKEND"
      = match backend config with
        | Some (String c r) => Some (String c r)
        | _ => os_environ s "TORCH_BACKEND"
        end /\
    (forall k,
       ~ In k ["RANK"; "WORLD_SIZE"; "LOCAL_RANK"; "LOCAL_WORLD_SIZE";
               "MASTER_ADDR"; "MASTER_PORT"; "TORCH_BACKEND"] ->
       os_environ s1 k = os_environ s k) /\
    cuda_device s1 = (if cuda then Some local_rank else cuda_device s) /\
    job s1 = job s.
Proof.
  exists (export_topology cuda local_rank config s).
  split; [reflexivity|].
  assert (Hb : forall k, k <> "TORCH_BACKEND" ->
            os_environ (export_topology cuda local_rank config s) k
            = setenv "MASTER_PORT" (str_int (master_port config))
                (setenv "MASTER_ADDR" (master_addr config)
                   (setenv "LOCAL_WORLD_SIZE" (str_int (gpus_per_node config))
                      (setenv "LOCAL_RANK" (str_int local_rank)
                         (setenv "WORLD_SIZE" (str_int (world_size config))
                            (setenv "RANK" (str_int (global_rank config local_rank))
                               (os_environ s)))))) k).
  { intros k Hk. unfold export_topology. cbn [os_environ].
    destruct (backend config) as [[|c r]|]; try reflexivity.
    unfold setenv at 1. destruct (String.eqb_spec k "TORCH_BACKEND"); [contradiction|].
    reflexivity. }
  repeat split.
  - rewrite Hb by discriminate. unfold setenv; simpl. now rewrite int_str_str_int.
  - rewrite Hb by discriminate. unfold setenv; simpl. now rewrite int_str_str_int.
  - rewrite Hb by discriminate. unfold setenv; simpl. now rewrite int_str_str_int.
  - rewrite Hb by discriminate. unfold setenv; simpl. now rewrite int_str_str_int.
  - rewrite Hb by discriminate. reflexivity.
  - rewrite Hb by discriminate. unfold setenv; simpl. now rewrite int_str_str_int.
  - unfold export_topology. cbn [os_environ].
    destruct (backend config) as [[|c r]|]; reflexivity.
  - intros k Hk. rewrite Hb by (intros ->; apply Hk; simpl; tauto).
    unfold setenv.
    repeat match goal with
    | |- context [String.eqb k ?x] =>
        destruct (String.eqb_spec k x); [subst; exfalso; apply Hk; simpl; tauto|]
    end.
    reflexivity.
Qed.

Example two_by_four_rank :
  option_map int_str
    (os_environ (export_topology true 3 two_by_four bare_wproc) "RANK") = Some (Some 7) /\
  os_environ (export_topology true 3 two_by_four bare_wproc) "WORLD_SIZE" = Some "8" /\
  os_environ (export_topology true 3 two_by_four bare_wproc) "TORCH_BACKEND" = Some "nccl".
Proof. vm_compute. repeat split. Qed.

(* ===================================================================== *)
(** * More on the file system *)
(* ===================================================================== *)

Local Open Scope list_scope.

Section TreeMore.

Variable C : Type.
Implicit Types (t c : node C) (es : list (string * node C)) (p q : Fs.path).

Lemma set_entry_same n c es : assoc n es = Some c -> set_entry n c es = es.
Proof.
  induction es as [|[m w] r IH]; simpl; [discriminate|].
  destruct (String.eqb_spec n m) as [-> | _].
  - intros H; now injection H as ->.
  - intros H. now rewrite IH.
Qed.

(** [os.makedirs(p, exist_ok=True)] on a directory that is there. *)
Lemma makedirs_existing p t es : lookup p t = Some (Dir es) -> makedirs p t = Ok t.
Proof.
  revert t; induction p as [|n p IH]; intros t; simpl.
  - intros H; injection H as ->. reflexivity.
  - destruct t as [x | es0]; [discriminate|].
    destruct (assoc n es0) as [c|] eqn:E; [|discriminate].
    intros H. rewrite (IH _ H). now rewrite set_entry_same.
Qed.

(** A call that works inside the directory [p] raises when [p] is not a
    directory. *)
Lemma with_dir_not_dir p f t :
  (forall es, lookup p t <> Some (Dir es)) -> exists e, with_dir p f t = Raise e.
Proof.
  revert t; induction p as [|n p IH]; intros t H.
  - destruct t as [x | es]; simpl; [eauto | now destruct (H es)].
  - destruct t as [x | es]; simpl; [eauto|].
    simpl in H. destruct (assoc n es) as [c|]; [|eauto].
    destruct (IH c H) as [e He]. rewrite He. eauto.
Qed.

(** The rename of a directory onto a directory that holds something. *)
Lemma replace_child_not_empty p t es a b x y r :
  lookup p t = Some (Dir es) ->
  a <> b ->
  assoc a es = Some (Dir x) ->
  assoc b es = Some (Dir (y :: r)) ->
  replace (p ++ [a]) (p ++ [b]) t = Raise DirectoryNotEmpty.
Proof.
  intros Hroot Hab Ha Hb. unfold replace.
  rewrite (lookup_child _ _ _ _ Hroot), Ha, !split_last_app, Hroot, Hb.
  destruct (list_eq_dec string_dec (p ++ [a]) (p ++ [b])) as [E | _];
    [|reflexivity].
  apply app_inv_head in E. congruence.
Qed.

End TreeMore.

(* ===================================================================== *)
(** * More on the names of checkpoint directories *)
(* ===================================================================== *)

Local Open Scope string_scope.

Lemma of_uint_acc_value (l : Decimal.uint) (acc : positive) :
  Z.pos (Pos.of_uint_acc l acc)
  = Z.pos acc * 10 ^ Z.of_nat (Decimal.nb_digits l) + Z.of_N (Pos.of_uint l).
Proof.
  revert acc; induction l; intros acc;
    cbn [Pos.of_uint_acc Pos.of_uint Decimal.nb_digits Z.of_N];
    rewrite ?Nat2Z.inj_succ, ?Z.pow_succ_r by lia;
    rewrite ?IHl, ?Pos2Z.inj_add, ?Pos2Z.inj_mul;
    try (simpl; lia); ring.
Qed.

(** [int] on the decimal writing of a number, read after [acc]. *)
Lemma int_of_digits_value (d : Decimal.uint) (acc : Z) :
  int_of_digits acc (NilEmpty.string_of_uint d)
  = acc * 10 ^ Z.of_nat (Decimal.nb_digits d) + Z.of_N (N.of_uint d).
Proof.
  unfold N.of_uint.
  revert acc; induction d; intros acc;
    cbn [NilEmpty.string_of_uint int_of_digits Decimal.nb_digits Pos.of_uint Z.of_N];
    rewrite ?Nat2Z.inj_succ, ?Z.pow_succ_r by lia;
    rewrite ?IHd, ?of_uint_acc_value;
    try (simpl; lia);
    change (Z.of_N (N_of_ascii "0") - 48) with 0;
    change (Z.of_N (N_of_ascii "1") - 48) with 1;
    change (Z.of_N (N_of_ascii "2") - 48) with 2;
    change (Z.of_N (N_of_ascii "3") - 48) with 3;
    change (Z.of_N (N_of_ascii "4") - 48) with 4;
    change (Z.of_N (N_of_ascii "5") - 48) with 5;
    change (Z.of_N (N_of_ascii "6") - 48) with 6;
    change (Z.of_N (N_of_ascii "7") - 48) with 7;
    change (Z.of_N (N_of_ascii "8") - 48) with 8;
    change (Z.of_N (N_of_ascii "9") - 48) with 9;
    ring.
Qed.

(** A digit of ASCII is one byte to decode and a decimal digit. *)
Lemma decode_ascii_digit (c : ascii) (r : string) :
  is_digit c = true ->
  decode_char (String c r) = Some (N_of_ascii c, r) /\
  decimal_value (N_of_ascii c) = Some (N_of_ascii c - 48)%N.
Proof.
  destruct c as [[] [] [] [] [] [] [] []]; try discriminate; intros _; split; reflexivity.
Qed.

(** The run of decimal digits at the head of a string of ASCII digits
    that ends there or goes on with a byte that starts no digit. *)
Lemma decimal_run_ascii (s rest : string) (fuel : nat) :
  all_chars is_digit s = true ->
  (String.length s < fuel)%nat ->
  decimal_run 1 rest = [] ->
  decimal_run fuel (s ++ rest)
  = map (fun c => (N_of_ascii c - 48)%N) (list_ascii_of_string s).
Proof.
  revert fuel; induction s as [|c s IH]; intros fuel Hs Hf Hrest.
  - destruct fuel as [|fuel]; [reflexivity|]. simpl in *.
    destruct (decode_char rest) as [[cp r]|]; [|reflexivity].
    destruct (decimal_value cp); [discriminate | reflexivity].
  - simpl in Hs. apply andb_true_iff in Hs. destruct Hs as [Hc Hs].
    destruct fuel as [|fuel]; [simpl in Hf; lia|].
    destruct (decode_ascii_digit c (s ++ rest) Hc) as [Hd Hv].
    cbn [decimal_run append list_ascii_of_string map]. rewrite Hd, Hv.
    f_equal. apply IH; [exact Hs | simpl in Hf; lia | exact Hrest].
Qed.

Lemma int_of_decimals_ascii (s : string) :
  all_chars is_digit s = true ->
  int_of_decimals (map (fun c => (N_of_ascii c - 48)%N) (list_ascii_of_string s))
  = int_of_digits 0 s.
Proof.
  unfold int_of_decimals. generalize 0 as acc.
  induction s as [|c s IH]; intros acc Hs; simpl; [reflexivity|].
  simpl in Hs. apply andb_true_iff in Hs. destruct Hs as [Hc Hs].
  rewrite IH by exact Hs. f_equal.
  unfold is_digit in Hc. apply andb_true_iff in Hc. destruct Hc as [Hc _].
  apply N.leb_le in Hc. lia.
Qed.

Lemma str_length_app (a b : string) :
  String.length (a ++ b) = (String.length a + String.length b)%nat.
Proof. induction a as [|x a IH]; simpl; [reflexivity | now rewrite IH]. Qed.

Lemma zfill_as_uint (w : nat) (n : N) :
  exists k, zfill w (digits n) = NilEmpty.string_of_uint (Nat.iter k Decimal.D0 (N.to_uint n)).
Proof.
  unfold zfill, digits. exists (w - String.length (NilEmpty.string_of_uint (N.to_uint n)))%nat.
  generalize (w - String.length (NilEmpty.string_of_uint (N.to_uint n)))%nat as k.
  induction k as [|k IH]; simpl; [reflexivity | now rewrite IH].
Qed.

Lemma int_of_digits_zfill (w : nat) (n : N) :
  int_of_digits 0 (zfill w (digits n)) = Z.of_N n.
Proof.
  destruct (zfill_as_uint w n) as [k ->].
  rewrite int_of_digits_value. simpl (0 * _ + _). f_equal.
  induction k as [|k IH]; simpl; [apply DecimalN.Unsigned.of_to | exact IH].
Qed.

Lemma zfill_nonempty (w : nat) (n : N) : zfill w (digits n) <> EmptyString.
Proof.
  unfold zfill. pose proof (digits_nonempty n) as H.
  destruct (string_of_list_ascii (repeat "0"%char (w - String.length (digits n))));
    simpl; [exact H | discriminate].
Qed.

(** X9. The directory name of a step that is not negative reads back
    as that step, and so does the name of its temporary directory; the
    name of a negative step does not match the scan's pattern. *)
Theorem match_step_step_name (st : Z) :
  (0 <= st -> match_step (step_name st) = Some st) /\
  (0 <= st -> match_step (step_name st ++ ".tmp") = Some st) /\
  (st < 0 -> match_step (step_name st) = None).
Proof.
  assert (Hs : forall x, startswith "step_" ("step_" ++ x) = true) by reflexivity.
  assert (Hk : forall x, skip 5 ("step_" ++ x) = x) by reflexivity.
  assert (Hl : forall x, String.length ("step_" ++ x) = (5 + String.length x)%nat)
    by reflexivity.
  unfold match_step, step_name, format_08d.
  change (("step_" ++ (if (st <? 0)%Z then "-" ++ zfill 7 (digits (Z.abs_N st))
                       else zfill 8 (digits (Z.abs_N st)))) ++ ".tmp")
    with ("step_" ++ ((if (st <? 0)%Z then "-" ++ zfill 7 (digits (Z.abs_N st))
                       else zfill 8 (digits (Z.abs_N st))) ++ ".tmp")).
  rewrite !Hs, !Hk, !Hl.
  destruct (Z.ltb_spec st 0) as [Hneg | Hpos].
  - split; [lia|]. split; [lia|]. intros _. reflexivity.
  - assert (Hval : int_of_digits 0 (zfill 8 (digits (Z.abs_N st))) = st).
    { rewrite int_of_digits_zfill, N2Z.inj_abs_N. lia. }
    pose proof (zfill_nonempty 8 (Z.abs_N st)) as Hne.
    pose proof (zfill_all_digit 8 (Z.abs_N st)) as Hall.
    rewrite <- (int_of_decimals_ascii _ Hall) in Hval.
    assert (Hrun : forall rest, decimal_run 1 rest = [] ->
              decimal_run (5 + String.length (zfill 8 (digits (Z.abs_N st)) ++ rest))
                (zfill 8 (digits (Z.abs_N st)) ++ rest)
              = map (fun c => (N_of_ascii c - 48)%N)
                  (list_ascii_of_string (zfill 8 (digits (Z.abs_N st))))).
    { intros rest Hrest. apply decimal_run_ascii; [exact Hall | | exact Hrest].
      rewrite str_length_app. lia. }
    pose proof (Hrun EmptyString eq_refl) as H0.
    pose proof (Hrun ".tmp" eq_refl) as H1.
    replace (zfill 8 (digits (Z.abs_N st)) ++ EmptyString)
      with (zfill 8 (digits (Z.abs_N st))) in H0
      by (clear; induction (zfill 8 (digits (Z.abs_N st))) as [|c z IH];
          simpl; [reflexivity | now rewrite <- IH]).
    rewrite H0, H1.
    assert (Hds : map (fun c => (N_of_ascii c - 48)%N)
                    (list_ascii_of_string (zfill 8 (digits (Z.abs_N st)))) <> []).
    { destruct (zfill 8 (digits (Z.abs_N st))); [now destruct Hne | discriminate]. }
    revert Hval Hds.
    generalize (map (fun c => (N_of_ascii c - 48)%N)
                  (list_ascii_of_string (zfill 8 (digits (Z.abs_N st))))) as ds.
    intros ds Hval Hds. destruct ds as [|d ds]; [now destruct Hds|].
    rewrite Hval. repeat split; lia.
Qed.

Lemma match_step_step_name_witness :
  match_step (step_name 7 ++ ".tmp") = Some 7.
Proof. apply (proj1 (proj2 (match_step_step_name 7))). lia. Defined.

(** The pattern's digits are those of Unicode: a name written with the
    Arabic-Indic digit three (the bytes D9 A3) is step 3, and the bytes
    of an overlong form of an ASCII digit are no digit. *)
Example match_step_arabic_indic :
  match_step ("step_" ++ String (ascii_of_N 217) (String (ascii_of_N 163) EmptyString))
    = Some 3 /\
  match_step ("step_" ++ String (ascii_of_N 192) (String (ascii_of_N 179) EmptyString))
    = None.
Proof. vm_compute. split; reflexivity. Qed.

Lemma path_join_inj (p : Fs.path) (a b : string) : (p ++ [a] = p ++ [b])%list -> a = b.
Proof. intros H. apply app_inv_head in H. now injection H. Qed.

(** X10. Two steps have the same checkpoint directory only when they
    are the same step; no step's temporary directory is another step's
    directory; and neither is the manifest or its temporary file. *)
Theorem checkpoint_dir_distinct (self : NodeStateHandler) (a b : Z) :
  (checkpoint_dir self a = checkpoint_dir self b <-> a = b) /\
  add_suffix (checkpoint_dir self a) ".tmp" <> checkpoint_dir self b /\
  checkpoint_dir self a <> manifest_path self /\
  checkpoint_dir self a <> add_suffix (manifest_path self) ".tmp" /\
  add_suffix (checkpoint_dir self a) ".tmp" <> manifest_path self /\
  add_suffix (checkpoint_dir self a) ".tmp" <> add_suffix (manifest_path self) ".tmp".
Proof.
  unfold checkpoint_dir, manifest_path, path_join. rewrite !add_suffix_app.
  destruct (step_name_not_manifest a) as [H1 [H2 [H3 H4]]].
  split.
  - split; [|now intros ->].
    intros H. apply path_join_inj in H. now apply step_name_inj.
  - repeat split; intros H; apply path_join_inj in H; try contradiction.
    now apply step_name_tmp_neq in H.
Qed.

(* ===================================================================== *)
(** * More on the checkpoint handler *)
(* ===================================================================== *)

Local Open Scope list_scope.

Lemma isdir_entries (C : Type) (t : node C) (p : Fs.path) :
  isdir t p = true -> exists es, lookup p t = Some (Dir es).
Proof.
  unfold isdir. destruct (lookup p t) as [[x | es]|]; try discriminate. eauto.
Qed.

Lemma lookup_under (C : Type) (p q : Fs.path) (t : node C) es :
  lookup p t = Some (Dir es) -> lookup (p ++ q) t = lookup q (Dir es).
Proof. intros H. now rewrite lookup_app, H. Qed.

Lemma append_tmp_neq (n : string) : (n ++ ".tmp")%string <> n.
Proof.
  intros H. apply (f_equal String.length) in H.
  rewrite str_length_app in H. simpl in H. lia.
Qed.

Lemma free_name (C : Type) (t : node C) (p : Fs.path) (n : string) es :
  lookup p t = Some (Dir es) -> exists_ t (p ++ [n]) = false -> assoc n es = None.
Proof.
  intros Hroot. rewrite (exists_child _ _ _ _ Hroot).
  destruct (assoc n es); [discriminate | reflexivity].
Qed.

(** What [_load_manifest] returned is what the root directory stands
    for, and reading does not move the world. *)
Lemma load_manifest_inv (self : NodeStateHandler) (s : sys) es m :
  lookup (root_dir self) (disk s) = Some (Dir es) ->
  fst (_load_manifest self s) = Ok m -> manifest_at es m.
Proof.
  intros Hroot.
  unfold _load_manifest, bind, fs_read, manifest_path, path_join. cbv beta.
  rewrite (exists_child _ _ _ _ Hroot). unfold manifest_at.
  destruct (assoc MANIFEST es) as [v|] eqn:E; cbn [negb].
  - unfold fs_try, read_manifest. rewrite (lookup_child _ _ _ _ Hroot), E.
    destruct v as [[| m' | |]|]; simpl; try discriminate.
    intros H; injection H as ->. now right.
  - simpl. intros H; injection H as <-. now left.
Qed.

Lemma load_manifest_readonly (self : NodeStateHandler) (s : sys) :
  snd (_load_manifest self s) = s.
Proof.
  unfold _load_manifest, bind, fs_read, fs_try, ret. cbv beta.
  destruct (negb (exists_ (disk s) (manifest_path self))); [reflexivity|].
  destruct (read_manifest (manifest_path self) (disk s)); reflexivity.
Qed.

(** X11. [_atomic_write] of a file in an existing directory that holds
    no leftover of an earlier write: the file then holds the new content,
    no temporary file is left, and every other entry of the directory is
    as before. *)
Theorem atomic_write_replaces
    (p : Fs.path) (n : string) (c : content) (s : sys) :
  isdir (disk s) p = true ->
  exists_ (disk s) (add_suffix (path_join p n) ".tmp") = false ->
  isdir (disk s) (path_join p n) = false ->
  exists s',
    _atomic_write (path_join p n) c s = (Ok tt, s') /\
    lookup (path_join p n) (disk s') = Some (File c) /\
    exists_ (disk s') (add_suffix (path_join p n) ".tmp") = false /\
    (forall k q, k <> n -> lookup (p ++ k :: q) (disk s') = lookup (p ++ k :: q) (disk s)) /\
    ticks s' = ticks s /\ barriers s' = barriers s.
Proof.
  unfold path_join. rewrite add_suffix_app.
  intros Hdir Htmp Hn. destruct (isdir_entries _ _ _ Hdir) as [es Hroot].
  pose proof (free_name _ _ _ _ _ Hroot Htmp) as Htmp'.
  assert (Hn' : match assoc n es with Some (Dir _) => False | _ => True end).
  { unfold isdir in Hn. rewrite (lookup_child _ _ _ _ Hroot) in Hn.
    destruct (assoc n es) as [[|]|]; try exact I. discriminate. }
  rewrite (atomic_write_child p n c s es Hroot Htmp' Hn' (append_tmp_neq n)).
  eexists. split; [reflexivity|]. cbn [disk ticks barriers].
  assert (Hroot' : lookup p (plug p (Dir (set_entry n (File c) es)) (disk s))
                   = Some (Dir (set_entry n (File c) es)))
    by (eapply lookup_plug; eauto).
  repeat split.
  - rewrite (lookup_child _ _ _ _ Hroot'), assoc_set_entry. now rewrite String.eqb_refl.
  - rewrite (exists_child _ _ _ _ Hroot'), assoc_set_entry.
    destruct (String.eqb_spec (n ++ ".tmp")%string n) as [E | _].
    + now destruct (append_tmp_neq n).
    + now rewrite Htmp'.
  - intros k q Hk.
    rewrite (lookup_under _ _ _ _ _ Hroot'), (lookup_under _ _ _ _ _ Hroot).
    simpl. rewrite assoc_set_entry.
    destruct (String.eqb_spec k n); [contradiction | reflexivity].
Qed.

Lemma atomic_write_replaces_witness :
  exists s',
    _atomic_write (path_join ["ckpt"] "manifest.json")
      (ManifestJson (mkManifest None [])) fresh_sys = (Ok tt, s') /\
    lookup (path_join ["ckpt"] "manifest.json") (disk s')
      = Some (File (ManifestJson (mkManifest None []))) /\
    exists_ (disk s') (add_suffix (path_join ["ckpt"] "manifest.json") ".tmp") = false /\
    (forall k q, k <> "manifest.json"%string ->
       lookup (["ckpt"] ++ k :: q) (disk s') = lookup (["ckpt"] ++ k :: q) (disk fresh_sys)) /\
    ticks s' = ticks fresh_sys /\ barriers s' = barriers fresh_sys.
Proof.
  apply (atomic_write_replaces ["ckpt"] "manifest.json"
           (ManifestJson (mkManifest None [])) fresh_sys); reflexivity.
Defined.

(** The manifest's pointer, when its directory holds a metadata file, is
    what [latest_checkpoint] returns. *)
Lemma latest_checkpoint_pointer (self : NodeStateHandler) (s : sys) es m l :
  lookup (root_dir self) (disk s) = Some (Dir es) ->
  manifest_at es m ->
  latest m = Some l ->
  isfile (disk s) (path_join (checkpoint_dir self l) META_FILE) = true ->
  latest_checkpoint self s
    = (Ok (Some (CheckpointInfo_at l (checkpoint_dir self l))), s).
Proof.
  intros Hroot Hm Hl Hmeta. unfold latest_checkpoint.
  rewrite (bind_ok _ _ _ _ _ _ _ (load_manifest_at _ _ _ _ Hroot Hm)).
  unfold bind, fs_try, latest_from_manifest.
  now rewrite Hl, is_valid_checkpoint_total, Hmeta.
Qed.

(** X12. A writer's [save] of a step whose directory and temporary
    directory are free, under an existing root with a readable or absent
    manifest: the call returns the step's directory and passes the
    barrier once; then [load] of that directory gives the state back,
    [latest_checkpoint] and [load_latest_checkpoint] find the step, and
    the manifest is the earlier one with the step recorded. *)
Theorem save_then_load
    (e : env) (self : NodeStateHandler) (st : Z) (state : state_dict)
    (loss : option Q) (is_main : option bool) (s : sys) (m : manifest) :
  match is_main with Some b => b | None => is_main_process e end = true ->
  isdir (disk s) (root_dir self) = true ->
  exists_ (disk s) (checkpoint_dir self st) = false ->
  exists_ (disk s) (add_suffix (checkpoint_dir self st) ".tmp") = false ->
  exists_ (disk s) (add_suffix (manifest_path self) ".tmp") = false ->
  fst (_load_manifest self s) = Ok m ->
  exists s',
    save e self st state loss is_main s = (Ok (checkpoint_dir self st), s') /\
    barriers s' = S (barriers s) /\
    load (checkpoint_dir self st) s' = (Ok state, s') /\
    latest_checkpoint self s'
      = (Ok (Some (CheckpointInfo_at st (checkpoint_dir self st))), s') /\
    load_latest_checkpoint self s'
      = (Ok (Some (CheckpointInfo_at st (checkpoint_dir self st), state)), s') /\
    _load_manifest self s'
      = (Ok (recorded m (mkInfo st (checkpoint_dir self st) loss
                           (clock e (S (ticks s))) true)), s').
Proof.
  intros Hmain Hdir Hstep Htmp Hmtmp Hload.
  destruct (isdir_entries _ _ _ Hdir) as [es Hroot].
  unfold checkpoint_dir, manifest_path, path_join in Hstep, Htmp, Hmtmp.
  rewrite add_suffix_app in Htmp, Hmtmp.
  pose proof (free_name _ _ _ _ _ Hroot Hstep) as Hstep'.
  pose proof (free_name _ _ _ _ _ Hroot Htmp) as Htmp'.
  pose proof (free_name _ _ _ _ _ Hroot Hmtmp) as Hmtmp'.
  pose proof (load_manifest_inv self s es m Hroot Hload) as Hm.
  rewrite (save_fresh_step e self st state loss is_main s es m
             Hmain Hroot Hstep' Htmp' Hmtmp' Hm).
  set (info := mkInfo st (checkpoint_dir self st) loss (clock e (S (ticks s))) true).
  set (es' := set_entry MANIFEST (File (ManifestJson (recorded m info)))
                (set_entry (step_name st)
                   (step_dir e st state loss (clock e (ticks s))) es)).
  set (s' := mkSys (plug (root_dir self) (Dir es') (disk s)) _ _).
  assert (Hroot' : lookup (root_dir self) (disk s') = Some (Dir es'))
    by (eapply lookup_plug; eauto).
  destruct (step_name_not_manifest st) as [HSM _].
  assert (Hd : assoc (step_name st) es'
               = Some (step_dir e st state loss (clock e (ticks s)))).
  { unfold es'. rewrite !assoc_set_entry.
    destruct (String.eqb_spec (step_name st) MANIFEST); [contradiction|].
    now rewrite String.eqb_refl. }
  assert (Hm' : manifest_at es' (recorded m info)).
  { right. unfold es'. now rewrite assoc_set_entry, String.eqb_refl. }
  assert (Hlatest : latest_checkpoint self s'
            = (Ok (Some (CheckpointInfo_at st (checkpoint_dir self st))), s')).
  { apply (latest_checkpoint_pointer self s' es' (recorded m info) st Hroot' Hm').
    - reflexivity.
    - unfold isfile, checkpoint_dir, path_join.
      rewrite lookup_app, (lookup_child _ _ _ _ Hroot'), Hd. reflexivity. }
  assert (Hl : load (checkpoint_dir self st) s' = (Ok state, s')).
  { unfold load, fs_try, checkpoint_dir, path_join.
    rewrite lookup_app, (lookup_child _ _ _ _ Hroot'), Hd. reflexivity. }
  exists s'. split; [reflexivity|]. split; [reflexivity|].
  split; [exact Hl|]. split; [exact Hlatest|]. split.
  - unfold load_latest_checkpoint.
    rewrite (bind_ok _ _ _ _ _ _ _ Hlatest). cbn [path CheckpointInfo_at].
    now rewrite Hl.
  - exact (load_manifest_at self s' es' _ Hroot' Hm').
Qed.

Lemma save_then_load_witness :
  exists s',
    save leader_env ckpt_handler 7 weights (Some (42 # 100)%Q) None fresh_sys
      = (Ok (checkpoint_dir ckpt_handler 7), s') /\
    barriers s' = S (barriers fresh_sys) /\
    load (checkpoint_dir ckpt_handler 7) s' = (Ok weights, s') /\
    latest_checkpoint ckpt_handler s'
      = (Ok (Some (CheckpointInfo_at 7 (checkpoint_dir ckpt_handler 7))), s') /\
    load_latest_checkpoint ckpt_handler s'
      = (Ok (Some (CheckpointInfo_at 7 (checkpoint_dir ckpt_handler 7), weights)), s') /\
    _load_manifest ckpt_handler s'
      = (Ok (recorded (mkManifest None [])
               (mkInfo 7 (checkpoint_dir ckpt_handler 7) (Some (42 # 100)%Q)
                  (clock leader_env (S (ticks fresh_sys))) true)), s').
Proof.
  apply (save_then_load leader_env ckpt_handler 7 weights (Some (42 # 100)%Q) None
           fresh_sys (mkManifest None [])); reflexivity.
Defined.

(** A leftover temporary directory is cleared first: the call goes on
    as on a disk without it. *)
Lemma save_clears_leftover
    (e : env) (self : NodeStateHandler) (st : Z) (state : state_dict)
    (loss : option Q) (is_main : option bool) (s : sys) es d :
  lookup (root_dir self) (disk s) = Some (Dir es) ->
  assoc (step_name st ++ ".tmp")%string es = Some (Dir d) ->
  match is_main with Some b => b | None => is_main_process e end = true ->
  save e self st state loss is_main s
  = save e self st state loss is_main
      (mkSys (plug (root_dir self)
                (Dir (del_entry (step_name st ++ ".tmp")%string es)) (disk s))
             (ticks s) (barriers s)).
Proof.
  intros Hroot Htmp Hmain.
  assert (Hroot' : lookup (root_dir self)
                     (plug (root_dir self)
                        (Dir (del_entry (step_name st ++ ".tmp")%string es)) (disk s))
                   = Some (Dir (del_entry (step_name st ++ ".tmp")%string es)))
    by (eapply lookup_plug; eauto).
  set (T_ := (step_name st ++ ".tmp")%string) in *.
  set (s0 := mkSys (plug (root_dir self) (Dir (del_entry T_ es)) (disk s))
                   (ticks s) (barriers s)).
  assert (Hw : save_write_tmp e self st state loss s
               = save_write_tmp e self st state loss s0).
  { unfold save_write_tmp, checkpoint_dir, path_join. rewrite add_suffix_app. fold T_.
    erewrite (bind_ok _ _ _ _ s0); cycle 1.
    { unfold fs_read, s0. cbn [disk].
      rewrite (exists_child _ _ _ _ Hroot'), assoc_del_entry, String.eqb_refl.
      reflexivity. }
    cbv iota.
    erewrite (bind_ok _ _ _ _ s0); [|reflexivity].
    erewrite (bind_ok _ _ _ _ s); cycle 1.
    { unfold fs_read. rewrite (exists_child _ _ _ _ Hroot), Htmp. reflexivity. }
    cbv iota.
    erewrite (bind_ok _ _ _ _ s); cycle 1.
    { apply fs_call_ok. unfold rmtree.
      rewrite (lookup_child _ _ _ _ Hroot), Htmp, split_last_app.
      rewrite (with_dir_plug _ _ _ _ _ Hroot). reflexivity. }
    reflexivity. }
  unfold save. rewrite Hmain. cbn [negb].
  unfold bind at 1. rewrite Hw. reflexivity.
Qed.

(** X13. A writer's [save] of a step whose directory is already there
    and holds something, the step's temporary path being free or a
    directory left behind: the rename is refused, the call raises before
    the manifest is touched and before the barrier, the old directory and
    the manifest are as before, and the temporary directory stays, so
    that the same call raises again. *)
Theorem save_existing_step_raises
    (e : env) (self : NodeStateHandler) (st : Z) (state : state_dict)
    (loss : option Q) (is_main : option bool) (s : sys)
    (x : string * tree) (r : list (string * tree)) :
  match is_main with Some b => b | None => is_main_process e end = true ->
  isdir (disk s) (root_dir self) = true ->
  lookup (checkpoint_dir self st) (disk s) = Some (Dir (x :: r)) ->
  isfile (disk s) (add_suffix (checkpoint_dir self st) ".tmp") = false ->
  exists s',
    save e self st state loss is_main s = (Raise DirectoryNotEmpty, s') /\
    barriers s' = barriers s /\
    (forall q, lookup (checkpoint_dir self st ++ q) (disk s')
               = lookup (checkpoint_dir self st ++ q) (disk s)) /\
    lookup (manifest_path self) (disk s') = lookup (manifest_path self) (disk s) /\
    isdir (disk s') (add_suffix (checkpoint_dir self st) ".tmp") = true /\
    fst (save e self st state loss is_main s') = Raise DirectoryNotEmpty.
Proof.
  assert (Hfresh : forall (s0 : sys) es,
            match is_main with Some b => b | None => is_main_process e end = true ->
            lookup (root_dir self) (disk s0) = Some (Dir es) ->
            assoc (step_name st) es = Some (Dir (x :: r)) ->
            assoc (step_name st ++ ".tmp")%string es = None ->
            exists s' es1 d,
              save e self st state loss is_main s0 = (Raise DirectoryNotEmpty, s') /\
              barriers s' = barriers s0 /\
              lookup (root_dir self) (disk s') = Some (Dir es1) /\
              (forall k, k <> (step_name st ++ ".tmp")%string -> assoc k es1 = assoc k es) /\
              assoc (step_name st ++ ".tmp")%string es1 = Some (Dir d)).
  { intros s0 es Hmain Hroot Hold Htmp'.
    unfold save. rewrite Hmain. cbn [negb].
    erewrite bind_ok; cycle 1.
    { apply (save_write_tmp_fresh e self st state loss s0 es Hroot Htmp'). }
    set (T_ := (step_name st ++ ".tmp")%string) in *.
    set (es1 := set_entry T_ (step_dir e st state loss (clock e (ticks s0))) es).
    set (s1 := mkSys (plug (root_dir self) (Dir es1) (disk s0)) _ _).
    assert (H1 : lookup (root_dir self) (disk s1) = Some (Dir es1))
      by (eapply lookup_plug; eauto).
    assert (HTS : T_ <> step_name st) by apply step_name_tmp_neq.
    assert (Hother : forall k, k <> T_ -> assoc k es1 = assoc k es).
    { intros k Hk. unfold es1. rewrite assoc_set_entry.
      destruct (String.eqb_spec k T_); [contradiction | reflexivity]. }
    unfold save_commit, checkpoint_dir, path_join. rewrite add_suffix_app. fold T_.
    assert (Hrep : replace (root_dir self ++ [T_]) (root_dir self ++ [step_name st])
                     (disk s1) = Raise DirectoryNotEmpty).
    { eapply replace_child_not_empty; [exact H1 | exact HTS | |].
      - unfold es1, step_dir. now rewrite assoc_set_entry, String.eqb_refl.
      - rewrite Hother by (intros E; now apply HTS). exact Hold. }
    unfold bind at 1, fs_call at 1. rewrite Hrep.
    exists s1, es1. eexists. split; [reflexivity|]. split; [reflexivity|].
    split; [exact H1|]. split; [exact Hother|].
    unfold es1, step_dir. now rewrite assoc_set_entry, String.eqb_refl. }
  assert (Hany : forall (s0 : sys) es,
            match is_main with Some b => b | None => is_main_process e end = true ->
            lookup (root_dir self) (disk s0) = Some (Dir es) ->
            assoc (step_name st) es = Some (Dir (x :: r)) ->
            match assoc (step_name st ++ ".tmp")%string es with
            | Some (File _) => False
            | _ => True
            end ->
            exists s' es1 d,
              save e self st state loss is_main s0 = (Raise DirectoryNotEmpty, s') /\
              barriers s' = barriers s0 /\
              lookup (root_dir self) (disk s') = Some (Dir es1) /\
              (forall k, k <> (step_name st ++ ".tmp")%string -> assoc k es1 = assoc k es) /\
              assoc (step_name st ++ ".tmp")%string es1 = Some (Dir d)).
  { intros s0 es Hmain Hroot Hold Htmp.
    destruct (assoc (step_name st ++ ".tmp")%string es) as [[c | d]|] eqn:Et;
      [destruct Htmp | | now apply Hfresh].
    rewrite (save_clears_leftover e self st state loss is_main s0 es d Hroot Et Hmain).
    assert (Hdel : forall k, k <> (step_name st ++ ".tmp")%string ->
              assoc k (del_entry (step_name st ++ ".tmp")%string es) = assoc k es).
    { intros k Hk. rewrite assoc_del_entry.
      destruct (String.eqb_spec k (step_name st ++ ".tmp")%string);
        [contradiction | reflexivity]. }
    destruct (Hfresh
                (mkSys (plug (root_dir self)
                          (Dir (del_entry (step_name st ++ ".tmp")%string es)) (disk s0))
                       (ticks s0) (barriers s0))
                (del_entry (step_name st ++ ".tmp")%string es) Hmain)
      as [s' [es1 [d' [Hrun [Hb [H1 [Hother Hd]]]]]]].
    - cbn [disk]. eapply lookup_plug; eauto.
    - rewrite Hdel; [exact Hold|]. intros E. symmetry in E.
      now apply step_name_tmp_neq in E.
    - now rewrite assoc_del_entry, String.eqb_refl.
    - exists s', es1, d'. split; [exact Hrun|]. split; [exact Hb|].
      split; [exact H1|]. split; [|exact Hd].
      intros k Hk. rewrite Hother, Hdel by exact Hk. reflexivity. }
  intros Hmain Hdir Hold Htmp.
  destruct (isdir_entries _ _ _ Hdir) as [es Hroot].
  unfold checkpoint_dir, manifest_path, path_join in *.
  rewrite add_suffix_app in *.
  rewrite (lookup_child _ _ _ _ Hroot) in Hold.
  unfold isfile in Htmp. rewrite (lookup_child _ _ _ _ Hroot) in Htmp.
  assert (HTS : (step_name st ++ ".tmp")%string <> step_name st)
    by apply step_name_tmp_neq.
  destruct (step_name_not_manifest st) as [_ [_ [HTM _]]].
  destruct (Hany s es Hmain Hroot Hold) as [s' [es1 [d [Hrun [Hb [H1 [Hother Hd]]]]]]].
  { destruct (assoc (step_name st ++ ".tmp")%string es) as [[c | d]|];
      [discriminate | exact I | exact I]. }
  exists s'. split; [exact Hrun|]. split; [exact Hb|].
  split; [|split; [|split]].
  - intros q. rewrite <- !app_assoc.
    rewrite (lookup_under _ _ _ _ _ H1), (lookup_under _ _ _ _ _ Hroot).
    simpl. rewrite Hother by (intros E; now apply HTS). reflexivity.
  - rewrite (lookup_child _ _ _ _ H1), (lookup_child _ _ _ _ Hroot).
    apply Hother. intros E. now apply HTM.
  - unfold isdir. now rewrite (lookup_child _ _ _ _ H1), Hd.
  - destruct (Hany s' es1 Hmain H1) as [s'' [? [? [Hrun' _]]]].
    + rewrite Hother by (intros E; now apply HTS). exact Hold.
    + now rewrite Hd.
    + now rewrite Hrun'.
Qed.

Lemma save_existing_step_raises_witness :
  exists s',
    save leader_env ckpt_handler 5 weights None None
      (snd (save leader_env ckpt_handler 5 weights None None external_sys))
      = (Raise DirectoryNotEmpty, s') /\
    barriers s'
      = barriers (snd (save leader_env ckpt_handler 5 weights None None external_sys)) /\
    (forall q,
       lookup (checkpoint_dir ckpt_handler 5 ++ q) (disk s')
       = lookup (checkpoint_dir ckpt_handler 5 ++ q)
           (disk (snd (save leader_env ckpt_handler 5 weights None None external_sys)))) /\
    lookup (manifest_path ckpt_handler) (disk s')
      = lookup (manifest_path ckpt_handler)
          (disk (snd (save leader_env ckpt_handler 5 weights None None external_sys))) /\
    isdir (disk s') (add_suffix (checkpoint_dir ckpt_handler 5) ".tmp") = true /\
    fst (save leader_env ckpt_handler 5 weights None None s') = Raise DirectoryNotEmpty.
Proof.
  apply (save_existing_step_raises leader_env ckpt_handler 5 weights None None
           (snd (save leader_env ckpt_handler 5 weights None None external_sys))
           ("meta.json"%string, File (MetaJson (mkMeta 5 None 0 0))) []);
    vm_compute; reflexivity.
Defined.

(** The leftover of the witness is there before the call. *)
Example save_existing_step_leftover :
  isdir (disk (snd (save leader_env ckpt_handler 5 weights None None external_sys)))
    (add_suffix (checkpoint_dir ckpt_handler 5) ".tmp") = true.
Proof. vm_compute. reflexivity. Qed.

Lemma info_of_entry_of (info : CheckpointInfo) :
  (fun c => mkInfo (e_step c) (e_path c) (e_loss c) (e_timestamp c) (e_ok c))
    (entry_of info) = info.
Proof. now destruct info. Qed.

Lemma list_checkpoints_at (self : NodeStateHandler) (s : sys) es m :
  lookup (root_dir self) (disk s) = Some (Dir es) ->
  manifest_at es m ->
  list_checkpoints self s
  = (Ok (map (fun c => mkInfo (e_step c) (e_path c) (e_loss c) (e_timestamp c) (e_ok c))
           (checkpoints m)), s).
Proof.
  intros Hroot Hm. unfold list_checkpoints.
  now rewrite (bind_ok _ _ _ _ _ _ _ (load_manifest_at _ _ _ _ Hroot Hm)).
Qed.

(** X14. [_record_checkpoint] under an existing root with a readable or
    absent manifest and no leftover of an earlier write: afterwards
    [list_checkpoints] gives the earlier listing with the new checkpoint
    at its end, cut to its last twenty; [latest] is the new step when the
    checkpoint is good and the earlier pointer otherwise; and nothing but
    the manifest file has changed under the root. *)
Theorem record_checkpoint_appends
    (self : NodeStateHandler) (info : CheckpointInfo) (s : sys) (m : manifest) :
  isdir (disk s) (root_dir self) = true ->
  exists_ (disk s) (add_suffix (manifest_path self) ".tmp") = false ->
  fst (_load_manifest self s) = Ok m ->
  exists s' old,
    _record_checkpoint self info s = (Ok tt, s') /\
    list_checkpoints self s = (Ok old, s) /\
    list_checkpoints self s' = (Ok (last_20 (old ++ [info])), s') /\
    (length (last_20 (old ++ [info])) <= 20)%nat /\
    _load_manifest self s' = (Ok (recorded m info), s') /\
    latest (recorded m info) = (if ok info then Some (step info) else latest m) /\
    (forall k q, k <> MANIFEST ->
       lookup (root_dir self ++ k :: q) (disk s')
       = lookup (root_dir self ++ k :: q) (disk s)).
Proof.
  intros Hdir Hmtmp Hload.
  destruct (isdir_entries _ _ _ Hdir) as [es Hroot].
  unfold manifest_path, path_join in Hmtmp. rewrite add_suffix_app in Hmtmp.
  pose proof (free_name _ _ _ _ _ Hroot Hmtmp) as Hmtmp'.
  pose proof (load_manifest_inv self s es m Hroot Hload) as Hm.
  rewrite (record_checkpoint_at self info s es m Hroot Hm Hmtmp').
  set (es' := set_entry MANIFEST (File (ManifestJson (recorded m info))) es).
  set (s' := mkSys (plug (root_dir self) (Dir es') (disk s)) _ _).
  assert (Hroot' : lookup (root_dir self) (disk s') = Some (Dir es'))
    by (eapply lookup_plug; eauto).
  assert (Hm' : manifest_at es' (recorded m info)).
  { right. unfold es'. now rewrite assoc_set_entry, String.eqb_refl. }
  exists s', (map (fun c => mkInfo (e_step c) (e_path c) (e_loss c) (e_timestamp c) (e_ok c))
                (checkpoints m)).
  split; [reflexivity|].
  split; [exact (list_checkpoints_at self s es m Hroot Hm)|].
  split.
  { rewrite (list_checkpoints_at self s' es' _ Hroot' Hm').
    unfold recorded. cbn [checkpoints].
    now rewrite map_last_20, map_app; cbn [map]; rewrite info_of_entry_of. }
  split; [apply length_last_20|].
  split; [exact (load_manifest_at self s' es' _ Hroot' Hm')|].
  split; [reflexivity|].
  intros k q Hk.
  rewrite (lookup_under _ _ _ _ _ Hroot'), (lookup_under _ _ _ _ _ Hroot).
  simpl. unfold es'. rewrite assoc_set_entry.
  destruct (String.eqb_spec k MANIFEST); [contradiction | reflexivity].
Qed.

Lemma record_checkpoint_appends_witness :
  exists s' old,
    _record_checkpoint ckpt_handler (mkInfo 9 ["ckpt"; "step_00000009"] None 0 false)
      external_sys = (Ok tt, s') /\
    list_checkpoints ckpt_handler external_sys = (Ok old, external_sys) /\
    list_checkpoints ckpt_handler s'
      = (Ok (last_20 (old ++ [mkInfo 9 ["ckpt"; "step_00000009"] None 0 false])), s') /\
    (length (last_20 (old ++ [mkInfo 9 ["ckpt"; "step_00000009"] None 0 false])) <= 20)%nat /\
    _load_manifest ckpt_handler s'
      = (Ok (recorded (mkManifest (Some 5) [mkEntry 5 ["ckpt"; "step_00000005"] None 1 true])
               (mkInfo 9 ["ckpt"; "step_00000009"] None 0 false)), s') /\
    latest (recorded (mkManifest (Some 5) [mkEntry 5 ["ckpt"; "step_00000005"] None 1 true])
              (mkInfo 9 ["ckpt"; "step_00000009"] None 0 false))
      = (if ok (mkInfo 9 ["ckpt"; "step_00000009"] None 0 false)
         then Some (step (mkInfo 9 ["ckpt"; "step_00000009"] None 0 false))
         else latest (mkManifest (Some 5) [mkEntry 5 ["ckpt"; "step_00000005"] None 1 true])) /\
    (forall k q, k <> MANIFEST ->
       lookup (root_dir ckpt_handler ++ k :: q) (disk s')
       = lookup (root_dir ckpt_handler ++ k :: q) (disk external_sys)).
Proof.
  apply (record_checkpoint_appends ckpt_handler
           (mkInfo 9 ["ckpt"; "step_00000009"] None 0 false) external_sys
           (mkManifest (Some 5) [mkEntry 5 ["ckpt"; "step_00000005"] None 1 true]));
    vm_compute; reflexivity.
Defined.

Lemma makedirs_on_file (C : Type) (p : Fs.path) (t : node C) (x : C) :
  lookup p t = Some (File x) -> makedirs p t = Raise FileExistsError.
Proof.
  revert t; induction p as [|n p IH]; intros t; simpl.
  - intros H; injection H as ->. reflexivity.
  - destruct t as [y | es]; [discriminate|].
    destruct (assoc n es) as [c|]; [|discriminate].
    intros H. now rewrite (IH _ H).
Qed.

(** X15. Making a handler on a root that is a directory changes
    nothing; on a root that is a regular file it raises
    [FileExistsError] and changes nothing. *)
Theorem init_on_existing_root (root : Fs.path) (s : sys) :
  (isdir (disk s) root = true -> init root s = (Ok (mkHandler root), s)) /\
  (isfile (disk s) root = true ->
     init root s = (Raise FileExistsError, s)).
Proof.
  unfold init, _safe_makedirs, bind, fs_call, ret. split.
  - intros H. destruct (isdir_entries _ _ _ H) as [es Hes].
    rewrite (makedirs_existing _ _ _ _ Hes). now destruct s.
  - unfold isfile. destruct (lookup root (disk s)) as [[x | es]|] eqn:E; try discriminate.
    intros _. now rewrite (makedirs_on_file _ _ _ _ E).
Qed.

Lemma init_on_existing_root_witness :
  init ["ckpt"] external_sys = (Ok (mkHandler ["ckpt"]), external_sys).
Proof.
  apply (proj1 (init_on_existing_root ["ckpt"] external_sys)).
  vm_compute. reflexivity.
Defined.

(* ===================================================================== *)
(** * More on the scan of the root directory *)
(* ===================================================================== *)

Local Open Scope string_scope.
Local Open Scope Z_scope.
Local Open Scope list_scope.

Lemma insert_desc_in (x y : Z * Fs.path) (l : list (Z * Fs.path)) :
  In y (insert_desc x l) <-> y = x \/ In y l.
Proof.
  induction l as [|z l IH]; simpl.
  - intuition.
  - destruct (fst z <=? fst x); simpl; [intuition|].
    rewrite IH. intuition.
Qed.

Lemma sort_desc_in (y : Z * Fs.path) (l : list (Z * Fs.path)) :
  In y (sort_desc l) <-> In y l.
Proof.
  induction l as [|x l IH]; simpl; [reflexivity|].
  rewrite insert_desc_in, IH. intuition.
Qed.

Lemma insert_desc_length (x : Z * Fs.path) (l : list (Z * Fs.path)) :
  length (insert_desc x l) = S (length l).
Proof.
  induction l as [|z l IH]; simpl; [reflexivity|].
  destruct (fst z <=? fst x); simpl; [reflexivity | now rewrite IH].
Qed.

Lemma sort_desc_length (l : list (Z * Fs.path)) : length (sort_desc l) = length l.
Proof.
  induction l as [|x l IH]; simpl; [reflexivity|].
  now rewrite insert_desc_length, IH.
Qed.

Lemma insert_desc_sorted (x : Z * Fs.path) (l : list (Z * Fs.path)) :
  StronglySorted (fun a b => fst b <= fst a) l ->
  StronglySorted (fun a b => fst b <= fst a) (insert_desc x l).
Proof.
  induction 1 as [|z l Hs IH Hall]; simpl.
  - constructor; constructor.
  - destruct (Z.leb_spec (fst z) (fst x)) as [Hle | Hgt].
    + constructor; [constructor; assumption|].
      constructor; [exact Hle|].
      eapply Forall_impl; [|exact Hall]. simpl. intros b Hb. lia.
    + constructor; [exact IH|].
      apply Forall_forall. intros b Hb. apply insert_desc_in in Hb.
      destruct Hb as [-> | Hb]; [lia|].
      rewrite Forall_forall in Hall. now apply Hall.
Qed.

(** The candidates come out with the largest step first. *)
Lemma sort_desc_sorted (l : list (Z * Fs.path)) :
  StronglySorted (fun a b => fst b <= fst a) (sort_desc l).
Proof.
  induction l as [|x l IH]; simpl; [constructor | now apply insert_desc_sorted].
Qed.

(** The loop returns the first candidate that passes the check. *)
Lemma first_valid_sorted (t : tree) (l : list (Z * Fs.path)) :
  StronglySorted (fun a b => fst b <= fst a) l ->
  match first_valid t l with
  | Ok (Some info) =>
      In (step info, path info) l /\
      info = CheckpointInfo_at (step info) (path info) /\
      _is_valid_checkpoint t (path info) = Ok true /\
      forall st p, In (st, p) l -> _is_valid_checkpoint t p = Ok true -> st <= step info
  | Ok None => forall st p, In (st, p) l -> _is_valid_checkpoint t p = Ok false
  | Raise _ => False
  end.
Proof.
  induction 1 as [|[st p] l Hs IH Hall]; simpl.
  - intros st p [].
  - destruct (_is_valid_checkpoint t p) as [[|]|] eqn:V.
    + cbn [step path CheckpointInfo_at]. repeat split; auto.
      intros st' p' [E | Hin] _; [injection E as <- _; lia|].
      rewrite Forall_forall in Hall. apply (Hall _ Hin).
    + destruct (first_valid t l) as [[info|]|]; [| |exact IH].
      * destruct IH as [Hin [Hinfo [Hv Hmax]]]. repeat split; auto.
        intros st' p' [E | Hin'] Hv'; [|eauto].
        injection E as <- <-. congruence.
      * intros st' p' [E | Hin]; [injection E as <- <-; exact V | eauto].
    + rewrite is_valid_checkpoint_total in V. discriminate.
Qed.

Lemma candidates_in (root : Fs.path) (names : list string) (st : Z) (p : Fs.path) :
  In (st, p)
    (flat_map (fun name =>
                 match match_step name with
                 | Some step => [(step, path_join root name)]
                 | None => []
                 end) names) <->
  exists name, In name names /\ match_step name = Some st /\ p = path_join root name.
Proof.
  rewrite in_flat_map. split.
  - intros [name [Hin H]]. exists name. split; [exact Hin|].
    destruct (match_step name) as [st'|]; [|destruct H].
    destruct H as [E | []]. injection E as -> ->. auto.
  - intros [name [Hin [Hm ->]]]. exists name. split; [exact Hin|].
    rewrite Hm. now left.
Qed.

(** X16. The scan of a root directory returns a directory whose name
    matches the pattern and which passes the validity check, with the
    largest step among all such directories; it returns nothing exactly
    when no matching directory passes the check; it does not raise. *)
Theorem latest_from_scan_largest_valid
    (self : NodeStateHandler) (t : tree) (names : list string) :
  listdir t (root_dir self) = Ok names ->
  match latest_from_scan self t with
  | Ok (Some info) =>
      info = CheckpointInfo_at (step info) (path info) /\
      _is_valid_checkpoint t (path info) = Ok true /\
      (exists name, In name names /\ match_step name = Some (step info) /\
                    path info = path_join (root_dir self) name) /\
      (forall name st, In name names -> match_step name = Some st ->
         _is_valid_checkpoint t (path_join (root_dir self) name) = Ok true ->
         st <= step info)
  | Ok None =>
      forall name st, In name names -> match_step name = Some st ->
        _is_valid_checkpoint t (path_join (root_dir self) name) = Ok false
  | Raise _ => False
  end.
Proof.
  intros Hls. unfold latest_from_scan, _scan_checkpoint_dirs. rewrite Hls.
  set (cands := flat_map _ names).
  pose proof (first_valid_sorted t (sort_desc cands) (sort_desc_sorted cands)) as H.
  destruct (first_valid t (sort_desc cands)) as [[info|]|]; [| |exact H].
  - destruct H as [Hin [Hinfo [Hv Hmax]]].
    apply sort_desc_in, candidates_in in Hin.
    repeat split; auto.
    intros name st Hname Hm Hvalid. apply (Hmax st (path_join (root_dir self) name)).
    + apply sort_desc_in, candidates_in. eauto.
    + exact Hvalid.
  - intros name st Hname Hm. apply (H st).
    apply sort_desc_in, candidates_in. eauto.
Qed.

Lemma latest_from_scan_largest_valid_witness :
  match latest_from_scan ckpt_handler (disk crashed_sys) with
  | Ok (Some info) =>
      info = CheckpointInfo_at (step info) (path info) /\
      _is_valid_checkpoint (disk crashed_sys) (path info) = Ok true /\
      (exists name, In name ["step_00000007.tmp"%string] /\
                    match_step name = Some (step info) /\
                    path info = path_join (root_dir ckpt_handler) name) /\
      (forall name st, In name ["step_00000007.tmp"%string] ->
         match_step name = Some st ->
         _is_valid_checkpoint (disk crashed_sys) (path_join (root_dir ckpt_handler) name)
           = Ok true ->
         st <= step info)
  | Ok None =>
      forall name st, In name ["step_00000007.tmp"%string] ->
        match_step name = Some st ->
        _is_valid_checkpoint (disk crashed_sys) (path_join (root_dir ckpt_handler) name)
          = Ok false
  | Raise _ => False
  end.
Proof.
  apply (latest_from_scan_largest_valid ckpt_handler (disk crashed_sys)
           ["step_00000007.tmp"%string]).
  vm_compute. reflexivity.
Defined.

Lemma latest_from_scan_valid (self : NodeStateHandler) (t : tree) (info : CheckpointInfo) :
  latest_from_scan self t = Ok (Some info) ->
  _is_valid_checkpoint t (path info) = Ok true /\
  info = CheckpointInfo_at (step info) (path info).
Proof.
  unfold latest_from_scan, _scan_checkpoint_dirs.
  destruct (listdir t (root_dir self)) as [names|]; [|discriminate].
  set (cands := flat_map _ names).
  pose proof (first_valid_sorted t (sort_desc cands) (sort_desc_sorted cands)) as H.
  intros E. rewrite E in H. tauto.
Qed.

(** X17. [latest_checkpoint] changes nothing; what it returns passes
    the validity check and is made of a step and a path alone; and with
    no manifest file it is the scan of the root directory. *)
Theorem latest_checkpoint_sound (self : NodeStateHandler) (s : sys) :
  snd (latest_checkpoint self s) = s /\
  (forall info, fst (latest_checkpoint self s) = Ok (Some info) ->
     _is_valid_checkpoint (disk s) (path info) = Ok true /\
     info = CheckpointInfo_at (step info) (path info)) /\
  (exists_ (disk s) (manifest_path self) = false ->
     fst (latest_checkpoint self s) = latest_from_scan self (disk s)).
Proof.
  assert (Habsent : exists_ (disk s) (manifest_path self) = false ->
                    _load_manifest self s = (Ok (mkManifest None []), s)).
  { intros Habs. unfold _load_manifest, bind, fs_read. now rewrite Habs. }
  unfold latest_checkpoint, bind.
  pose proof (load_manifest_readonly self s) as Hro.
  destruct (_load_manifest self s) as [[m|e] s0] eqn:Hl; simpl in Hro; subst s0.
  - unfold fs_try, ret. cbn beta iota.
    destruct (latest_from_manifest self m (disk s)) as [[info|]|] eqn:Hf;
      cbn [fst snd];
      (split; [reflexivity|]); split.
    + intros info' E. injection E as <-.
      unfold latest_from_manifest in Hf.
      destruct (latest m) as [l|]; [|discriminate].
      destruct (_is_valid_checkpoint (disk s) (checkpoint_dir self l)) as [[|]|] eqn:V;
        try discriminate.
      injection Hf as <-. split; [exact V | reflexivity].
    + intros Habs. apply Habsent in Habs. injection Habs as ->. discriminate Hf.
    + intros info E. now apply latest_from_scan_valid in E.
    + reflexivity.
    + discriminate.
    + intros Habs. apply Habsent in Habs. injection Habs as ->. discriminate Hf.
  - cbn [fst snd]. split; [reflexivity|]. split; [discriminate|].
    intros Habs. apply Habsent in Habs. discriminate.
Qed.

Lemma latest_checkpoint_sound_witness :
  fst (latest_checkpoint ckpt_handler crashed_sys)
  = latest_from_scan ckpt_handler (disk crashed_sys).
Proof.
  apply (proj2 (proj2 (latest_checkpoint_sound ckpt_handler crashed_sys))).
  vm_compute. reflexivity.
Defined.

Lemma validate_each_map (t : tree) (l : list (Z * Fs.path)) :
  validate_each t l
  = Ok (map (fun c =>
               (snd c, isfile t (path_join (snd c) META_FILE),
                if isfile t (path_join (snd c) META_FILE)
                then None else Some "missing files"%string)) l).
Proof.
  induction l as [|[st p] l IH]; simpl; [reflexivity|].
  now rewrite is_valid_checkpoint_total, IH.
Qed.

Lemma candidates_length (root : Fs.path) (names : list string) :
  length (flat_map (fun name =>
                      match match_step name with
                      | Some step => [(step, path_join root name)]
                      | None => []
                      end) names)
  = length (filter (fun name => match match_step name with
                                | Some _ => true
                                | None => false
                                end) names).
Proof.
  induction names as [|n names IH]; simpl; [reflexivity|].
  destruct (match_step n); simpl; now rewrite IH.
Qed.

(** X18. [validate_all] on a root that is a directory changes nothing
    and reports each entry whose name matches the pattern once, with the
    outcome of the validity check and the reason ["missing files"]
    exactly for those that fail; it reports nothing else. *)
Theorem validate_all_reports
    (self : NodeStateHandler) (s : sys) (names : list string) :
  listdir (disk s) (root_dir self) = Ok names ->
  exists results,
    validate_all self s = (Ok results, s) /\
    length results
      = length (filter (fun name => match match_step name with
                                    | Some _ => true
                                    | None => false
                                    end) names) /\
    (forall name st, In name names -> match_step name = Some st ->
       exists good,
         _is_valid_checkpoint (disk s) (path_join (root_dir self) name) = Ok good /\
         In (path_join (root_dir self) name, good,
             if good then None else Some "missing files"%string) results) /\
    (forall p good reason, In (p, good, reason) results ->
       _is_valid_checkpoint (disk s) p = Ok good /\
       reason = (if good then None else Some "missing files"%string) /\
       exists name st, In name names /\ match_step name = Some st /\
                       p = path_join (root_dir self) name).
Proof.
  intros Hls. unfold validate_all, fs_try, _scan_checkpoint_dirs. rewrite Hls.
  rewrite validate_each_map. eexists. split; [reflexivity|].
  split; [now rewrite length_map, sort_desc_length, candidates_length|].
  split.
  - intros name st Hin Hm.
    exists (isfile (disk s) (path_join (path_join (root_dir self) name) META_FILE)).
    split; [apply is_valid_checkpoint_total|].
    apply in_map_iff. exists (st, path_join (root_dir self) name).
    split; [reflexivity|]. apply sort_desc_in, candidates_in. eauto.
  - intros p good reason Hin. apply in_map_iff in Hin.
    destruct Hin as [[st p'] [E Hin]]. cbn [snd] in E. injection E as <- <- <-.
    split; [apply is_valid_checkpoint_total|]. split; [reflexivity|].
    apply sort_desc_in, candidates_in in Hin.
    destruct Hin as [name [Hin [Hm ->]]]. eauto.
Qed.

Lemma validate_all_reports_witness :
  exists results,
    validate_all ckpt_handler saved_then_external_sys
      = (Ok results, saved_then_external_sys) /\
    length results
      = length (filter (fun name => match match_step name with
                                    | Some _ => true
                                    | None => false
                                    end) ["step_00000005"%string; "manifest.json"%string]) /\
    (forall name st,
       In name ["step_00000005"%string; "manifest.json"%string] ->
       match_step name = Some st ->
       exists good,
         _is_valid_checkpoint (disk saved_then_external_sys)
           (path_join (root_dir ckpt_handler) name) = Ok good /\
         In (path_join (root_dir ckpt_handler) name, good,
             if good then None else Some "missing files"%string) results) /\
    (forall p good reason, In (p, good, reason) results ->
       _is_valid_checkpoint (disk saved_then_external_sys) p = Ok good /\
       reason = (if good then None else Some "missing files"%string) /\
       exists name st,
         In name ["step_00000005"%string; "manifest.json"%string] /\
         match_step name = Some st /\
         p = path_join (root_dir ckpt_handler) name).
Proof.
  apply (validate_all_reports ckpt_handler saved_then_external_sys
           ["step_00000005"%string; "manifest.json"%string]).
  vm_compute. reflexivity.
Defined.

(** A directory named with the Arabic-Indic digit three (the bytes
    D9 A3) is a candidate of the scan, as step 3. *)
Example scan_reads_unicode_digits :
  latest_from_scan ckpt_handler
    (Dir [("ckpt",
           Dir [(("step_" ++ String (ascii_of_N 217) (String (ascii_of_N 163) EmptyString))%string,
                 Dir [("meta.json"%string, File (MetaJson (mkMeta 3 None 0 0)))])])])
  = Ok (Some (CheckpointInfo_at 3
                ["ckpt"%string;
                 ("step_" ++ String (ascii_of_N 217) (String (ascii_of_N 163) EmptyString))%string])).
Proof. vm_compute. reflexivity. Qed.
(* ===================================================================== *)
(** * More on a load that fails *)
(* ===================================================================== *)

Local Open Scope string_scope.
Local Open Scope Z_scope.
Local Open Scope list_scope.

Lemma latest_checkpoint_readonly (self : NodeStateHandler) (s : sys) :
  snd (latest_checkpoint self s) = s.
Proof.
  unfold latest_checkpoint, bind.
  pose proof (load_manifest_readonly self s) as Hro.
  destruct (_load_manifest self s) as [[m|e] s0]; simpl in Hro; subst s0;
    [|reflexivity].
  unfold fs_try, ret. cbn beta iota.
  now destruct (latest_from_manifest self m (disk s)) as [[info|]|].
Qed.

(** The validity of a directory right under the root hangs on that
    entry of the root alone. *)
Lemma is_valid_child_frame (root : Fs.path) (t t' : tree) es es' (n : string) :
  lookup root t = Some (Dir es) ->
  lookup root t' = Some (Dir es') ->
  assoc n es' = assoc n es ->
  _is_valid_checkpoint t' (path_join root n) = _is_valid_checkpoint t (path_join root n).
Proof.
  intros H H' E. rewrite !is_valid_checkpoint_total. unfold isfile, path_join.
  rewrite <- !app_assoc. cbn [app].
  now rewrite (lookup_grandchild _ _ _ _ H), (lookup_grandchild _ _ _ _ H'), E.
Qed.

Lemma first_valid_ext (t t' : tree) (l : list (Z * Fs.path)) :
  (forall st p, In (st, p) l -> _is_valid_checkpoint t' p = _is_valid_checkpoint t p) ->
  first_valid t' l = first_valid t l.
Proof.
  induction l as [|[st p] l IH]; intros H; simpl; [reflexivity|].
  rewrite (H st p) by now left.
  rewrite IH; [reflexivity|]. intros st' p' Hin. apply (H st' p'). now right.
Qed.

(** A name that is no checkpoint's does not show in the scan. *)
Lemma candidates_set_entry (root : Fs.path) (n : string) (v : tree) es :
  match_step n = None ->
  flat_map (fun name =>
              match match_step name with
              | Some step => [(step, path_join root name)]
              | None => []
              end) (map fst (set_entry n v es))
  = flat_map (fun name =>
                match match_step name with
                | Some step => [(step, path_join root name)]
                | None => []
                end) (map fst es).
Proof.
  intros Hn. induction es as [|[k w] r IH]; simpl.
  - now rewrite Hn.
  - destruct (String.eqb n k); simpl; [reflexivity | now rewrite IH].
Qed.

(** Rewriting the manifest without moving its pointer changes nothing
    to the answer of [latest_checkpoint]. *)
Lemma latest_checkpoint_frame (self : NodeStateHandler) (s s' : sys) es m m' :
  lookup (root_dir self) (disk s) = Some (Dir es) ->
  lookup (root_dir self) (disk s')
    = Some (Dir (set_entry MANIFEST (File (ManifestJson m')) es)) ->
  manifest_at es m ->
  latest m' = latest m ->
  fst (latest_checkpoint self s') = fst (latest_checkpoint self s).
Proof.
  intros Hroot Hroot' Hm Hl.
  assert (Hm' : manifest_at (set_entry MANIFEST (File (ManifestJson m')) es) m').
  { right. now rewrite assoc_set_entry, String.eqb_refl. }
  assert (Hframe : forall n, n <> MANIFEST ->
            _is_valid_checkpoint (disk s') (path_join (root_dir self) n)
            = _is_valid_checkpoint (disk s) (path_join (root_dir self) n)).
  { intros n Hn. apply (is_valid_child_frame _ _ _ _ _ _ Hroot Hroot').
    rewrite assoc_set_entry. destruct (String.eqb_spec n MANIFEST); congruence. }
  unfold latest_checkpoint.
  rewrite (bind_ok _ _ _ _ _ _ _ (load_manifest_at _ _ _ _ Hroot Hm)).
  rewrite (bind_ok _ _ _ _ _ _ _ (load_manifest_at _ _ _ _ Hroot' Hm')).
  assert (Hfast : latest_from_manifest self m' (disk s')
                  = latest_from_manifest self m (disk s)).
  { unfold latest_from_manifest. rewrite Hl. destruct (latest m) as [l|]; [|reflexivity].
    unfold checkpoint_dir. rewrite Hframe; [reflexivity|].
    apply step_name_not_manifest. }
  assert (Hscan : latest_from_scan self (disk s') = latest_from_scan self (disk s)).
  { unfold latest_from_scan, _scan_checkpoint_dirs, listdir.
    rewrite Hroot, Hroot', candidates_set_entry by reflexivity.
    apply first_valid_ext. intros st p Hin.
    apply sort_desc_in, candidates_in in Hin. destruct Hin as [n [_ [Hst ->]]].
    apply Hframe. intros ->. discriminate Hst. }
  unfold bind, fs_try, ret. cbn beta iota. rewrite Hfast.
  destruct (latest_from_manifest self m (disk s)) as [[info|]|]; cbn [fst];
    [reflexivity | exact Hscan | reflexivity].
Qed.

(** What [latest_checkpoint] returns lies right under the root, and its
    name is not the manifest's. *)
Lemma latest_checkpoint_under_root (self : NodeStateHandler) (s : sys) info :
  fst (latest_checkpoint self s) = Ok (Some info) ->
  exists n, path info = path_join (root_dir self) n /\ n <> MANIFEST.
Proof.
  unfold latest_checkpoint, bind.
  pose proof (load_manifest_readonly self s) as Hro.
  destruct (_load_manifest self s) as [[m|e] s0]; simpl in Hro; subst s0;
    [|discriminate].
  unfold fs_try, ret. cbn beta iota.
  destruct (latest_from_manifest self m (disk s)) as [[info'|]|] eqn:Hf; cbn [fst];
    [| |discriminate].
  - intros E; injection E as ->. unfold latest_from_manifest in Hf.
    destruct (latest m) as [l|]; [|discriminate].
    destruct (_is_valid_checkpoint (disk s) (checkpoint_dir self l)) as [[|]|];
      try discriminate.
    injection Hf as <-. exists (step_name l). split; [reflexivity|].
    apply step_name_not_manifest.
  - unfold latest_from_scan, _scan_checkpoint_dirs.
    destruct (listdir (disk s) (root_dir self)) as [names|]; [|discriminate].
    set (cands := flat_map _ names).
    pose proof (first_valid_sorted (disk s) (sort_desc cands) (sort_desc_sorted cands)) as H.
    intros E. rewrite E in H. destruct H as [Hin _].
    apply sort_desc_in, candidates_in in Hin. destruct Hin as [n [_ [Hst Hp]]].
    exists n. split; [exact Hp|]. intros ->. discriminate Hst.
Qed.

(** What a failing load does, on the entries of the root. *)
Lemma load_failure_at
    (self : NodeStateHandler) (s : sys) es (m : manifest)
    (info : CheckpointInfo) (e : BaseException) :
  lookup (root_dir self) (disk s) = Some (Dir es) ->
  assoc (MANIFEST ++ ".tmp")%string es = None ->
  fst (_load_manifest self s) = Ok m ->
  fst (latest_checkpoint self s) = Ok (Some info) ->
  fst (load (path info) s) = Raise e ->
  let m' := mkManifest (latest m) (map (mark_bad (step info)) (checkpoints m)) in
  let s' := mkSys (plug (root_dir self)
                     (Dir (set_entry MANIFEST (File (ManifestJson m')) es))
                     (disk s))
                  (ticks s) (barriers s) in
  load_latest_checkpoint self s = (Ok None, s') /\
  _load_manifest self s' = (Ok m', s') /\
  fst (latest_checkpoint self s') = Ok (Some info) /\
  fst (load (path info) s') = Raise e.
Proof.
  intros Hroot Htmp Hload Hlatest Hfail m' s'.
  pose proof (load_manifest_inv _ _ _ _ Hroot Hload) as Hm.
  assert (Hroot' : lookup (root_dir self) (disk s')
                   = Some (Dir (set_entry MANIFEST (File (ManifestJson m')) es))).
  { apply (lookup_plug _ _ _ _ _ Hroot). }
  split; [|split; [|split]].
  - unfold load_latest_checkpoint.
    assert (Hl : latest_checkpoint self s = (Ok (Some info), s)).
    { pose proof (latest_checkpoint_readonly self s) as Hro.
      destruct (latest_checkpoint self s) as [r s0]. simpl in *. congruence. }
    rewrite (bind_ok _ _ _ _ _ _ _ Hl).
    assert (Hf : load (path info) s = (Raise e, s)).
    { revert Hfail. unfold load, fs_try. simpl. now intros ->. }
    rewrite Hf.
    rewrite (bind_ok _ _ _ _ _ _ _ (load_manifest_at _ _ _ _ Hroot Hm)).
    unfold _write_manifest, manifest_path, path_join.
    erewrite bind_ok; [reflexivity|].
    apply (atomic_write_child _ _ _ _ _ Hroot Htmp).
    + destruct Hm as [[-> _] | ->]; exact I.
    + discriminate.
  - apply (load_manifest_at _ _ _ _ Hroot'). right.
    now rewrite assoc_set_entry, String.eqb_refl.
  - rewrite <- Hlatest. now apply (latest_checkpoint_frame _ _ _ _ _ _ Hroot Hroot' Hm).
  - destruct (latest_checkpoint_under_root _ _ _ Hlatest) as [n [Hp Hn]].
    rewrite <- Hfail. unfold load, fs_try. cbn [fst]. rewrite Hp.
    unfold path_join. rewrite <- !app_assoc. cbn [app].
    rewrite (lookup_grandchild _ _ _ _ Hroot), (lookup_grandchild _ _ _ _ Hroot').
    rewrite assoc_set_entry. destruct (String.eqb_spec n MANIFEST); [contradiction|].
    reflexivity.
Qed.

(** What the rewrite does to one record, said without the code's own
    helper: the record keeps its fields, and its flag is cleared when it
    is a record of the step that failed. *)
Lemma mark_bad_records (bad : Z) (cs : list entry) :
  Forall2 (fun c c' =>
             e_step c' = e_step c /\ e_path c' = e_path c /\
             e_loss c' = e_loss c /\ e_timestamp c' = e_timestamp c /\
             e_ok c' = (if e_step c =? bad then false else e_ok c))
          cs (map (mark_bad bad) cs).
Proof.
  induction cs as [|c cs IH]; simpl; constructor; [|exact IH].
  unfold mark_bad. destruct (e_step c =? bad); simpl; repeat split.
Qed.

(** X19. When [load] of the checkpoint that [latest_checkpoint] found
    fails, under a root with a readable or absent manifest and no
    leftover of a manifest write, [load_latest_checkpoint] returns
    [None] and rewrites the manifest: the pointer is as it was, the
    records are the same in number and order, each with its fields as
    they were but for the flag, which is cleared in the records of the
    step that failed. Nothing else under the root changes, no time is
    read and no barrier passed. The next [latest_checkpoint] finds the
    same checkpoint and its [load] fails the same way. *)
Theorem load_failure_marks_and_repeats
    (self : NodeStateHandler) (s : sys) (m : manifest)
    (info : CheckpointInfo) (e : BaseException) :
  isdir (disk s) (root_dir self) = true ->
  exists_ (disk s) (add_suffix (manifest_path self) ".tmp") = false ->
  fst (_load_manifest self s) = Ok m ->
  fst (latest_checkpoint self s) = Ok (Some info) ->
  fst (load (path info) s) = Raise e ->
  exists s' m',
    load_latest_checkpoint self s = (Ok None, s') /\
    _load_manifest self s' = (Ok m', s') /\
    latest m' = latest m /\
    Forall2 (fun c c' =>
               e_step c' = e_step c /\ e_path c' = e_path c /\
               e_loss c' = e_loss c /\ e_timestamp c' = e_timestamp c /\
               e_ok c' = (if e_step c =? step info then false else e_ok c))
            (checkpoints m) (checkpoints m') /\
    (forall k q, k <> MANIFEST ->
       lookup (root_dir self ++ k :: q) (disk s')
       = lookup (root_dir self ++ k :: q) (disk s)) /\
    ticks s' = ticks s /\ barriers s' = barriers s /\
    fst (latest_checkpoint self s') = Ok (Some info) /\
    fst (load (path info) s') = Raise e.
Proof.
  intros Hdir Hmtmp Hload Hlatest Hfail.
  destruct (isdir_entries _ _ _ Hdir) as [es Hroot].
  unfold manifest_path, path_join in Hmtmp. rewrite add_suffix_app in Hmtmp.
  pose proof (free_name _ _ _ _ _ Hroot Hmtmp) as Htmp.
  destruct (load_failure_at self s es m info e Hroot Htmp Hload Hlatest Hfail)
    as [H1 [H2 [H3 H4]]].
  eexists _, _. split; [exact H1|]. split; [exact H2|].
  split; [reflexivity|]. split; [apply mark_bad_records|].
  split; [|split; [reflexivity|split; [reflexivity|split; [exact H3 | exact H4]]]].
  intros k q Hk. cbn [disk].
  rewrite (lookup_under _ _ _ _ _ Hroot).
  rewrite (lookup_under _ _ _ _ _ (lookup_plug _ _ _ _ _ Hroot)).
  simpl. rewrite assoc_set_entry.
  destruct (String.eqb_spec k MANIFEST); [contradiction | reflexivity].
Qed.

Lemma load_failure_marks_and_repeats_witness :
  exists s' m',
    load_latest_checkpoint ckpt_handler external_sys = (Ok None, s') /\
    _load_manifest ckpt_handler s' = (Ok m', s') /\
    latest m' = Some 5 /\
    map e_step (checkpoints m') = [5] /\
    map e_ok (checkpoints m') = [false] /\
    fst (latest_checkpoint ckpt_handler s')
      = Ok (Some (CheckpointInfo_at 5 ["ckpt"; "step_00000005"])) /\
    fst (load (path (CheckpointInfo_at 5 ["ckpt"; "step_00000005"])) s')
      = Raise FileNotFoundError.
Proof.
  destruct (load_failure_marks_and_repeats ckpt_handler external_sys
              (mkManifest (Some 5) [mkEntry 5 ["ckpt"; "step_00000005"] None 1 true])
              (CheckpointInfo_at 5 ["ckpt"; "step_00000005"]) FileNotFoundError)
    as [s' [m' [H1 [H2 [H3 [H4 [_ [_ [_ [H5 H6]]]]]]]]]];
    try (vm_compute; reflexivity).
  exists s', m'. split; [exact H1|]. split; [exact H2|]. split; [exact H3|].
  cbn [checkpoints] in H4.
  inversion H4 as [|c c' l l' [Hs [_ [_ [_ Hok]]]] Hnil Hc Hm']; subst.
  inversion Hnil; subst.
  split; [simpl; now rewrite Hs|]. split; [simpl; now rewrite Hok|].
  split; [exact H5 | exact H6].
Defined.
(* ===================================================================== *)
(** * More on checkpoints recorded from outside *)
(* ===================================================================== *)

Local Open Scope string_scope.
Local Open Scope Z_scope.
Local Open Scope list_scope.

(** [os.makedirs(p, exist_ok=True)] of a name right under a directory,
    free or a directory already: afterwards the name is a directory
    with the entries it had, and its siblings are as before. *)
Lemma makedirs_child (root : Fs.path) (n : string) (t : tree) es :
  lookup root t = Some (Dir es) ->
  match assoc n es with Some (File _) => False | _ => True end ->
  exists t1 es1 d1,
    makedirs (root ++ [n]) t = Ok t1 /\
    lookup root t1 = Some (Dir es1) /\
    assoc n es1 = Some (Dir d1) /\
    (forall k, k <> n -> assoc k es1 = assoc k es) /\
    (forall k, assoc k d1 = match assoc n es with
                            | Some c => lookup [k] c
                            | None => None
                            end).
Proof.
  intros Hroot Hn. destruct (assoc n es) as [[x | d]|] eqn:E; [destruct Hn | |].
  - exists t, es, d. split.
    { apply (makedirs_existing _ _ _ d). now rewrite (lookup_child _ _ _ _ Hroot). }
    split; [exact Hroot|]. split; [exact E|]. split; [reflexivity|].
    intros k. simpl. now destruct (assoc k d).
  - exists (plug root (Dir (set_entry n (Dir []) es)) t), (set_entry n (Dir []) es), [].
    split; [now apply makedirs_fresh|].
    split; [eapply lookup_plug; eauto|].
    split; [now rewrite assoc_set_entry, String.eqb_refl|].
    split; [|reflexivity].
    intros k Hk. rewrite assoc_set_entry.
    destruct (String.eqb_spec k n); [contradiction | reflexivity].
Qed.

(** X20. [record_external] of a step at the directory [checkpoint_dir]
    gives it, the directory being free or a directory already, under a
    root with a readable or absent manifest and no leftovers of earlier
    writes: the call succeeds, reads the clock twice and passes no
    barrier; the manifest is the earlier one with the step recorded as
    good at the second reading; [latest_checkpoint] then returns the
    step; and every entry of the directory but the metadata file is as
    it was, so a directory without a state file stays without one. *)
Theorem record_external_then_latest
    (e : env) (self : NodeStateHandler) (st : Z) (loss : option Q)
    (s : sys) (m : manifest) :
  isdir (disk s) (root_dir self) = true ->
  exists_ (disk s) (add_suffix (manifest_path self) ".tmp") = false ->
  fst (_load_manifest self s) = Ok m ->
  isfile (disk s) (checkpoint_dir self st) = false ->
  exists_ (disk s) (add_suffix (path_join (checkpoint_dir self st) META_FILE) ".tmp")
    = false ->
  isdir (disk s) (path_join (checkpoint_dir self st) META_FILE) = false ->
  exists s',
    record_external e self st (checkpoint_dir self st) loss s = (Ok tt, s') /\
    ticks s' = S (S (ticks s)) /\ barriers s' = barriers s /\
    _load_manifest self s'
      = (Ok (recorded m (mkInfo st (checkpoint_dir self st) loss
                           (clock e (S (ticks s))) true)), s') /\
    fst (latest_checkpoint self s')
      = Ok (Some (CheckpointInfo_at st (checkpoint_dir self st))) /\
    lookup (path_join (checkpoint_dir self st) META_FILE) (disk s')
      = Some (File (MetaJson (mkMeta st loss (clock e (ticks s)) (get_rank e)))) /\
    (forall k, k <> META_FILE ->
       lookup (path_join (checkpoint_dir self st) k) (disk s')
       = lookup (path_join (checkpoint_dir self st) k) (disk s)).
Proof.
  intros Hdir Hmtmp Hload Hfile Htmp Hmeta.
  destruct (isdir_entries _ _ _ Hdir) as [es Hroot].
  unfold manifest_path, path_join in Hmtmp. rewrite add_suffix_app in Hmtmp.
  pose proof (free_name _ _ _ _ _ Hroot Hmtmp) as Hmtmp'.
  pose proof (load_manifest_inv self s es m Hroot Hload) as Hm.
  unfold checkpoint_dir, path_join in *. set (S_ := step_name st) in *.
  assert (HS : match assoc S_ es with Some (File _) => False | _ => True end).
  { revert Hfile. unfold isfile. rewrite (lookup_child _ _ _ _ Hroot).
    destruct (assoc S_ es) as [[|]|]; [discriminate | exact (fun _ => I) | exact (fun _ => I)]. }
  destruct (makedirs_child _ S_ _ _ Hroot HS)
    as [t1 [es1 [d1 [Hmk [Hroot1 [HS1 [Hsib1 Hd1]]]]]]].
  assert (Hdir1 : lookup (root_dir self ++ [S_]) t1 = Some (Dir d1)).
  { now rewrite (lookup_child _ _ _ _ Hroot1). }
  assert (Hd1tmp : assoc (META_FILE ++ ".tmp")%string d1 = None).
  { rewrite Hd1. revert Htmp. rewrite add_suffix_app. unfold exists_.
    rewrite <- app_assoc. cbn [app]. rewrite (lookup_grandchild _ _ _ _ Hroot).
    destruct (assoc S_ es) as [c|]; [|reflexivity].
    destruct (lookup [(META_FILE ++ ".tmp")%string] c); [discriminate | reflexivity]. }
  assert (Hd1meta : match assoc META_FILE d1 with Some (Dir _) => False | _ => True end).
  { rewrite Hd1. revert Hmeta. unfold isdir.
    rewrite <- app_assoc. cbn [app]. rewrite (lookup_grandchild _ _ _ _ Hroot).
    destruct (assoc S_ es) as [c|]; [|exact (fun _ => I)].
    destruct (lookup [META_FILE] c) as [[|]|];
      [exact (fun _ => I) | discriminate | exact (fun _ => I)]. }
  set (meta := MetaJson (mkMeta st loss (clock e (ticks s)) (get_rank e))).
  set (d2 := set_entry META_FILE (File meta) d1).
  set (es2 := set_entry S_ (Dir d2) es1).
  set (info := mkInfo st (root_dir self ++ [S_]) loss (clock e (S (ticks s))) true).
  set (es3 := set_entry MANIFEST (File (ManifestJson (recorded m info))) es2).
  assert (HnS : forall k, k <> S_ -> assoc k es2 = assoc k es).
  { intros k Hk. unfold es2. rewrite assoc_set_entry.
    destruct (String.eqb_spec k S_); [contradiction | now apply Hsib1]. }
  assert (HSm : MANIFEST <> S_ /\ (MANIFEST ++ ".tmp")%string <> S_).
  { pose proof (step_name_not_manifest st) as [H1 [H2 _]].
    split; intros E; symmetry in E; [exact (H1 E) | exact (H2 E)]. }
  assert (Hm2 : manifest_at es2 m).
  { unfold manifest_at. rewrite (HnS MANIFEST) by apply HSm. exact Hm. }
  assert (Htmp2 : assoc (MANIFEST ++ ".tmp")%string es2 = None).
  { rewrite HnS by apply HSm. exact Hmtmp'. }
  set (s1 := mkSys t1 (ticks s) (barriers s)).
  set (s2 := mkSys (plug (root_dir self) (Dir es2) t1) (S (S (ticks s))) (barriers s)).
  assert (Hroot2 : lookup (root_dir self) (disk s2) = Some (Dir es2)).
  { apply (lookup_plug _ _ _ _ _ Hroot1). }
  set (s3 := mkSys (plug (root_dir self) (Dir es3) (disk s2)) (ticks s2) (barriers s2)).
  assert (Hroot3 : lookup (root_dir self) (disk s3) = Some (Dir es3)).
  { apply (lookup_plug _ _ _ _ _ Hroot2). }
  assert (Hm3 : manifest_at es3 (recorded m info)).
  { right. unfold es3. now rewrite assoc_set_entry, String.eqb_refl. }
  assert (HS3 : assoc S_ es3 = Some (Dir d2)).
  { unfold es3, es2. rewrite assoc_set_entry.
    destruct (String.eqb_spec S_ MANIFEST) as [E|_]; [symmetry in E; now apply HSm in E|].
    now rewrite assoc_set_entry, String.eqb_refl. }
  assert (Hrun : record_external e self st (root_dir self ++ [S_]) loss s = (Ok tt, s3)).
  { unfold record_external, _safe_makedirs.
    erewrite bind_ok; [|apply fs_call_ok; exact Hmk].
    unfold path_join, time_time at 1.
    erewrite bind_ok; [|reflexivity].
    erewrite bind_ok; cycle 1.
    { apply (atomic_write_child (root_dir self ++ [S_]) META_FILE meta
               (mkSys t1 (S (ticks s)) (barriers s)) d1 Hdir1 Hd1tmp Hd1meta).
      discriminate. }
    erewrite bind_ok; [|reflexivity].
    cbn [disk ticks barriers].
    rewrite (plug_child _ _ _ _ Hroot1 _ _ _ HS1).
    apply (record_checkpoint_at self info s2 es2 m Hroot2 Hm2 Htmp2). }
  exists s3. split; [exact Hrun|].
  split; [reflexivity|]. split; [reflexivity|].
  split; [exact (load_manifest_at _ _ _ _ Hroot3 Hm3)|].
  assert (Hmeta3 : lookup (root_dir self ++ [S_] ++ [META_FILE]) (disk s3)
                   = Some (File meta)).
  { cbn [app]. rewrite (lookup_grandchild _ _ _ _ Hroot3), HS3. simpl.
    unfold d2. now rewrite assoc_set_entry, String.eqb_refl. }
  split.
  { rewrite (latest_checkpoint_pointer self s3 es3 _ st Hroot3 Hm3 eq_refl);
      [reflexivity|].
    unfold isfile, checkpoint_dir, path_join. fold S_.
    now rewrite <- app_assoc, Hmeta3. }
  split; [now rewrite <- app_assoc|].
  intros k Hk. rewrite <- !app_assoc. cbn [app].
  rewrite (lookup_grandchild _ _ _ _ Hroot3), HS3, (lookup_grandchild _ _ _ _ Hroot).
  simpl. unfold d2. rewrite assoc_set_entry.
  destruct (String.eqb_spec k META_FILE); [contradiction|].
  rewrite Hd1. destruct (assoc S_ es) as [c|]; [|reflexivity].
  simpl. destruct c as [x | d]; [reflexivity|]. now destruct (assoc k d).
Qed.

Lemma record_external_then_latest_witness :
  exists s',
    record_external leader_env ckpt_handler 5 (checkpoint_dir ckpt_handler 5) None
      fresh_sys = (Ok tt, s') /\
    ticks s' = S (S (ticks fresh_sys)) /\ barriers s' = barriers fresh_sys /\
    _load_manifest ckpt_handler s'
      = (Ok (recorded (mkManifest None [])
               (mkInfo 5 (checkpoint_dir ckpt_handler 5) None
                  (clock leader_env (S (ticks fresh_sys))) true)), s') /\
    fst (latest_checkpoint ckpt_handler s')
      = Ok (Some (CheckpointInfo_at 5 (checkpoint_dir ckpt_handler 5))) /\
    lookup (path_join (checkpoint_dir ckpt_handler 5) META_FILE) (disk s')
      = Some (File (MetaJson (mkMeta 5 None (clock leader_env (ticks fresh_sys))
                                (get_rank leader_env)))) /\
    (forall k, k <> META_FILE ->
       lookup (path_join (checkpoint_dir ckpt_handler 5) k) (disk s')
       = lookup (path_join (checkpoint_dir ckpt_handler 5) k) (disk fresh_sys)).
Proof.
  apply (record_external_then_latest leader_env ckpt_handler 5 None fresh_sys
           (mkManifest None []));
    vm_compute; reflexivity.
Defined.
